(** * The batch-fetch engine of [src/data.py]

    A shallow embedding of [batch_query] (data.py, lines 49-108): the
    checkpoint dictionary, its JSON persistence, the work-set filter, the
    request loop with its adaptive delay, and the periodic and final dumps.

    Conventions of the embedding.
    - A Python [dict] is an association list with pairwise distinct keys,
      kept in insertion order (the order [json.dump] writes).
    - The file at [json_save_path] is either missing or holds a JSON object,
      given as the sequence of its members.  JSON text itself is not
      modelled: [json_dump] and [json_load] work on the sequence of members.
    - An HTTP response is the triple of observations the code makes of it:
      [status_code], [text], and the value of parsing the body.
    - The remote endpoint is the list of responses it gives, one per
      request, in order.
    - [delay] is an exact rational: the rounding of Python floats is not
      modelled, nor the [OverflowError] that [time.sleep] raises on a delay
      beyond its range.  What is stated of the delay is stated for this
      exact arithmetic.
    - [batch_size] and [idx] are natural numbers.
    - Progress output ([print], [tqdm]) is not modelled, nor are failures
      of the network or of the file system.

    The development also covers the callers of [batch_query] and their
    transforms: [get_citing_authors] (lines 35-46), [process_paper_response]
    and the request of [prepare_papers_data] (lines 120-142), the id
    collection, [process_author_response] and the request of
    [prepare_authors_data] (lines 145-176).  There a Python value is a
    [json] value, a Python exception is a value of [Py.exception], and
    Python's [int] on strings is a parameter.  The pandas pipeline of
    [prepare_papers_data] (lines 112-119) and [kaggle_json_to_parquet] are
    not modelled. *)

From Stdlib Require Import String Ascii ZArith QArith Qminmax Qpower Lia Lqa Bool Arith List.
From Stdlib Require Import DecimalString.
Import ListNotations.

Set Implicit Arguments.
Set Warnings "-register-all".

Close Scope Q_scope.
Local Open Scope string_scope.
Local Open Scope list_scope.

(** ** JSON values *)

(** What [json.load] and [response.json()] return and [json.dump] takes:
    [None], booleans, ints, strings, lists, and dicts with string keys (a
    [JObj] holds the items of the dict).  The records of the remote API
    carry no fractional numbers, so numbers are integers here. *)
Inductive json : Type :=
| JNull
| JBool (b : bool)
| JNum (z : Z)
| JStr (s : string)
| JArr (items : list json)
| JObj (members : list (string * json)).

(** [response is None] *)
Definition is_None (j : json) : bool :=
  match j with JNull => true | _ => false end.

(** ** Identifiers and the checkpoint dictionary *)

(** The ids handed to [batch_query] are Python strings (["ARXIV:..."], line
    137) or Python ints (author ids, lines 149-152 and 171). *)
Inductive Identifier : Type :=
| IdS (s : string)
| IdI (z : Z).

(** Python [==] on keys: a [str] never equals an [int]. *)
Definition id_eqb (a b : Identifier) : bool :=
  match a, b with
  | IdS s, IdS t => String.eqb s t
  | IdI x, IdI y => Z.eqb x y
  | _, _ => false
  end.

Definition dict : Type := list (Identifier * json).

Definition keys (d : dict) : list Identifier := map fst d.

(** [id in data.keys()] *)
Fixpoint contains_key (id : Identifier) (d : dict) : bool :=
  match d with
  | [] => false
  | (k, _) :: d' => id_eqb id k || contains_key id d'
  end.

(** [data.get(id)]: [None] when the key is missing; [Some JNull] is the
    stored [None] of line 92. *)
Fixpoint get (id : Identifier) (d : dict) : option json :=
  match d with
  | [] => None
  | (k, v) :: d' => if id_eqb id k then Some v else get id d'
  end.

(** [data[id] = v]: an existing key keeps its position, a new key goes last. *)
Fixpoint set (id : Identifier) (v : json) (d : dict) : dict :=
  match d with
  | [] => [(id, v)]
  | (k, w) :: d' => if id_eqb id k then (k, v) :: d' else (k, w) :: set id v d'
  end.

(** ** Persistence: [json.dump] and [json.load] (lines 57-61, 102-103, 107-108) *)

(** The members of the JSON object in the file, in the order written. *)
Definition document : Type := list (string * json).

(** [str(z)], the decimal numeral [json.dump] writes for an int key. *)
Definition str_int (z : Z) : string := NilZero.string_of_int (Z.to_int z).

(** A JSON member name is a string: [json.dump] writes a [str] key as it is
    and an [int] key as its decimal numeral. *)
Definition key_name (id : Identifier) : string :=
  match id with
  | IdS s => s
  | IdI z => str_int z
  end.

Definition json_dump (d : dict) : document :=
  map (fun kv => (key_name (fst kv), snd kv)) d.

(** [json.load] builds the dict member by member; every key is a [str], and
    a repeated name keeps its first position and its last value. *)
Definition json_load (doc : document) : dict :=
  fold_left (fun d kv => set (IdS (fst kv)) (snd kv) d) doc [].

(** ** Module constants (lines 14-16) *)

Definition QUERY_BASE_DELAY : Q := (1 # 10)%Q.
Definition QUERY_MULT_DELAY : Q := (12 # 10)%Q.
Definition QUERY_DUMP_INTERVAL : nat := 10.

(** ** Substring test: [needle in haystack] on Python strings *)

Fixpoint contains (needle hay : string) : bool :=
  if String.prefix needle hay then true
  else match hay with
       | EmptyString => false
       | String _ hay' => contains needle hay'
       end.

(** ** HTTP responses *)

(** What the code observes of a [requests.Response]: [status_code], [text],
    and the value of [response.json()] / [json.loads(response.text)], which
    is [None] when the body is not a JSON document (the call then raises).
    A [JObj] in a parsed value holds the items of a Python dict. *)
Record Response : Type := mkResponse {
  status_code : Z;
  text : string;
  parsed : option json
}.

(** What [zip] iterates when given a parsed body: the items of a list, the
    keys of a dict, the characters of a str; anything else is not iterable. *)
Definition py_iter (j : json) : option (list json) :=
  match j with
  | JArr items => Some items
  | JObj members => Some (map (fun m => JStr (fst m)) members)
  | JStr s => Some (map (fun c => JStr (String c EmptyString)) (list_ascii_of_string s))
  | JNull | JBool _ | JNum _ => None
  end.

(** ** Observable events, process status, loop state *)

Inductive event : Type :=
| Post (url fields : string) (ids : list Identifier) (* [requests.post], lines 73-77 *)
| Call (entry : json)                                (* [process_response_f(response)], line 94 *)
| Sleep (d : Q)                                      (* [time.sleep], lines 86 and 104 *)
| Dump (doc : document).                             (* [json.dump] to [json_save_path] *)

(** Where an exception leaves [batch_query]: the constructors name the line
    that raised, not the Python class.  Line 94 is in no [try], so what the
    transform raises leaves [batch_query] as it is, of whatever class (a
    [TypeError] or a [KeyError] of its own, for one): that is
    [TransformError]. *)
Inductive exn : Type :=
| JSONDecodeError     (* lines 85 and 89: parsing a body that is not JSON *)
| TypeError           (* line 89: iterating a value that is not iterable *)
| ZeroDivisionError   (* line 100: [idx % 0] *)
| TransformError.     (* line 94: whatever [process_response_f] raises *)

Inductive status : Type :=
| Running               (* inside the loop, waiting for the next response *)
| Returned              (* [batch_query] returned *)
| Exit (code : Z)       (* [sys.exit(code)] *)
| Uncaught (e : exn).   (* an exception left [batch_query] *)

Record state : Type := mkState {
  data : dict;              (* the checkpoint in memory *)
  idx : nat;
  delay : Q;
  file : option document;   (* what is at [json_save_path] *)
  trace : list event        (* events so far, oldest first *)
}.

Definition log (e : event) (st : state) : state :=
  mkState (data st) (idx st) (delay st) (file st) (trace st ++ [e]).

Definition assign (id : Identifier) (v : json) (st : state) : state :=
  mkState (set id v (data st)) (idx st) (delay st) (file st) (trace st).

Definition with_delay (d : Q) (st : state) : state :=
  mkState (data st) (idx st) d (file st) (trace st).

Definition with_idx (i : nat) (st : state) : state :=
  mkState (data st) i (delay st) (file st) (trace st).

(** [with open(json_save_path, 'w') as f: json.dump(data, f, indent=4)] *)
Definition dump (st : state) : state :=
  let doc := json_dump (data st) in
  mkState (data st) (idx st) (delay st) (Some doc) (trace st ++ [Dump doc]).

(** [time.sleep(delay)], for a delay that [time.sleep] accepts. *)
Definition sleep (st : state) : state := log (Sleep (delay st)) st.

(** ** The delay updates (lines 82 and 98), in exact arithmetic *)

Definition on_throttled (d : Q) : Q := (d * QUERY_MULT_DELAY)%Q.

(** [Qmax a b] is [b] when [a < b] and [a] otherwise, as Python's [max(a, b)]. *)
Definition on_success (d : Q) : Q := Qmax QUERY_BASE_DELAY (d / QUERY_MULT_DELAY)%Q.

(** ** [batch_query] *)

Section BatchQuery.

(** The caller's transform; [None] stands for an exception raised by it. *)
Variable process_response_f : json -> option json.
Variable batch_size : nat.
Variables query_fields query_url : string.

(** Lines 89-94: the zip loop over one answered batch.  When the transform
    raises, the loop stops there with [TransformError], which stands for
    the transform's own exception, whatever its class. *)
Fixpoint merge (pairs : list (Identifier * json)) (st : state) : status * state :=
  match pairs with
  | [] => (Running, st)
  | (id, response) :: rest =>
      if is_None response then merge rest (assign id JNull st)
      else
        let st := log (Call response) st in
        match process_response_f response with
        | None => (Uncaught TransformError, st)
        | Some r => merge rest (assign id r st)
        end
  end.


(** The value line 92 or line 94 stores for an entry, when there is one. *)
Definition stored (entry : json) : option json :=
  if is_None entry then Some JNull else process_response_f entry.

Section Loop.

Variable filtered_query_ids : list Identifier.

(** [filtered_query_ids[idx: idx + batch_size]] *)
Definition batch_at (i : nat) : list Identifier :=
  firstn batch_size (skipn i filtered_query_ids).

(** Lines 96-104, after the zip loop of a 200 response. *)
Definition advance (st : state) : status * state :=
  let st := with_idx (idx st + batch_size) st in
  let st := with_delay (on_success (delay st)) st in
  match batch_size * QUERY_DUMP_INTERVAL with
  | O => (Uncaught ZeroDivisionError, st)
  | S _ as period =>
      let st := if (idx st mod period =? 0)%nat then dump st else st in
      (Running, sleep st)
  end.

(** Lines 72-104: one pass through the body of the [while] loop, given
    the response to its request. *)
Definition iteration (response : Response) (st : state) : status * state :=
  let batch_ids := batch_at (idx st) in
  let st := log (Post query_url query_fields batch_ids) st in
  if negb (status_code response =? 200)%Z then
    if contains "error" (text response) then (Exit 1, st)
    else
      let st := with_delay (on_throttled (delay st)) st in
      if negb (contains "Too Many Requests" (text response)) then
        match parsed response with
        | None => (Uncaught JSONDecodeError, st)
        | Some _ => (Running, sleep st)
        end
      else (Running, sleep st)
  else
    match parsed response with
    | None => (Uncaught JSONDecodeError, st)
    | Some body =>
        match py_iter body with
        | None => (Uncaught TypeError, st)
        | Some entries =>
            match merge (combine batch_ids entries) st with
            | (Running, st) => advance st
            | halted => halted
            end
        end
    end.

(** Lines 71-108: the [while] loop fed with the endpoint's responses,
    then the final dump.  [Running] is returned when the responses run
    out while the loop condition still holds. *)
Fixpoint while (responses : list Response) (st : state) : status * state :=
  if (idx st <? length filtered_query_ids)%nat then
    match responses with
    | [] => (Running, st)
    | response :: responses' =>
        match iteration response st with
        | (Running, st') => while responses' st'
        | halted => halted
        end
    end
  else (Returned, dump st).

End Loop.

(** Lines 57-61. *)
Definition load (f : option document) : dict :=
  match f with
  | Some doc => json_load doc
  | None => []
  end.

(** Line 64. *)
Definition filter_ids (query_ids : list Identifier) (d : dict) : list Identifier :=
  filter (fun id => negb (contains_key id d)) query_ids.

(** The state on entering the [while] loop (lines 57-70). *)
Definition initial (f : option document) : state :=
  mkState (load f) 0 QUERY_BASE_DELAY f [].

Definition batch_query (json_save_path : option document)
           (query_ids : list Identifier) (responses : list Response)
  : status * state :=
  let st := initial json_save_path in
  while (filter_ids query_ids (data st)) responses st.

End BatchQuery.

(** ** Reading a trace *)

(** The id lists of the requests, in the order sent. *)
Fixpoint requests (tr : list event) : list (list Identifier) :=
  match tr with
  | [] => []
  | Post _ _ ids :: tr' => ids :: requests tr'
  | _ :: tr' => requests tr'
  end.

(** The entries the transform was called on, in order. *)
Fixpoint calls (tr : list event) : list json :=
  match tr with
  | [] => []
  | Call e :: tr' => e :: calls tr'
  | _ :: tr' => calls tr'
  end.

(** The pauses, in order. *)
Fixpoint sleeps (tr : list event) : list Q :=
  match tr with
  | [] => []
  | Sleep d :: tr' => d :: sleeps tr'
  | _ :: tr' => sleeps tr'
  end.

(** The documents written, in order. *)
Fixpoint dumps (tr : list event) : list document :=
  match tr with
  | [] => []
  | Dump doc :: tr' => doc :: dumps tr'
  | _ :: tr' => dumps tr'
  end.

(** ** Vocabulary of the statements *)

(** Keys that are Python strings. *)
Definition str_key (id : Identifier) : Prop :=
  match id with IdS _ => True | IdI _ => False end.

(** What a key becomes on the way through the file. *)
Definition rekey (kv : Identifier * json) : Identifier * json :=
  (IdS (key_name (fst kv)), snd kv).

(** The entries line 94 hands to the transform. *)
Definition transformed (entries : list json) : list json :=
  filter (fun e => negb (is_None e)) entries.


(** The result [v] recorded for [k] is in the file: this is what survives
    when the process is killed. *)
Definition persisted (f : option document) (k : Identifier) (v : json) : Prop :=
  match f with
  | Some doc => In (key_name k, v) doc
  | None => False
  end.

(** Between passes: the pointer is [j] batches past a multiple of the dump
    period, and what the file lacks was merged in those [j] batches. *)
Definition since_dump (batch_size : nat) (F : list Identifier) (st : state) : Prop :=
  exists q j,
    idx st = q * (batch_size * QUERY_DUMP_INTERVAL) + j * batch_size /\
    j < QUERY_DUMP_INTERVAL /\
    forall k v, In (k, v) (data st) ->
                persisted (file st) k v
                \/ In k (firstn (j * batch_size)
                                (skipn (q * (batch_size * QUERY_DUMP_INTERVAL)) F)).

(** No id with a value in the checkpoint is still ahead of the pointer. *)
Definition resolved_behind (F : list Identifier) (st : state) : Prop :=
  forall id, In id (keys (data st)) -> ~ In id (skipn (idx st) F).

(** The id [x] has no value in the checkpoint, under its own key or under
    the name it would be saved as, and is not a key of what the file holds. *)
Definition unrecorded (x : Identifier) (st : state) : Prop :=
  (forall k, In k (keys (data st)) -> k <> x /\ IdS (key_name k) <> x) /\
  ~ In x (keys (load (file st))).

(** A response the code takes for throttling and lives through: status
    other than 200, no error marker, and a body that is the throttling text
    or parses as JSON (lines 78-87). *)
Definition throttling (r : Response) : Prop :=
  status_code r <> 200%Z /\ contains "error" (text r) = false /\
  (contains "Too Many Requests" (text r) = true \/ parsed r <> None).

(** A response the code takes for an answer and merges without an
    exception: status 200, a body that parses and can be iterated, and a
    transform that returns on every entry. *)
Definition answered (process_response_f : json -> option json) (r : Response) : Prop :=
  status_code r = 200%Z /\
  exists body entries,
    parsed r = Some body /\ py_iter body = Some entries /\
    Forall (fun e => stored process_response_f e <> None) entries.

(** A response that, if it is an answer, has an entry for every id of a
    full batch. *)
Definition complete (batch_size : nat) (r : Response) : Prop :=
  forall body entries,
    status_code r = 200%Z ->
    parsed r = Some body -> py_iter body = Some entries ->
    batch_size <= length entries.

(** ** Pacing *)

(** Whether a pause has been seen since the last request, after a trace. *)
Fixpoint slept_after (slept : bool) (tr : list event) : bool :=
  match tr with
  | [] => slept
  | Post _ _ _ :: tr' => slept_after false tr'
  | Sleep _ :: tr' => slept_after true tr'
  | _ :: tr' => slept_after slept tr'
  end.

(** A trace in which every pause lasts at least the base delay and every
    request comes after a pause since the request before it; [slept] tells
    whether the trace may start with a request. *)
Fixpoint paced (slept : bool) (tr : list event) : Prop :=
  match tr with
  | [] => True
  | Post _ _ _ :: tr' => slept = true /\ paced false tr'
  | Sleep d :: tr' => (QUERY_BASE_DELAY <= d)%Q /\ paced true tr'
  | _ :: tr' => paced slept tr'
  end.

(** ** The transforms and their callers (lines 35-46, 111-176) *)

(** Python values are the [json] values above: the records the transforms
    get come from [response.json()].  [list(set(...))] gives its elements in
    an order that depends on hashes; the model lists them in one order and
    no statement depends on it. *)

Module Py.

Inductive exception : Type :=
| KeyError (key : string)   (* a dict has no such key *)
| TypeError                 (* a value of the wrong kind *)
| ValueError.               (* [int] of a string that is no numeral *)

Inductive result (A : Type) : Type :=
| Return (a : A)
| Raise (e : exception).

Arguments Return {A} a.
Arguments Raise {A} e.

Definition bind {A B : Type} (x : result A) (k : A -> result B) : result B :=
  match x with
  | Return a => k a
  | Raise e => Raise e
  end.

(** The items of a dict, by key. *)
Fixpoint lookup (key : string) (members : list (string * json)) : option json :=
  match members with
  | [] => None
  | (k, v) :: rest => if String.eqb key k then Some v else lookup key rest
  end.

Fixpoint store (key : string) (v : json) (members : list (string * json))
  : list (string * json) :=
  match members with
  | [] => [(key, v)]
  | (k, w) :: rest =>
      if String.eqb key k then (k, v) :: rest else (k, w) :: store key v rest
  end.

Fixpoint remove (key : string) (members : list (string * json))
  : list (string * json) :=
  match members with
  | [] => []
  | (k, w) :: rest => if String.eqb key k then rest else (k, w) :: remove key rest
  end.

(** [j[key]]: a [KeyError] on a dict without the key, a [TypeError] on
    anything that is not a dict (a list, a str, a number, [None]). *)
Definition getitem (j : json) (key : string) : result json :=
  match j with
  | JObj members =>
      match lookup key members with
      | Some v => Return v
      | None => Raise (KeyError key)
      end
  | _ => Raise TypeError
  end.

(** [j[key] = v] *)
Definition setitem (j : json) (key : string) (v : json) : result json :=
  match j with
  | JObj members => Return (JObj (store key v members))
  | _ => Raise TypeError
  end.

(** [del j[key]] *)
Definition delitem (j : json) (key : string) : result json :=
  match j with
  | JObj members =>
      match lookup key members with
      | Some _ => Return (JObj (remove key members))
      | None => Raise (KeyError key)
      end
  | _ => Raise TypeError
  end.

(** [for x in j] *)
Definition iter (j : json) : result (list json) :=
  match py_iter j with
  | Some items => Return items
  | None => Raise TypeError
  end.

(** [a == b] on values that can be in a set: [True == 1] and [False == 0]. *)
Definition number (j : json) : option Z :=
  match j with
  | JNum z => Some z
  | JBool b => Some (if b then 1 else 0)%Z
  | _ => None
  end.

Definition eqb (a b : json) : bool :=
  match a, b with
  | JNull, JNull => true
  | JStr s, JStr t => String.eqb s t
  | _, _ =>
      match number a, number b with
      | Some x, Some y => Z.eqb x y
      | _, _ => false
      end
  end.

Definition hashable (j : json) : bool :=
  match j with
  | JArr _ | JObj _ => false
  | _ => true
  end.

(** [s.add(x)] on a set kept as a list of pairwise unequal values. *)
Definition add (x : json) (s : list json) : list json :=
  if existsb (eqb x) s then s else s ++ [x].

(** [list(set(l))]: a [TypeError] when an element is a list or a dict.  The
    elements come in the order they were first met; Python's order depends
    on their hashes, so a statement may only speak of membership. *)
Definition list_set (l : list json) : result (list json) :=
  if forallb hashable l then Return (fold_left (fun s x => add x s) l [])
  else Raise TypeError.

(** The same for ints, which are always hashable. *)
Definition add_int (z : Z) (s : list Z) : list Z :=
  if existsb (Z.eqb z) s then s else s ++ [z].

Definition list_set_int (l : list Z) : list Z :=
  fold_left (fun s z => add_int z s) l [].

End Py.

Notation "x <- c ;; k" := (Py.bind c (fun x => k))
  (at level 61, c at next level, right associativity).

(** Line 13. *)
Definition CITATION_YEARS : Z := 3.

Section Transforms.

(** Python's [int] on a [str]; [None] when it raises [ValueError]. *)
Variable int_of_str : string -> option Z.

(** [int(j)] *)
Definition int (j : json) : Py.result Z :=
  match j with
  | JNum z => Py.Return z
  | JBool b => Py.Return (if b then 1 else 0)%Z
  | JStr s =>
      match int_of_str s with
      | Some z => Py.Return z
      | None => Py.Raise Py.ValueError
      end
  | JNull | JArr _ | JObj _ => Py.Raise Py.TypeError
  end.

(** [int(author["authorId"])] *)
Definition author_id (author : json) : Py.result Z :=
  a <- Py.getitem author "authorId" ;; int a.

(** Lines 41-42.  The set is updated in place: what was added before an
    exception stays added. *)
Fixpoint add_authors (l : list json) (authors : list Z)
  : list Z * option Py.exception :=
  match l with
  | [] => (authors, None)
  | author :: rest =>
      match author_id author with
      | Py.Return z => add_authors rest (Py.add_int z authors)
      | Py.Raise e => (authors, Some e)
      end
  end.

(** [int(citation["year"])] *)
Definition citation_year (citation : json) : Py.result Z :=
  y <- Py.getitem citation "year" ;; int y.

(** What [for author in citation["authors"]] goes through. *)
Definition citation_authors (citation : json) : Py.result (list json) :=
  a <- Py.getitem citation "authors" ;; Py.iter a.

(** The authors of one citation that the inner loop reaches and adds to the
    set: they and all the authors before them give an id. *)
Definition reached (items : list json) (z : Z) : Prop :=
  exists pre a post,
    items = pre ++ a :: post /\
    Forall (fun b => exists w, author_id b = Py.Return w) pre /\
    author_id a = Py.Return z.

(** The ids a citation contributes: it is recent enough and its inner loop
    reaches the author. *)
Definition counted (paper_year citation_years : Z) (citation : json) (z : Z) : Prop :=
  exists year items,
    citation_year citation = Py.Return year /\
    (year < paper_year + citation_years)%Z /\
    citation_authors citation = Py.Return items /\
    reached items z.

(** Lines 39-42, the body of the [try]. *)
Definition try_citation (citation : json) (paper_year citation_years : Z)
           (authors : list Z) : list Z * option Py.exception :=
  match citation_year citation with
  | Py.Raise e => (authors, Some e)
  | Py.Return year =>
      if (year <? paper_year + citation_years)%Z then
        match citation_authors citation with
        | Py.Raise e => (authors, Some e)
        | Py.Return l => add_authors l authors
        end
      else (authors, None)
  end.

(** Lines 37-45: [except TypeError: continue], any other exception leaves
    the function. *)
Fixpoint citations_loop (l : list json) (paper_year citation_years : Z)
         (authors : list Z) : Py.result (list Z) :=
  match l with
  | [] => Py.Return authors
  | citation :: rest =>
      match try_citation citation paper_year citation_years authors with
      | (authors', None) => citations_loop rest paper_year citation_years authors'
      | (authors', Some Py.TypeError) =>
          citations_loop rest paper_year citation_years authors'
      | (_, Some e) => Py.Raise e
      end
  end.

(** Lines 35-46. *)
Definition get_citing_authors (l : json) (paper_year citation_years : Z)
  : Py.result (list Z) :=
  citations <- Py.iter l ;;
  citations_loop citations paper_year citation_years [].

(** [[tmp["category"] for tmp in items if tmp["category"] is not None]]
    (lines 125 and 160). *)
Fixpoint categories (items : list json) : Py.result (list json) :=
  match items with
  | [] => Py.Return []
  | tmp :: rest =>
      c <- Py.getitem tmp "category" ;;
      if is_None c then categories rest
      else
        c <- Py.getitem tmp "category" ;;
        cs <- categories rest ;;
        Py.Return (c :: cs)
  end.

(** [[int(tmp["authorId"]) for tmp in items if tmp["authorId"] is not None]]
    (lines 126 and 129). *)
Fixpoint author_ids (items : list json) : Py.result (list Z) :=
  match items with
  | [] => Py.Return []
  | tmp :: rest =>
      a <- Py.getitem tmp "authorId" ;;
      if is_None a then author_ids rest
      else
        z <- author_id tmp ;;
        zs <- author_ids rest ;;
        Py.Return (z :: zs)
  end.

(** [[... for ref in refs for author in ref["authors"] if ...]] (line 129). *)
Fixpoint cited_ids (refs : list json) : Py.result (list Z) :=
  match refs with
  | [] => Py.Return []
  | ref :: rest =>
      a <- Py.getitem ref "authors" ;;
      authors <- Py.iter a ;;
      zs <- author_ids authors ;;
      zs' <- cited_ids rest ;;
      Py.Return (zs ++ zs')
  end.

Definition int_list (zs : list Z) : json := JArr (map JNum zs).

(** Lines 122-132. *)
Definition process_paper_response (j : json) : Py.result json :=
  year <- Py.getitem j "year" ;;
  if is_None year then Py.Return JNull
  else
    fos <- Py.getitem j "s2FieldsOfStudy" ;;
    items <- Py.iter fos ;;
    cats <- categories items ;;
    cats <- Py.list_set cats ;;
    j <- Py.setitem j "s2FieldsOfStudy" (JArr cats) ;;
    authors <- Py.getitem j "authors" ;;
    items <- Py.iter authors ;;
    zs <- author_ids items ;;
    j <- Py.setitem j "authors" (int_list (Py.list_set_int zs)) ;;
    citations <- Py.getitem j "citations" ;;
    year <- Py.getitem j "year" ;;
    paper_year <- int year ;;
    citing <- get_citing_authors citations paper_year CITATION_YEARS ;;
    j <- Py.setitem j "citing_authors" (int_list citing) ;;
    j <- Py.delitem j "citations" ;;
    refs <- Py.getitem j "references" ;;
    refs <- Py.iter refs ;;
    zs <- cited_ids refs ;;
    j <- Py.setitem j "cited_authors" (int_list (Py.list_set_int zs)) ;;
    j <- Py.delitem j "references" ;;
    j <- Py.delitem j "paperId" ;;
    Py.Return j.

(** Lines 156-163, the list comprehension over [j["papers"]]. *)
Fixpoint author_papers (papers : list json) : Py.result (list json) :=
  match papers with
  | [] => Py.Return []
  | paper :: rest =>
      y <- Py.getitem paper "year" ;;
      if is_None y then author_papers rest
      else
        year <- Py.getitem paper "year" ;;
        fos <- Py.getitem paper "fieldsOfStudy" ;;
        s2 <- Py.getitem paper "s2FieldsOfStudy" ;;
        items <- Py.iter s2 ;;
        cats <- categories items ;;
        cats <- Py.list_set cats ;;
        out <- author_papers rest ;;
        Py.Return (JObj [("year", year); ("fieldsOfStudy", fos);
                         ("s2FieldsOfStudy", JArr cats)] :: out)
  end.

(** Lines 155-166. *)
Definition process_author_response (j : json) : Py.result json :=
  papers <- Py.getitem j "papers" ;;
  papers <- Py.iter papers ;;
  out <- author_papers papers ;;
  Py.Return (JObj [("papers", JArr out)]).

(** Lines 149-152 for one paper: every citing author goes into the set. *)
Definition add_citing (paper : json) (citing_authors : list json)
  : Py.result (list json) :=
  c <- Py.getitem paper "citing_authors" ;;
  items <- Py.iter c ;;
  if forallb Py.hashable items
  then Py.Return (fold_left (fun s x => Py.add x s) items citing_authors)
  else Py.Raise Py.TypeError.

(** Lines 149-152: [list(citing_authors)] over [papers.values()]. *)
Fixpoint citing_authors_of (values : list json) (citing_authors : list json)
  : Py.result (list json) :=
  match values with
  | [] => Py.Return citing_authors
  | paper :: rest =>
      s <- add_citing paper citing_authors ;;
      citing_authors_of rest s
  end.

End Transforms.

(** What [batch_query] gets as [process_response_f]: an exception of the
    transform leaves [batch_query]. *)
Definition as_transform (f : json -> Py.result json) (entry : json) : option json :=
  match f entry with
  | Py.Return v => Some v
  | Py.Raise _ => None
  end.

(** Line 137. *)
Definition arxiv_query_ids (ids : list string) : list Identifier :=
  map (fun id => IdS ("ARXIV:" ++ id)) ids.

(** Lines 120 and 135-142, on the [id] column of [kaggle_data] as line 119
    leaves it (filtered by year and shuffled). *)
Definition prepare_papers_data (int_of_str : string -> option Z) (ids : list string)
           (papers_json : option document) (responses : list Response)
  : status * state :=
  batch_query (as_transform (process_paper_response int_of_str)) 20
    "year,referenceCount,isOpenAccess,fieldsOfStudy,s2FieldsOfStudy,publicationTypes,authors,citations.year,citations.authors,references.authors"
    "https://api.semanticscholar.org/graph/v1/paper/batch"
    papers_json (arxiv_query_ids (firstn 20 ids)) responses.

(** Lines 146-152: the ids the author stage asks for, from [papers.json]. *)
Definition author_query_ids (papers_json : document) : Py.result (list json) :=
  citing_authors_of (map snd (json_load papers_json)) [].

(** The ids [batch_query] is modelled for: ints and strs. *)
Definition as_identifier (j : json) : option Identifier :=
  match j with
  | JNum z => Some (IdI z)
  | JStr s => Some (IdS s)
  | _ => None
  end.

Fixpoint identifiers (l : list json) : option (list Identifier) :=
  match l with
  | [] => Some []
  | j :: rest =>
      match as_identifier j, identifiers rest with
      | Some id, Some ids => Some (id :: ids)
      | _, _ => None
      end
  end.

(** Lines 145-176.  [Py.Return None] stands for a run whose ids include a
    null or a boolean, which the model of [batch_query] leaves out. *)
Definition prepare_authors_data (papers_json : document)
           (authors_json : option document) (responses : list Response)
  : Py.result (option (status * state)) :=
  ids <- author_query_ids papers_json ;;
  Py.Return
    (option_map
       (fun ids =>
          batch_query (as_transform process_author_response) 100
            "papers.year,papers.fieldsOfStudy,papers.s2FieldsOfStudy"
            "https://api.semanticscholar.org/graph/v1/author/batch"
            authors_json ids responses)
       (identifiers ids)).

(** ** Sample inputs *)

(** A transform that stores the entry as it came. *)
Definition keep_entry (j : json) : option json := Some j.

(** The record [{"y": n}] of the end-to-end scenario. *)
Definition year (n : Z) : json := JObj [("y", JNum n)].

(** Its text, the double quote given by its code. *)
Definition year_text (digits : string) : string :=
  let dq := String (ascii_of_nat 34) EmptyString in
  "{" ++ dq ++ "y" ++ dq ++ ": " ++ digits ++ "}".

(** A 200 response whose body is a JSON array; the code reads only the
    parsed body of such a response. *)
Definition answer (body_text : string) (entries : list json) : Response :=
  mkResponse 200 body_text (Some (JArr entries)).

(** The throttling answer of the remote API. *)
Definition too_many_requests : Response :=
  mkResponse 429 "Too Many Requests" None.

(** A gateway page: not JSON, no error marker. *)
Definition service_unavailable : Response :=
  mkResponse 503 "Service Unavailable" None.

(** A refusal carrying the error marker. *)
Definition bad_request : Response :=
  mkResponse 400 "error: unsupported field" None.

(** A reading of numerals for the sample records: the value of a string of
    one to nine ASCII digits, and [None] on every other string. *)
Definition digits_int (s : string) : option Z :=
  let cs := list_ascii_of_string s in
  if forallb (fun c => (48 <=? nat_of_ascii c)%nat && (nat_of_ascii c <=? 57)%nat) cs
     && (1 <=? length cs)%nat && (length cs <=? 9)%nat
  then option_map Z.of_uint (NilZero.uint_of_string s)
  else None.

(** The author [{"authorId": id}]. *)
Definition author (id : json) : json := JObj [("authorId", id)].

(** The citation [{"year": y, "authors": [...]}]. *)
Definition citation (y : json) (authors : list json) : json :=
  JObj [("year", y); ("authors", JArr authors)].

(** A paper of 2015 as the service answers it: a second author without id;
    one citation of 2016 whose second author has no id, one of 2018, one
    without year; one reference. *)
Definition sample_paper_members : list (string * json) :=
  [("paperId", JStr "p1");
   ("year", JNum 2015);
   ("s2FieldsOfStudy",
    JArr [JObj [("category", JStr "Computer Science")];
          JObj [("category", JNull)];
          JObj [("category", JStr "Computer Science")]]);
   ("authors", JArr [author (JStr "1"); author JNull; author (JStr "2")]);
   ("citations",
    JArr [citation (JNum 2016) [author (JStr "3"); author JNull; author (JStr "4")];
          citation (JNum 2018) [author (JStr "5")];
          citation JNull [author (JStr "6")]]);
   ("references", JArr [JObj [("authors", JArr [author (JStr "7"); author JNull])]])].

Definition sample_paper : json := JObj sample_paper_members.

(** What [process_paper_response] makes of it. *)
Definition sample_record_members : list (string * json) :=
  [("year", JNum 2015);
   ("s2FieldsOfStudy", JArr [JStr "Computer Science"]);
   ("authors", JArr [JNum 1; JNum 2]);
   ("citing_authors", JArr [JNum 3]);
   ("cited_authors", JArr [JNum 7])].

(** An author as the service answers it: one paper with a year, one without. *)
Definition sample_author : json :=
  JObj [("papers",
         JArr [JObj [("year", JNum 2015); ("fieldsOfStudy", JNull);
                     ("s2FieldsOfStudy", JArr [JObj [("category", JStr "Physics")]])];
               JObj [("year", JNull); ("fieldsOfStudy", JNull);
                     ("s2FieldsOfStudy", JArr [])]])].

(** * Properties *)

(** ** Lists *)

Lemma in_firstn {A : Type} (n : nat) (l : list A) (x : A) :
  In x (firstn n l) -> In x l.
Proof.
  intros H. rewrite <- (firstn_skipn n l). apply in_or_app. now left.
Qed.

Lemma in_skipn {A : Type} (n : nat) (l : list A) (x : A) :
  In x (skipn n l) -> In x l.
Proof.
  intros H. rewrite <- (firstn_skipn n l). apply in_or_app. now right.
Qed.

Lemma NoDup_app_disjoint {A : Type} (a b : list A) (x : A) :
  NoDup (a ++ b) -> In x a -> ~ In x b.
Proof.
  induction a as [|y a IH]; simpl; intros ND Ha Hb; [contradiction|].
  inversion ND as [|? ? Hy ND']; subst.
  destruct Ha as [->|Ha].
  - apply Hy. apply in_or_app. now right.
  - now apply (IH ND' Ha).
Qed.

Lemma NoDup_skipn {A : Type} (n : nat) (l : list A) : NoDup l -> NoDup (skipn n l).
Proof.
  intros ND. rewrite <- (firstn_skipn n l) in ND.
  now apply NoDup_app_remove_l in ND.
Qed.

Lemma NoDup_map_inj {A B : Type} (g : A -> B) (l : list A) :
  (forall a b, g a = g b -> a = b) -> NoDup l -> NoDup (map g l).
Proof.
  intros Hinj. induction 1 as [|x l Hx ND IH]; simpl; constructor; [|exact IH].
  intros Hin. apply in_map_iff in Hin. destruct Hin as (y & E & Hy).
  apply Hinj in E. now subst.
Qed.

Lemma NoDup_map_inv {A B : Type} (g : A -> B) (l : list A) :
  NoDup (map g l) -> NoDup l.
Proof.
  induction l as [|x l IH]; simpl; intros ND; constructor;
    inversion ND as [|? ? Hx ND']; subst.
  - intros Hin. apply Hx. now apply in_map.
  - now apply IH.
Qed.

(** ** Dictionaries *)

Lemma id_eqb_eq (a b : Identifier) : id_eqb a b = true <-> a = b.
Proof.
  destruct a as [s|x], b as [t|y]; simpl; split; intro H;
    try discriminate; try congruence.
  - apply String.eqb_eq in H. now subst.
  - injection H as ->. apply String.eqb_refl.
  - apply Z.eqb_eq in H. now subst.
  - injection H as ->. apply Z.eqb_refl.
Qed.

Lemma id_eqb_refl (a : Identifier) : id_eqb a a = true.
Proof. now apply id_eqb_eq. Qed.

Lemma id_eqb_neq (a b : Identifier) : id_eqb a b = false <-> a <> b.
Proof.
  split; intro H.
  - intros E. apply id_eqb_eq in E. congruence.
  - destruct (id_eqb a b) eqn:E; [|reflexivity].
    apply id_eqb_eq in E. contradiction.
Qed.

Lemma in_keys (d : dict) (k : Identifier) :
  In k (keys d) -> exists v, In (k, v) d.
Proof.
  unfold keys. rewrite in_map_iff. intros ([k' v] & <- & H). now exists v.
Qed.

Lemma contains_key_In (id : Identifier) (d : dict) :
  contains_key id d = true <-> In id (keys d).
Proof.
  induction d as [|[k v] d IH]; simpl.
  - split; [discriminate | contradiction].
  - rewrite orb_true_iff, IH, id_eqb_eq. intuition congruence.
Qed.

Lemma contains_key_false (id : Identifier) (d : dict) :
  contains_key id d = false <-> ~ In id (keys d).
Proof.
  rewrite <- contains_key_In. destruct (contains_key id d); intuition congruence.
Qed.

Lemma keys_set (id k : Identifier) (v : json) (d : dict) :
  In k (keys (set id v d)) <-> k = id \/ In k (keys d).
Proof.
  induction d as [|[k' w] d IH]; simpl.
  - intuition congruence.
  - destruct (id_eqb id k') eqn:E; simpl.
    + apply id_eqb_eq in E. subst. intuition congruence.
    + rewrite IH. intuition.
Qed.

Lemma get_set_same (id : Identifier) (v : json) (d : dict) :
  get id (set id v d) = Some v.
Proof.
  induction d as [|[k w] d IH]; simpl.
  - now rewrite id_eqb_refl.
  - destruct (id_eqb id k) eqn:E; simpl; now rewrite E.
Qed.

Lemma get_set_other (id k : Identifier) (v : json) (d : dict) :
  k <> id -> get k (set id v d) = get k d.
Proof.
  intros N. induction d as [|[k' w] d IH]; simpl.
  - apply id_eqb_neq in N. now rewrite N.
  - destruct (id_eqb id k') eqn:E; simpl.
    + apply id_eqb_eq in E. subst k'. apply id_eqb_neq in N. now rewrite N.
    + now rewrite IH.
Qed.

Lemma get_None (id : Identifier) (d : dict) :
  get id d = None <-> ~ In id (keys d).
Proof.
  induction d as [|[k v] d IH]; simpl.
  - intuition.
  - destruct (id_eqb id k) eqn:E.
    + apply id_eqb_eq in E. subst. split; [discriminate | intuition].
    + apply id_eqb_neq in E. rewrite IH. intuition congruence.
Qed.

Lemma set_fresh (id : Identifier) (v : json) (d : dict) :
  ~ In id (keys d) -> set id v d = d ++ [(id, v)].
Proof.
  induction d as [|[k w] d IH]; simpl; intros N.
  - reflexivity.
  - destruct (id_eqb id k) eqn:E.
    + apply id_eqb_eq in E. subst. intuition.
    + rewrite IH; intuition.
Qed.

(** ** Persistence *)

Lemma load_dump_from (d2 d1 : dict) :
  NoDup (keys d1 ++ map (fun k => IdS (key_name k)) (keys d2)) ->
  fold_left (fun d kv => set (IdS (fst kv)) (snd kv) d) (json_dump d2) d1
  = d1 ++ map rekey d2.
Proof.
  revert d1. induction d2 as [|[k v] d2 IH]; simpl; intros d1 ND.
  - now rewrite app_nil_r.
  - rewrite set_fresh.
    + rewrite IH; [now rewrite <- app_assoc|].
      unfold keys. rewrite map_app, <- app_assoc. exact ND.
    + apply NoDup_remove_2 in ND. intros Hin. apply ND.
      apply in_or_app. now left.
Qed.

Lemma rekey_str (d : dict) : Forall str_key (keys d) -> map rekey d = d.
Proof.
  induction d as [|[k v] d IH]; simpl; intros H; [reflexivity|].
  inversion H as [|? ? Hk H']; subst.
  destruct k as [s|z]; [|contradiction].
  unfold rekey at 1. simpl. now rewrite IH.
Qed.

Lemma rename_str (l : list Identifier) :
  Forall str_key l -> map (fun k => IdS (key_name k)) l = l.
Proof.
  induction l as [|k l IH]; simpl; intros H; [reflexivity|].
  inversion H as [|? ? Hk H']; subst.
  destruct k as [s|z]; [|contradiction]. simpl. now rewrite IH.
Qed.

Lemma keys_json_load_from (doc : document) (d : dict) (k : Identifier) :
  In k (keys (fold_left (fun d kv => set (IdS (fst kv)) (snd kv) d) doc d))
  <-> In k (keys d) \/ exists s, k = IdS s /\ In s (map fst doc).
Proof.
  revert d. induction doc as [|[s v] doc IH]; simpl; intros d.
  - split; [now left | intros [H|[s [_ []]]]; exact H].
  - rewrite IH, keys_set. split.
    + intros [[->|H]|[t [-> H]]]; eauto 6.
    + intros [H|[t [-> [<-|H]]]]; eauto 6.
Qed.

Lemma keys_json_load (doc : document) (k : Identifier) :
  In k (keys (json_load doc)) <-> exists s, k = IdS s /\ In s (map fst doc).
Proof.
  unfold json_load. rewrite keys_json_load_from. simpl. intuition.
Qed.

Lemma names_json_dump (d : dict) : map fst (json_dump d) = map key_name (keys d).
Proof.
  unfold json_dump, keys. rewrite !map_map. reflexivity.
Qed.

Lemma requests_app (a b : list event) : requests (a ++ b) = requests a ++ requests b.
Proof.
  induction a as [|e a IH]; simpl; [reflexivity|].
  destruct e; simpl; now rewrite IH.
Qed.

Lemma calls_app (a b : list event) : calls (a ++ b) = calls a ++ calls b.
Proof.
  induction a as [|e a IH]; simpl; [reflexivity|].
  destruct e; simpl; now rewrite IH.
Qed.

Lemma sleeps_app (a b : list event) : sleeps (a ++ b) = sleeps a ++ sleeps b.
Proof.
  induction a as [|e a IH]; simpl; [reflexivity|].
  destruct e; simpl; now rewrite IH.
Qed.

Lemma dumps_app (a b : list event) : dumps (a ++ b) = dumps a ++ dumps b.
Proof.
  induction a as [|e a IH]; simpl; [reflexivity|].
  destruct e; simpl; now rewrite IH.
Qed.

(** ** The loop, step by step *)

Section LoopFacts.

Variable process_response_f : json -> option json.
Variable batch_size : nat.
Variables query_fields query_url : string.

Local Abbreviation merge := (merge process_response_f).
Local Abbreviation iteration := (iteration process_response_f batch_size query_fields query_url).
Local Abbreviation while := (while process_response_f batch_size query_fields query_url).
Local Abbreviation batch_query := (batch_query process_response_f batch_size query_fields query_url).
Local Abbreviation batch_at := (batch_at batch_size).
Local Abbreviation advance := (advance batch_size).

Lemma merge_app (p1 p2 : list (Identifier * json)) (st : state) :
  merge (p1 ++ p2) st
  = match merge p1 st with
    | (Running, st1) => merge p2 st1
    | halted => halted
    end.
Proof.
  revert st. induction p1 as [|[id e] p1 IH]; simpl; intros st; [reflexivity|].
  destruct (is_None e); [apply IH|].
  destruct (process_response_f e); [apply IH | reflexivity].
Qed.

(** The zip loop touches nothing but [data] and logs only calls. *)
Lemma merge_frame (pairs : list (Identifier * json)) (st : state) s st' :
  merge pairs st = (s, st') ->
  idx st' = idx st /\ delay st' = delay st /\ file st' = file st /\
  exists cs, trace st' = trace st ++ map Call cs.
Proof.
  revert st. induction pairs as [|[id e] pairs IH]; simpl; intros st H.
  - inversion H; subst. repeat split; trivial. exists []. now rewrite app_nil_r.
  - destruct (is_None e).
    + apply IH in H. simpl in H. exact H.
    + destruct (process_response_f e).
      * apply IH in H. simpl in H.
        destruct H as (Hi & Hd & Hf & cs & Ht). repeat split; trivial.
        exists (e :: cs). rewrite Ht, <- app_assoc. reflexivity.
      * inversion H; subst. simpl. repeat split; trivial.
        exists [e]. reflexivity.
Qed.

(** Every entry of the checkpoint after the zip loop was there before or
    belongs to an id of the batch. *)
Lemma merge_data (pairs : list (Identifier * json)) (st : state) s st' :
  merge pairs st = (s, st') ->
  (forall k, In k (keys (data st)) -> In k (keys (data st'))) /\
  (forall k, In k (keys (data st')) -> In k (keys (data st)) \/ In k (map fst pairs)) /\
  (forall k v, In (k, v) (data st') -> In (k, v) (data st) \/ In k (map fst pairs)).
Proof.
  assert (Hset : forall id w d k v,
             In (k, v) (set id w d) -> In (k, v) d \/ k = id).
  { intros id w d k v. induction d as [|[k' w'] d IHd]; simpl.
    - intros [E|[]]. right. congruence.
    - destruct (id_eqb id k') eqn:E; simpl.
      + apply id_eqb_eq in E. subst k'. intros [E'|H]; [right; congruence | auto].
      + intros [E'|H]; [auto | apply IHd in H; tauto]. }
  revert st. induction pairs as [|[id e] pairs IH]; simpl; intros st H.
  - inversion H; subst. repeat split; auto.
  - assert (Hstep : forall w st1, merge pairs (assign id w st1) = (s, st') ->
               data st1 = data st ->
               (forall k, In k (keys (data st)) -> In k (keys (data st'))) /\
               (forall k, In k (keys (data st')) ->
                          In k (keys (data st)) \/ id = k \/ In k (map fst pairs)) /\
               (forall k v, In (k, v) (data st') ->
                            In (k, v) (data st) \/ id = k \/ In k (map fst pairs))).
    { intros w st1 H1 E. apply IH in H1. simpl in H1. rewrite E in H1.
      destruct H1 as (A & B & C). repeat split.
      - intros k Hk. apply A. apply keys_set. now right.
      - intros k Hk. apply B in Hk. rewrite keys_set in Hk. intuition.
      - intros k v Hk. apply C in Hk. destruct Hk as [Hk|Hk]; [|auto].
        apply Hset in Hk. intuition. }
    destruct (is_None e).
    + apply (Hstep JNull st H eq_refl).
    + destruct (process_response_f e) as [r|].
      * apply (Hstep r _ H eq_refl).
      * inversion H; subst. simpl. repeat split; auto.
Qed.

(** The zip loop, when it runs to its end, calls the transform on the
    non-null entries it was given, in order, and on nothing else. *)
Lemma merge_calls (pairs : list (Identifier * json)) (st : state) st' :
  merge pairs st = (Running, st') ->
  trace st' = trace st ++ map Call (transformed (map snd pairs)).
Proof.
  revert st. induction pairs as [|[id e] pairs IH]; simpl; intros st H.
  - inversion H; subst. now rewrite app_nil_r.
  - destruct (is_None e) eqn:E; simpl.
    + apply IH in H. exact H.
    + destruct (process_response_f e); [|discriminate].
      apply IH in H. simpl in H. rewrite H, <- app_assoc. reflexivity.
Qed.


Section Steps.

Variable filtered_query_ids : list Identifier.

Local Abbreviation F := filtered_query_ids.
Local Abbreviation period := (batch_size * QUERY_DUMP_INTERVAL).

(** Lines 96-104. *)
Lemma advance_spec (st : state) s st' :
  advance st = (s, st') ->
  data st' = data st /\ idx st' = idx st + batch_size /\
  delay st' = on_success (delay st) /\
  ((batch_size = 0 /\ s = Uncaught ZeroDivisionError /\
    file st' = file st /\ trace st' = trace st)
   \/
   (0 < batch_size /\ s = Running /\
    ((idx st' mod period = 0 /\
      file st' = Some (json_dump (data st)) /\
      trace st' = trace st ++ [Dump (json_dump (data st)); Sleep (delay st')])
     \/
     (idx st' mod period <> 0 /\
      file st' = file st /\
      trace st' = trace st ++ [Sleep (delay st')])))).
Proof.
  unfold advance. intros H.
  destruct period as [|n] eqn:E.
  - inversion H; subst; simpl. repeat split; trivial. left.
    unfold QUERY_DUMP_INTERVAL in E. repeat split; trivial. lia.
  - assert (0 < batch_size) by (destruct batch_size; [discriminate | lia]).
    simpl idx in H.
    destruct ((idx st + batch_size) mod S n =? 0)%nat eqn:M;
      inversion H; subst; simpl; repeat split; trivial; right;
      repeat split; trivial.
    + left. apply Nat.eqb_eq in M. repeat split; trivial.
      now rewrite <- app_assoc.
    + right. apply Nat.eqb_neq in M. repeat split; trivial.
Qed.

(** A pass that leaves the loop running is either a throttled pass, which
    changes the delay and nothing else, or an answered one. *)
Lemma iteration_running (r : Response) (st st' : state) :
  iteration F r st = (Running, st') ->
  let post := Post query_url query_fields (batch_at F (idx st)) in
  (status_code r <> 200%Z /\ contains "error" (text r) = false /\
   data st' = data st /\ idx st' = idx st /\ file st' = file st /\
   delay st' = on_throttled (delay st) /\
   trace st' = trace st ++ [post; Sleep (delay st')])
  \/
  (status_code r = 200%Z /\ 0 < batch_size /\
   idx st' = idx st + batch_size /\ delay st' = on_success (delay st) /\
   exists body entries st1,
     parsed r = Some body /\ py_iter body = Some entries /\
     merge (combine (batch_at F (idx st)) entries) (log post st) = (Running, st1) /\
     data st' = data st1 /\
     ((idx st' mod period = 0 /\
       file st' = Some (json_dump (data st')) /\
       trace st' = trace st1 ++ [Dump (json_dump (data st')); Sleep (delay st')])
      \/
      (idx st' mod period <> 0 /\
       file st' = file st /\
       trace st' = trace st1 ++ [Sleep (delay st')]))).
Proof.
  intros H post. unfold iteration in H.
  destruct (status_code r =? 200)%Z eqn:Hs; simpl in H.
  - right. apply Z.eqb_eq in Hs.
    destruct (parsed r) as [body|] eqn:Hp; [|discriminate].
    destruct (py_iter body) as [entries|] eqn:Hit; [|discriminate].
    destruct (merge _ _) as [s1 st1] eqn:Hm.
    destruct s1; try discriminate.
    pose proof (merge_frame _ _ Hm) as (Hi & Hd & Hf & _). simpl in Hi, Hd, Hf.
    apply advance_spec in H.
    destruct H as (Hdata & Hidx & Hdel & [(_ & Hbad & _)|(Hb & _ & Hdump)]);
      [discriminate|].
    rewrite Hi in Hidx. rewrite Hd in Hdel.
    repeat split; trivial.
    exists body, entries, st1. repeat split; trivial.
    rewrite Hdata. rewrite Hf in Hdump. exact Hdump.
  - left. apply Z.eqb_neq in Hs.
    destruct (contains "error" (text r)); [discriminate|].
    destruct (contains "Too Many Requests" (text r)); simpl in H.
    + inversion H; subst; simpl. repeat split; trivial.
      now rewrite <- app_assoc.
    + destruct (parsed r); [|discriminate].
      inversion H; subst; simpl. repeat split; trivial.
      now rewrite <- app_assoc.
Qed.

(** Whatever the outcome of a pass: one request, for the batch at [idx];
    the pointer stays or moves on by [batch_size]; entries of the
    checkpoint are old or belong to the batch; the file is the old one or
    the checkpoint just written. *)
Lemma iteration_any (r : Response) (st : state) s st' :
  iteration F r st = (s, st') ->
  requests (trace st') = requests (trace st) ++ [batch_at F (idx st)] /\
  (idx st' = idx st \/ (s = Running /\ 0 < batch_size /\ idx st' = idx st + batch_size)) /\
  (forall k, In k (keys (data st)) -> In k (keys (data st'))) /\
  (forall k v, In (k, v) (data st') ->
               In (k, v) (data st) \/ In k (batch_at F (idx st))) /\
  (file st' = file st \/
   (file st' = Some (json_dump (data st')) /\ idx st' mod period = 0)).
Proof.
  intros H.
  assert (Hreq : forall tr cs, requests (tr ++ map Call cs) = requests tr).
  { intros tr cs. rewrite requests_app.
    replace (requests (map Call cs)) with (@nil (list Identifier));
      [apply app_nil_r | induction cs; simpl; trivial]. }
  destruct s.
  - apply iteration_running in H. simpl in H.
    destruct H as [(_ & _ & Hd & Hi & Hf & _ & Ht)
                  |(_ & Hb & Hi & _ & body & entries & st1 & _ & _ & Hm & Hd & Hdump)].
    + rewrite Hd, Hi, Hf, Ht, requests_app. simpl. repeat split; auto.
    + pose proof (merge_frame _ _ Hm) as (_ & _ & _ & cs & Ht).
      pose proof (merge_data _ _ Hm) as (Hk & _ & He). simpl in Hk, He, Ht.
      repeat split.
      * assert (requests (trace st1) = requests (trace st) ++ [batch_at F (idx st)]) as R.
        { rewrite Ht, Hreq, requests_app. reflexivity. }
        destruct Hdump as [(_ & _ & T)|(_ & _ & T)];
          rewrite T, requests_app, R; simpl; apply app_nil_r.
      * right. auto.
      * intros k Hin. unfold keys. rewrite Hd. now apply Hk.
      * intros k v Hin. rewrite Hd in Hin. apply He in Hin.
        destruct Hin as [Hin|Hin]; [now left | right].
        rewrite in_map_iff in Hin. destruct Hin as ([k' e] & <- & Hin).
        now apply in_combine_l in Hin.
      * destruct Hdump as [(M & Hf & _)|(_ & Hf & _)]; auto.
  - (* Returned is not an outcome of a pass *)
    unfold iteration in H.
    destruct (status_code r =? 200)%Z; simpl in H.
    + destruct (parsed r) as [body|]; [|discriminate].
      destruct (py_iter body); [|discriminate].
      destruct (merge _ _) as [s1 st1] eqn:Hm.
      assert (s1 <> Returned).
      { clear H. revert Hm. generalize (log (Post query_url query_fields (batch_at F (idx st))) st).
        induction (combine (batch_at F (idx st)) l) as [|[id e] ps IH]; simpl; intros st0 Hm.
        - inversion Hm. discriminate.
        - destruct (is_None e); [now apply IH in Hm|].
          destruct (process_response_f e); [now apply IH in Hm|].
          inversion Hm. discriminate. }
      destruct s1; try congruence.
      apply advance_spec in H. destruct H as (_ & _ & _ & [(_ & ? & _)|(_ & ? & _)]); discriminate.
    + destruct (contains "error" (text r)); [discriminate|].
      destruct (negb (contains "Too Many Requests" (text r))); [|discriminate].
      destruct (parsed r); discriminate.
  - (* sys.exit(1) *)
    unfold iteration in H.
    destruct (status_code r =? 200)%Z; simpl in H.
    + destruct (parsed r) as [body|]; [|discriminate].
      destruct (py_iter body); [|discriminate].
      destruct (merge _ _) as [s1 st1] eqn:Hm.
      pose proof (merge_frame _ _ Hm) as (Hi & _ & Hf & cs & Ht).
      pose proof (merge_data _ _ Hm) as (Hk & _ & He). simpl in Hi, Hf, Hk, He, Ht.
      destruct s1.
      * apply advance_spec in H. destruct H as (_ & _ & _ & [(_ & ? & _)|(_ & ? & _)]); discriminate.
      * discriminate.
      * inversion H; subst. rewrite Ht, Hreq, requests_app. repeat split; auto.
        intros k v Hin. apply He in Hin. destruct Hin as [Hin|Hin]; [now left | right].
        rewrite in_map_iff in Hin. destruct Hin as ([k' e] & <- & Hin).
        now apply in_combine_l in Hin.
      * discriminate.
    + destruct (contains "error" (text r)).
      * inversion H; subst; simpl. rewrite requests_app. repeat split; auto.
      * destruct (negb (contains "Too Many Requests" (text r))); [|discriminate].
        destruct (parsed r); discriminate.
  - (* an exception *)
    unfold iteration in H.
    destruct (status_code r =? 200)%Z; simpl in H.
    + destruct (parsed r) as [body|].
      2:{ inversion H; subst; simpl. rewrite requests_app. repeat split; auto. }
      destruct (py_iter body).
      2:{ inversion H; subst; simpl. rewrite requests_app. repeat split; auto. }
      destruct (merge _ _) as [s1 st1] eqn:Hm.
      pose proof (merge_frame _ _ Hm) as (Hi & _ & Hf & cs & Ht).
      pose proof (merge_data _ _ Hm) as (Hk & _ & He). simpl in Hi, Hf, Hk, He, Ht.
      assert (Hb : forall k v, In (k, v) (data st1) ->
                     In (k, v) (data st) \/ In k (batch_at F (idx st))).
      { intros k v Hin. apply He in Hin. destruct Hin as [Hin|Hin]; [now left | right].
        rewrite in_map_iff in Hin. destruct Hin as ([k' e'] & <- & Hin).
        now apply in_combine_l in Hin. }
      destruct s1.
      * apply advance_spec in H.
        destruct H as (Hd & Hix & _ & [(Hz & _ & Hf' & Ht')|(_ & ? & _)]); [|discriminate].
        rewrite Hd, Hf', Ht', Ht, Hreq, requests_app, Hf.
        split; [reflexivity|]. split; [left; lia|]. repeat split; auto.
      * discriminate.
      * discriminate.
      * inversion H; subst. rewrite Ht, Hreq, requests_app. repeat split; auto.
    + destruct (contains "error" (text r)); [discriminate|].
      destruct (negb (contains "Too Many Requests" (text r))); [|discriminate].
      destruct (parsed r); [discriminate|].
      inversion H; subst; simpl. rewrite requests_app. repeat split; auto.
Qed.


Lemma merge_status (pairs : list (Identifier * json)) (st : state) s st' :
  merge pairs st = (s, st') -> s = Running \/ s = Uncaught TransformError.
Proof.
  revert st. induction pairs as [|[id e] pairs IH]; simpl; intros st H.
  - inversion H. now left.
  - destruct (is_None e); [now apply IH in H|].
    destruct (process_response_f e); [now apply IH in H|].
    inversion H. now right.
Qed.

Lemma dumps_calls (tr : list event) (cs : list json) :
  dumps (tr ++ map Call cs) = dumps tr.
Proof.
  rewrite dumps_app.
  replace (dumps (map Call cs)) with (@nil document);
    [apply app_nil_r | induction cs; simpl; trivial].
Qed.

(** A pass writes the file at most once, and only on reaching a multiple of
    the period after a 200 response. *)
Lemma iteration_dumps (r : Response) (st : state) s st' :
  iteration F r st = (s, st') ->
  (file st' = file st /\ dumps (trace st') = dumps (trace st))
  \/
  (s = Running /\ status_code r = 200%Z /\ idx st' mod period = 0 /\
   file st' = Some (json_dump (data st')) /\
   dumps (trace st') = dumps (trace st) ++ [json_dump (data st')]).
Proof.
  intros H. destruct s.
  - apply iteration_running in H. simpl in H.
    destruct H as [(_ & _ & _ & _ & Hf & _ & Ht)
                  |(Hs & _ & _ & _ & body & entries & st1 & _ & _ & Hm & _ & Hdump)].
    + left. rewrite Ht, dumps_app. simpl. rewrite app_nil_r. auto.
    + pose proof (merge_frame _ _ Hm) as (_ & _ & _ & cs & Ht). simpl in Ht.
      assert (D : dumps (trace st1) = dumps (trace st)).
      { rewrite Ht, dumps_calls, dumps_app. simpl. apply app_nil_r. }
      destruct Hdump as [(M & Hf & T)|(_ & Hf & T)].
      * right. rewrite T, dumps_app, D. simpl. auto.
      * left. rewrite T, dumps_app, D. simpl. rewrite app_nil_r. auto.
  - left. unfold iteration in H.
    destruct (status_code r =? 200)%Z; simpl in H.
    + destruct (parsed r) as [body|]; [|discriminate].
      destruct (py_iter body); [|discriminate].
      destruct (merge _ _) as [s1 st1] eqn:Hm.
      destruct (merge_status _ _ Hm) as [-> | ->]; [|discriminate].
      apply advance_spec in H.
      destruct H as (_ & _ & _ & [(_ & ? & _)|(_ & ? & _)]); discriminate.
    + destruct (contains "error" (text r)); [discriminate|].
      destruct (negb (contains "Too Many Requests" (text r))); [|discriminate].
      destruct (parsed r); discriminate.
  - left. unfold iteration in H.
    destruct (status_code r =? 200)%Z; simpl in H.
    + destruct (parsed r) as [body|]; [|discriminate].
      destruct (py_iter body); [|discriminate].
      destruct (merge _ _) as [s1 st1] eqn:Hm.
      destruct (merge_status _ _ Hm) as [-> | ->]; [|discriminate].
      apply advance_spec in H.
      destruct H as (_ & _ & _ & [(_ & ? & _)|(_ & ? & _)]); discriminate.
    + destruct (contains "error" (text r)).
      * inversion H; subst; simpl. rewrite dumps_app. simpl.
        rewrite app_nil_r. auto.
      * destruct (negb (contains "Too Many Requests" (text r))); [|discriminate].
        destruct (parsed r); discriminate.
  - left. unfold iteration in H.
    assert (P0 : dumps (trace st ++ [Post query_url query_fields (batch_at F (idx st))])
                 = dumps (trace st)).
    { rewrite dumps_app. simpl. apply app_nil_r. }
    destruct (status_code r =? 200)%Z; simpl in H.
    + destruct (parsed r) as [body|]; [|inversion H; subst; simpl; auto].
      destruct (py_iter body); [|inversion H; subst; simpl; auto].
      destruct (merge _ _) as [s1 st1] eqn:Hm.
      pose proof (merge_frame _ _ Hm) as (_ & _ & Hf & cs & Ht). simpl in Hf, Ht.
      destruct (merge_status _ _ Hm) as [-> | ->].
      * apply advance_spec in H.
        destruct H as (_ & _ & _ & [(_ & _ & Hf' & Ht')|(_ & ? & _)]); [|discriminate].
        rewrite Hf', Ht', Hf, Ht, dumps_calls, P0. auto.
      * inversion H; subst. rewrite Hf, Ht, dumps_calls, P0. auto.
    + destruct (contains "error" (text r)); [discriminate|].
      destruct (negb (contains "Too Many Requests" (text r))); [|discriminate].
      destruct (parsed r); [discriminate|].
      inversion H; subst; simpl. auto.
Qed.

(** ** The loop as a whole *)

(** Feeding more responses continues the run where it stood. *)
Lemma while_app (rs1 rs2 : list Response) (st : state) :
  while F (rs1 ++ rs2) st
  = match while F rs1 st with
    | (Running, st1) => while F rs2 st1
    | halted => halted
    end.
Proof.
  revert st. induction rs1 as [|r rs1 IH]; intros st.
  - simpl app. unfold while at 2.
    destruct (idx st <? length F)%nat eqn:L; [reflexivity|].
    destruct rs2; simpl; now rewrite L.
  - simpl. destruct (idx st <? length F)%nat; [|reflexivity].
    destruct (iteration F r st) as [s st1]. destruct s; trivial.
Qed.

(** The run is waiting for a response only while ids remain. *)
Lemma while_running (rs : list Response) (st st' : state) :
  while F rs st = (Running, st') -> idx st' < length F.
Proof.
  revert st. induction rs as [|r rs IH]; simpl; intros st H.
  - destruct (idx st <? length F)%nat eqn:L; [|discriminate].
    inversion H; subst. now apply Nat.ltb_lt.
  - destruct (idx st <? length F)%nat; [|discriminate].
    destruct (iteration F r st) as [s st1]. destruct s; try discriminate.
    now apply IH in H.
Qed.

(** Induction over the passes of a run: [P] is kept by every pass that
    leaves the loop running, and [Q] holds of whatever the run ends with. *)
Lemma while_inv (P : state -> Prop) (Q : status -> state -> Prop) :
  (forall r st st', P st -> idx st < length F ->
                    iteration F r st = (Running, st') -> P st') ->
  (forall r st s st', P st -> idx st < length F ->
                      iteration F r st = (s, st') -> s <> Running -> Q s st') ->
  (forall st, P st -> idx st < length F -> Q Running st) ->
  (forall st, P st -> length F <= idx st -> Q Returned (dump st)) ->
  forall rs st s st', P st -> while F rs st = (s, st') -> Q s st'.
Proof.
  intros Hstep Hhalt Hwait Hdone rs.
  induction rs as [|r rs IH]; simpl; intros st s st' HP H.
  - destruct (idx st <? length F)%nat eqn:L; inversion H; subst.
    + apply Hwait; [assumption | now apply Nat.ltb_lt].
    + apply Hdone; [assumption | now apply Nat.ltb_ge].
  - destruct (idx st <? length F)%nat eqn:L.
    + apply Nat.ltb_lt in L.
      destruct (iteration F r st) as [s1 st1] eqn:Hit.
      destruct s1; try (inversion H; subst; eapply Hhalt; eauto; discriminate).
      eapply IH; [|exact H]. eapply Hstep; eauto.
    + inversion H; subst. apply Hdone; [assumption | now apply Nat.ltb_ge].
Qed.

(** The requests a run adds are batches at or after the pointer it started
    from. *)
Lemma while_requests (rs : list Response) (st : state) s st' :
  while F rs st = (s, st') ->
  exists later,
    requests (trace st') = requests (trace st) ++ later /\
    Forall (fun b => exists i, idx st <= i /\ b = batch_at F i) later.
Proof.
  revert st. induction rs as [|r rs IH]; simpl; intros st H.
  - exists []. rewrite app_nil_r. split; [|constructor].
    destruct (idx st <? length F)%nat; inversion H; subst; simpl; trivial.
    rewrite requests_app. simpl. apply app_nil_r.
  - destruct (idx st <? length F)%nat.
    2:{ exists []. rewrite app_nil_r. split; [|constructor].
        inversion H; subst; simpl. rewrite requests_app. simpl. apply app_nil_r. }
    destruct (iteration F r st) as [s1 st1] eqn:Hit.
    pose proof (iteration_any _ _ Hit) as (Hr & Hi & _).
    destruct s1.
    + apply IH in H. destruct H as (later & Hl & Hall).
      exists (batch_at F (idx st) :: later). split.
      * rewrite Hl, Hr, <- app_assoc. reflexivity.
      * constructor; [exists (idx st); split; [lia | reflexivity]|].
        eapply Forall_impl; [|exact Hall]. simpl.
        intros b (i & Hle & ->). exists i. split; [|reflexivity].
        destruct Hi as [Hi|(_ & _ & Hi)]; lia.
    + inversion H; subst. exists [batch_at F (idx st)]. split; [exact Hr|].
      constructor; [|constructor]. exists (idx st). split; [lia | reflexivity].
    + inversion H; subst. exists [batch_at F (idx st)]. split; [exact Hr|].
      constructor; [|constructor]. exists (idx st). split; [lia | reflexivity].
    + inversion H; subst. exists [batch_at F (idx st)]. split; [exact Hr|].
      constructor; [|constructor]. exists (idx st). split; [lia | reflexivity].
Qed.

Lemma batch_at_incl (i j : nat) : i <= j -> incl (batch_at F j) (skipn i F).
Proof.
  intros Hle x Hx. unfold batch_at in Hx. apply in_firstn in Hx.
  replace j with ((j - i) + i) in Hx by lia.
  rewrite <- skipn_skipn in Hx. now apply in_skipn in Hx.
Qed.

End Steps.

End LoopFacts.

(** ** The work-set (line 64) *)

Lemma filter_ids_In (ids : list Identifier) (d : dict) (id : Identifier) :
  In id (filter_ids ids d) <-> In id ids /\ ~ In id (keys d).
Proof.
  unfold filter_ids. rewrite filter_In, negb_true_iff, contains_key_false.
  reflexivity.
Qed.

Lemma filter_ids_NoDup (ids : list Identifier) (d : dict) :
  NoDup ids -> NoDup (filter_ids ids d).
Proof. apply NoDup_filter. Qed.





(** ** Saving and loading the checkpoint *)

(** C9. For a checkpoint as a Python dict holds it (pairwise distinct
    keys): when all keys are strings, loading what was saved gives the
    checkpoint back; in general the loaded keys are the names the saved keys
    were written under, all of them strings, so a checkpoint that has an
    integer key comes back with the numeral as key, without the integer
    key, and differs from what was saved. *)
Theorem save_load (d : dict) :
  NoDup (keys d) ->
  (Forall str_key (keys d) -> load (Some (json_dump d)) = d) /\
  (forall k, In k (keys (load (Some (json_dump d))))
             <-> exists k', In k' (keys d) /\ k = IdS (key_name k')) /\
  (NoDup (map key_name (keys d)) -> load (Some (json_dump d)) = map rekey d) /\
  (forall z, In (IdI z) (keys d) ->
             In (IdS (str_int z)) (keys (load (Some (json_dump d)))) /\
             get (IdI z) (load (Some (json_dump d))) = None /\
             get (IdI z) d <> None /\
             load (Some (json_dump d)) <> d).
Proof.
  intros ND. simpl load.
  assert (Hkeys : forall k, In k (keys (json_load (json_dump d)))
                            <-> exists k', In k' (keys d) /\ k = IdS (key_name k')).
  { intros k. rewrite keys_json_load, names_json_dump. split.
    - intros (s & -> & Hin). apply in_map_iff in Hin.
      destruct Hin as (k' & <- & Hin). eauto.
    - intros (k' & Hin & ->). eexists. split; [reflexivity|].
      now apply in_map. }
  assert (Hint : forall z, ~ In (IdI z) (keys (json_load (json_dump d)))).
  { intros z Hin. apply Hkeys in Hin. destruct Hin as (k' & _ & ?). discriminate. }
  split; [|split; [exact Hkeys|split]].
  - intros Hs. unfold json_load. rewrite load_dump_from.
    + simpl. now apply rekey_str.
    + simpl. now rewrite rename_str.
  - intros NDn. unfold json_load. rewrite load_dump_from; [reflexivity|].
    simpl. rewrite <- (map_map key_name IdS).
    apply NoDup_map_inj; [|exact NDn].
    intros a b E. now injection E.
  - intros z Hz. repeat split.
    + apply Hkeys. exists (IdI z). auto.
    + apply get_None. apply Hint.
    + intros E. apply get_None in E. contradiction.
    + intros E. apply (Hint z). now rewrite E.
Qed.

(** [save_load] at a checkpoint with string keys and at one with an integer
    key. *)
Lemma save_load_witness :
  load (Some (json_dump [(IdS "ARXIV:1"%string, JNull); (IdS "ARXIV:2"%string, JNum 3)]))
  = [(IdS "ARXIV:1"%string, JNull); (IdS "ARXIV:2"%string, JNum 3)]
  /\ load (Some (json_dump [(IdI 7, JNull)])) <> [(IdI 7, JNull)].
Proof.
  split.
  - refine (proj1 (save_load _ _) _).
    + repeat constructor; simpl; intuition discriminate.
    + repeat constructor.
  - refine (proj2 (proj2 (proj2 (proj2 (proj2 (proj2 (save_load _ _))) 7%Z _)))).
    + repeat constructor; simpl; intuition discriminate.
    + simpl. now left.
Defined.

(** ** Runs of [batch_query] *)

Section Runs.

Variable process_response_f : json -> option json.
Variable batch_size : nat.
Variables query_fields query_url : string.

Local Abbreviation merge := (merge process_response_f).
Local Abbreviation stored := (stored process_response_f).
Local Abbreviation iteration := (iteration process_response_f batch_size query_fields query_url).
Local Abbreviation while := (while process_response_f batch_size query_fields query_url).
Local Abbreviation batch_query := (batch_query process_response_f batch_size query_fields query_url).
Local Abbreviation batch_at := (batch_at batch_size).
Local Abbreviation advance := (advance batch_size).
Local Abbreviation period := (batch_size * QUERY_DUMP_INTERVAL).

(** A prefix of the responses leaves the run where the rest picks it up. *)
Lemma batch_query_app f ids (rs1 rs2 : list Response) (st1 : state) :
  batch_query f ids rs1 = (Running, st1) ->
  batch_query f ids (rs1 ++ rs2) = while (filter_ids ids (load f)) rs2 st1.
Proof.
  unfold batch_query. simpl. intros H. now rewrite while_app, H.
Qed.

(** The file holds what the last dump of the run wrote, and what was there
    before the run when nothing was dumped yet. *)
Lemma file_last_dump f ids (rs : list Response) s st :
  batch_query f ids rs = (s, st) ->
  file st = last (map Some (dumps (trace st))) f.
Proof.
  unfold batch_query. simpl.
  apply while_inv with
    (P := fun st => file st = last (map Some (dumps (trace st))) f)
    (Q := fun _ st => file st = last (map Some (dumps (trace st))) f);
    try reflexivity; auto.
  - intros r st0 st' HP _ Hit. apply iteration_dumps in Hit.
    destruct Hit as [(Hf & Hd)|(_ & _ & _ & Hf & Hd)].
    + now rewrite Hf, Hd.
    + rewrite Hf, Hd, map_app. simpl. now rewrite last_last.
  - intros r st0 s0 st' HP _ Hit _. apply iteration_dumps in Hit.
    destruct Hit as [(Hf & Hd)|(_ & _ & _ & Hf & Hd)].
    + now rewrite Hf, Hd.
    + rewrite Hf, Hd, map_app. simpl. now rewrite last_last.
  - intros st0 _ _. simpl. rewrite dumps_app, map_app. simpl. now rewrite last_last.
Qed.

Section Pass.

Variable filtered_query_ids : list Identifier.
Local Abbreviation F := filtered_query_ids.

Lemma merge_get_other (pairs : list (Identifier * json)) (st : state) s st' id :
  merge pairs st = (s, st') -> ~ In id (map fst pairs) ->
  get id (data st') = get id (data st).
Proof.
  revert st. induction pairs as [|[k e] pairs IH]; simpl; intros st H N.
  - now inversion H.
  - assert (k <> id) by intuition. assert (~ In id (map fst pairs)) by intuition.
    destruct (is_None e).
    + rewrite (IH _ H) by assumption. simpl. apply get_set_other. congruence.
    + destruct (process_response_f e).
      * rewrite (IH _ H) by assumption. simpl. apply get_set_other. congruence.
      * now inversion H.
Qed.

(** One step of the zip loop. *)
Lemma merge_one (id : Identifier) (entry : json) (st : state) :
  (entry = JNull -> merge [(id, entry)] st = (Running, assign id JNull st)) /\
  (entry <> JNull -> forall v, process_response_f entry = Some v ->
     merge [(id, entry)] st = (Running, assign id v (log (Call entry) st))).
Proof.
  split.
  - intros ->. reflexivity.
  - intros N v Hv. simpl. destruct entry; try contradiction; simpl; now rewrite Hv.
Qed.

(** A pass answered with status 200. *)
Lemma iteration_200 (r : Response) (st : state) body entries :
  status_code r = 200%Z -> parsed r = Some body -> py_iter body = Some entries ->
  iteration F r st
  = match merge (combine (batch_at F (idx st)) entries)
                (log (Post query_url query_fields (batch_at F (idx st))) st) with
    | (Running, st1) => advance st1
    | halted => halted
    end.
Proof.
  intros Hs Hp Hit. unfold iteration. rewrite Hs, Hp, Hit. reflexivity.
Qed.

(** A pass refused with the error marker. *)
Lemma iteration_exit (r : Response) (st : state) :
  status_code r <> 200%Z -> contains "error" (text r) = true ->
  iteration F r st
  = (Exit 1, log (Post query_url query_fields (batch_at F (idx st))) st).
Proof.
  intros Hs He. unfold iteration. apply Z.eqb_neq in Hs. now rewrite Hs, He.
Qed.

(** A throttled pass the code survives: the same state but for the delay,
    one request and one pause. *)
Lemma throttled_pass (r : Response) (st : state) :
  status_code r <> 200%Z -> contains "error" (text r) = false ->
  contains "Too Many Requests" (text r) = true \/ parsed r <> None ->
  iteration F r st
  = (Running,
     sleep (with_delay (on_throttled (delay st))
              (log (Post query_url query_fields (batch_at F (idx st))) st))).
Proof.
  intros Hs He Hb. unfold iteration.
  apply Z.eqb_neq in Hs. rewrite Hs, He. simpl.
  destruct (contains "Too Many Requests" (text r)); simpl; [reflexivity|].
  destruct (parsed r); [reflexivity|]. destruct Hb; congruence.
Qed.

(** C5, amended.  For a batch answered with status 200 the pass runs the zip
    loop over the ids of the batch aligned with the entries of the body, and
    then (when the loop ran to its end) lines 96-104.  When the zip loop
    reaches a pair [(id, entry)]: a null entry stores null for [id] and
    calls nothing; any other entry is handed to the transform, and what the
    transform returns is stored for [id].  Over a whole pass the transform
    is called on the non-null aligned entries in order and on nothing else,
    and an id that does not occur again later in the batch holds the value
    of its entry after the pass. *)
Theorem answered_batch_recorded (r : Response) (st : state) body entries :
  status_code r = 200%Z -> parsed r = Some body -> py_iter body = Some entries ->
  let st0 := log (Post query_url query_fields (batch_at F (idx st))) st in
  let pairs := combine (batch_at F (idx st)) entries in
  iteration F r st
  = match merge pairs st0 with
    | (Running, st1) => advance st1
    | halted => halted
    end
  /\
  (forall before id entry after st1,
      pairs = before ++ (id, entry) :: after ->
      merge before st0 = (Running, st1) ->
      (entry = JNull ->
       exists st2, merge (before ++ [(id, entry)]) st0 = (Running, st2) /\
                   get id (data st2) = Some JNull /\
                   calls (trace st2) = calls (trace st1)) /\
      (entry <> JNull -> forall v, process_response_f entry = Some v ->
       exists st2, merge (before ++ [(id, entry)]) st0 = (Running, st2) /\
                   get id (data st2) = Some v /\
                   calls (trace st2) = calls (trace st1) ++ [entry]))
  /\
  (forall st', iteration F r st = (Running, st') ->
      calls (trace st') = calls (trace st) ++ transformed (map snd pairs) /\
      ~ In JNull (transformed (map snd pairs)) /\
      forall before id entry after,
        pairs = before ++ (id, entry) :: after ->
        ~ In id (map fst after) ->
        exists v, stored entry = Some v /\ get id (data st') = Some v).
Proof.
  intros Hs Hp Hit st0 pairs. split; [|split].
  - now apply iteration_200 with (body := body).
  - intros before id entry after st1 _ Hm. split.
    + intros ->. exists (assign id JNull st1). rewrite merge_app, Hm.
      repeat split. simpl. apply get_set_same.
    + intros N v Hv. exists (assign id v (log (Call entry) st1)).
      rewrite merge_app, Hm. split; [now apply merge_one|]. split.
      * simpl. apply get_set_same.
      * simpl. rewrite calls_app. reflexivity.
  - intros st' H. apply iteration_running in H. simpl in H.
    destruct H
      as [(Hn & _)|(_ & _ & _ & _ & body' & entries' & st1 & Hp' & Hit' & Hm & Hd & Htr)];
      [contradiction|].
    rewrite Hp in Hp'. injection Hp' as <-. rewrite Hit in Hit'. injection Hit' as <-.
    fold st0 pairs in Hm. split; [|split].
    + assert (calls (trace st1) = calls (trace st) ++ transformed (map snd pairs)) as C.
      { apply merge_calls in Hm. rewrite Hm, calls_app. unfold st0. simpl.
        rewrite calls_app. simpl. rewrite app_nil_r. f_equal.
        generalize (transformed (map snd pairs)).
        induction l as [|e l IH]; simpl; [reflexivity | now rewrite IH]. }
      destruct Htr as [(_ & _ & T)|(_ & _ & T)];
        rewrite T, calls_app, C; simpl; apply app_nil_r.
    + unfold transformed. rewrite filter_In. intros (_ & E). discriminate.
    + intros before id entry after E Hlast. rewrite Hd.
      rewrite E, merge_app in Hm.
      destruct (merge before st0) as [s1 st2] eqn:Hb.
      destruct s1; try discriminate.
      simpl in Hm. unfold stored.
      destruct (is_None entry).
      * exists JNull. split; [reflexivity|].
        apply merge_get_other with (id := id) in Hm; [|exact Hlast].
        rewrite Hm. simpl. apply get_set_same.
      * destruct (process_response_f entry) as [v|]; [|discriminate].
        exists v. split; [reflexivity|].
        apply merge_get_other with (id := id) in Hm; [|exact Hlast].
        rewrite Hm. simpl. apply get_set_same.
Qed.

(** A throttled pass the code does not survive: the body is neither the
    throttling text nor JSON, and parsing it for the print of line 85
    raises, after the delay was raised and before the pause. *)
Lemma throttled_pass_raises (r : Response) (st : state) :
  status_code r <> 200%Z -> contains "error" (text r) = false ->
  contains "Too Many Requests" (text r) = false -> parsed r = None ->
  iteration F r st
  = (Uncaught JSONDecodeError,
     with_delay (on_throttled (delay st))
       (log (Post query_url query_fields (batch_at F (idx st))) st)).
Proof.
  intros Hs He Ht Hp. unfold iteration.
  apply Z.eqb_neq in Hs. now rewrite Hs, He, Ht, Hp.
Qed.

(** Unfolding the loop by one pass, and at its end. *)
Lemma while_step (r : Response) (rs : list Response) (st st1 : state) :
  idx st < length F -> iteration F r st = (Running, st1) ->
  while F (r :: rs) st = while F rs st1.
Proof.
  intros L H. simpl. apply Nat.ltb_lt in L. now rewrite L, H.
Qed.

Lemma while_done (rs : list Response) (st : state) :
  length F <= idx st -> while F rs st = (Returned, dump st).
Proof.
  intros L. apply Nat.ltb_ge in L. destruct rs; simpl; now rewrite L.
Qed.

End Pass.

(** C3.  While the run waits for a response, a response with a status
    outside 200..299 whose body contains "error" ends it with [sys.exit(1)]:
    whatever responses the endpoint would give next, no request follows the
    refused one, nothing is merged, and the file is left as it was, which is
    what the last dump of the run wrote (or what was there before the run
    when it has not dumped). *)
Theorem refused_with_error_marker f ids (rs1 rs2 : list Response) (r : Response) st1 :
  batch_query f ids rs1 = (Running, st1) ->
  ~ (200 <= status_code r < 300)%Z ->
  contains "error" (text r) = true ->
  exists st',
    batch_query f ids (rs1 ++ r :: rs2) = (Exit 1, st') /\
    requests (trace st')
    = requests (trace st1) ++ [batch_at (filter_ids ids (load f)) (idx st1)] /\
    calls (trace st') = calls (trace st1) /\
    dumps (trace st') = dumps (trace st1) /\
    data st' = data st1 /\
    file st' = file st1 /\
    file st' = last (map Some (dumps (trace st1))) f.
Proof.
  intros H1 Hs He.
  exists (log (Post query_url query_fields
                    (batch_at (filter_ids ids (load f)) (idx st1))) st1).
  assert (Hrun : batch_query f ids (rs1 ++ r :: rs2)
                 = (Exit 1, log (Post query_url query_fields
                      (batch_at (filter_ids ids (load f)) (idx st1))) st1)).
  { rewrite batch_query_app with (st1 := st1) by exact H1. simpl.
    unfold batch_query in H1. simpl in H1. apply while_running in H1.
    apply Nat.ltb_lt in H1. rewrite H1.
    rewrite iteration_exit; [reflexivity | lia | assumption]. }
  split; [exact Hrun|]. simpl. rewrite requests_app, calls_app, dumps_app. simpl.
  rewrite !app_nil_r. repeat split; trivial.
  now apply file_last_dump in H1.
Qed.

End Runs.

(** ** Concrete runs *)

(** [refused_with_error_marker] on a run of two ids, one by one, whose
    second request is refused. *)
Lemma refused_with_error_marker_witness :
  exists st',
    batch_query keep_entry 1 "year" "https://api/paper/batch" None
      [IdS "ARXIV:1"; IdS "ARXIV:2"]
      ([answer "[null]" [JNull]] ++ bad_request :: [answer "[null]" [JNull]])
    = (Exit 1, st') /\
    requests (trace st') = [[IdS "ARXIV:1"]; [IdS "ARXIV:2"]] /\
    data st' = [(IdS "ARXIV:1", JNull)] /\
    file st' = None.
Proof.
  destruct (@refused_with_error_marker keep_entry 1 "year" "https://api/paper/batch"
              None [IdS "ARXIV:1"; IdS "ARXIV:2"] [answer "[null]" [JNull]]
              [answer "[null]" [JNull]] bad_request
              (mkState [(IdS "ARXIV:1", JNull)] 1 (on_success QUERY_BASE_DELAY) None
                       [Post "https://api/paper/batch" "year" [IdS "ARXIV:1"];
                        Sleep (on_success QUERY_BASE_DELAY)]))
    as (st' & Hrun & Hreq & _ & _ & Hd & Hf & _).
  - reflexivity.
  - simpl. lia.
  - reflexivity.
  - exists st'. repeat split; assumption.
Defined.



(** [answered_batch_recorded] on the first pass over two ids answered with a
    record and a null. *)
Lemma answered_batch_recorded_witness :
  calls (trace (snd (iteration keep_entry 2 "year" "https://api/paper/batch"
                       [IdS "ARXIV:1"; IdS "ARXIV:2"]
                       (answer ("[" ++ year_text "2020" ++ ", null]") [year 2020; JNull])
                       (initial None))))
  = [year 2020]
  /\ get (IdS "ARXIV:2")
         (data (snd (iteration keep_entry 2 "year" "https://api/paper/batch"
                       [IdS "ARXIV:1"; IdS "ARXIV:2"]
                       (answer ("[" ++ year_text "2020" ++ ", null]") [year 2020; JNull])
                       (initial None))))
     = Some JNull.
Proof.
  destruct (@answered_batch_recorded keep_entry 2 "year" "https://api/paper/batch"
              [IdS "ARXIV:1"; IdS "ARXIV:2"]
              (answer ("[" ++ year_text "2020" ++ ", null]") [year 2020; JNull])
              (initial None) (JArr [year 2020; JNull]) [year 2020; JNull]
              eq_refl eq_refl eq_refl) as (_ & _ & H).
  destruct (H _ eq_refl) as (Hc & _ & Hg).
  split; [exact Hc|].
  destruct (Hg [(IdS "ARXIV:1", year 2020)] (IdS "ARXIV:2") JNull [] eq_refl)
    as (v & Hv & Hget).
  - simpl. tauto.
  - injection Hv as <-. exact Hget.
Defined.

(** C5 as stated fails for a 2xx status other than 200: line 78 sends a 201
    response down the throttling branch, so its null entry is not recorded
    and the pointer stays. *)
Lemma status_201_not_recorded :
  exists st,
    batch_query keep_entry 1 "year" "https://api/paper/batch" None
      [IdS "ARXIV:1"] [mkResponse 201 "[null]" (Some (JArr [JNull]))]
    = (Running, st) /\
    (200 <= status_code (mkResponse 201 "[null]" (Some (JArr [JNull]))) < 300)%Z /\
    get (IdS "ARXIV:1") (data st) = None /\
    idx st = 0.
Proof.
  eexists. split; [reflexivity|]. simpl. repeat split; lia.
Qed.

(** C2 at a throttling response whose body is neither JSON nor the
    throttling text: line 85 parses the body to print it, the parse raises,
    and the run ends before the pause and without a second request. *)
Theorem throttled_plain_body_raises :
  exists st,
    batch_query keep_entry 3 "year" "https://api/paper/batch" None
      [IdS "a"; IdS "b"; IdS "c"]
      [service_unavailable; answer "[null, null, null]" [JNull; JNull; JNull]]
    = (Uncaught JSONDecodeError, st) /\
    ~ (200 <= status_code service_unavailable < 300)%Z /\
    contains "error" (text service_unavailable) = false /\
    requests (trace st) = [[IdS "a"; IdS "b"; IdS "c"]] /\
    sleeps (trace st) = [] /\
    data st = [] /\
    file st = None.
Proof.
  eexists. split; [reflexivity|]. simpl. repeat split. lia.
Qed.

(** The end-to-end scenario with a throttling response the code survives
    (one with the throttling text, or with any JSON body).  From an empty
    start (no file), ids 1..5, batch size 2, against an endpoint that answers
    [[{"y":2020}, null]], then throttles once in that way, then answers
    [[{"y":2019}, {"y":2021}]] and [[{"y":2018}]]: the run returns after
    exactly four requests, for [1,2], [3,4], [3,4] and [5], with the
    checkpoint 1: transform of the first record, 2: null, 3, 4, 5: the
    transforms of the other records; the file holds the same under the keys
    "1".."5". *)
Theorem end_to_end_scenario
        (process_response_f : json -> option json) (query_fields query_url : string)
        (r1 throttled r3 r4 : Response) (t1 t3 t4 t5 : json) :
  status_code r1 = 200%Z -> parsed r1 = Some (JArr [year 2020; JNull]) ->
  ~ (200 <= status_code throttled < 300)%Z ->
  contains "error" (text throttled) = false ->
  contains "Too Many Requests" (text throttled) = true \/ parsed throttled <> None ->
  status_code r3 = 200%Z -> parsed r3 = Some (JArr [year 2019; year 2021]) ->
  status_code r4 = 200%Z -> parsed r4 = Some (JArr [year 2018]) ->
  process_response_f (year 2020) = Some t1 ->
  process_response_f (year 2019) = Some t3 ->
  process_response_f (year 2021) = Some t4 ->
  process_response_f (year 2018) = Some t5 ->
  exists st,
    batch_query process_response_f 2 query_fields query_url None
      [IdI 1; IdI 2; IdI 3; IdI 4; IdI 5] [r1; throttled; r3; r4]
    = (Returned, st) /\
    requests (trace st)
    = [[IdI 1; IdI 2]; [IdI 3; IdI 4]; [IdI 3; IdI 4]; [IdI 5]] /\
    length (requests (trace st)) = 4 /\
    calls (trace st) = [year 2020; year 2019; year 2021; year 2018] /\
    data st = [(IdI 1, t1); (IdI 2, JNull); (IdI 3, t3); (IdI 4, t4); (IdI 5, t5)] /\
    file st = Some [("1", t1); ("2", JNull); ("3", t3); ("4", t4); ("5", t5)].
Proof.
  intros S1 P1 ST ET BT S3 P3 S4 P4 T1 T3 T4 T5.
  assert (ST' : status_code throttled <> 200%Z) by lia.
  eexists. split.
  - unfold batch_query. cbn [initial load data filter_ids filter contains_key negb].
    erewrite while_step;
      [| cbn; lia
       | rewrite iteration_200 with (1 := S1) (2 := P1) (3 := eq_refl);
         cbn; rewrite T1; cbn; reflexivity].
    erewrite while_step;
      [| cbn; lia
       | rewrite throttled_pass with (1 := ST') (2 := ET) (3 := BT);
         cbn; reflexivity].
    erewrite while_step;
      [| cbn; lia
       | rewrite iteration_200 with (1 := S3) (2 := P3) (3 := eq_refl);
         cbn; rewrite T3; cbn; rewrite T4; cbn; reflexivity].
    erewrite while_step;
      [| cbn; lia
       | rewrite iteration_200 with (1 := S4) (2 := P4) (3 := eq_refl);
         cbn; rewrite T5; cbn; reflexivity].
    apply while_done. cbn. lia.
  - cbn. repeat split.
Qed.

(** C8 at a throttling response whose body is neither JSON nor the
    throttling text, the gateway page of C2.  The scenario throttles once
    with it: line 85 parses the body to print it and the parse raises, so
    the run ends after two requests, for [1,2] and [3,4], with the
    checkpoint 1: the first record, 2: null, nothing for 3, 4 and 5, and no
    file written. *)
Theorem end_to_end_throttle_raises :
  exists st,
    batch_query keep_entry 2 "year" "https://api/paper/batch" None
      [IdI 1; IdI 2; IdI 3; IdI 4; IdI 5]
      [answer ("[" ++ year_text "2020" ++ ", null]") [year 2020; JNull];
       service_unavailable;
       answer ("[" ++ year_text "2019" ++ ", " ++ year_text "2021" ++ "]")
              [year 2019; year 2021];
       answer ("[" ++ year_text "2018" ++ "]") [year 2018]]
    = (Uncaught JSONDecodeError, st) /\
    ~ (200 <= status_code service_unavailable < 300)%Z /\
    contains "error" (text service_unavailable) = false /\
    requests (trace st) = [[IdI 1; IdI 2]; [IdI 3; IdI 4]] /\
    length (requests (trace st)) = 2 /\
    data st = [(IdI 1, year 2020); (IdI 2, JNull)] /\
    get (IdI 3) (data st) = None /\
    get (IdI 4) (data st) = None /\
    get (IdI 5) (data st) = None /\
    file st = None.
Proof.
  eexists. split; [reflexivity|]. simpl. repeat split. lia.
Qed.

(** ** The delay *)

Section Delay.

Local Open Scope Q_scope.

Local Abbreviation D0 := QUERY_BASE_DELAY.
Local Abbreviation M := QUERY_MULT_DELAY.

Lemma mult_power_succ (n : nat) : M ^ Z.of_nat (S n) == M ^ Z.of_nat n * M.
Proof.
  rewrite Nat2Z.inj_succ, <- Z.add_1_r, Qpower_plus; [|intros E; discriminate].
  reflexivity.
Qed.

(** Bernoulli's bound for the multiplier 1.2. *)
Lemma mult_power_lower (n : nat) :
  1 + inject_Z (Z.of_nat n) * (1 # 5) <= M ^ Z.of_nat n.
Proof.
  induction n as [|n IH].
  - vm_compute. discriminate.
  - rewrite mult_power_succ. rewrite Nat2Z.inj_succ, <- Z.add_1_r, inject_Z_plus.
    assert (0 <= inject_Z (Z.of_nat n))
      by (change 0 with (inject_Z 0); rewrite <- Zle_Qle; lia).
    unfold QUERY_MULT_DELAY at 2. change (inject_Z 1) with 1.
    generalize dependent (M ^ Z.of_nat n).
    generalize dependent (inject_Z (Z.of_nat n)).
    intros a Ha x Hx. lra.
Qed.

Lemma mult_power_ge_1 (n : nat) : 1 <= M ^ Z.of_nat n.
Proof.
  pose proof (mult_power_lower n) as H.
  assert (0 <= inject_Z (Z.of_nat n))
    by (change 0 with (inject_Z 0); rewrite <- Zle_Qle; lia).
  generalize dependent (M ^ Z.of_nat n).
  generalize dependent (inject_Z (Z.of_nat n)).
  intros a Ha x Hx. lra.
Qed.

Lemma on_throttled_wd (x y : Q) : x == y -> on_throttled x == on_throttled y.
Proof. unfold on_throttled. now intros ->. Qed.

Lemma on_success_wd (x y : Q) : x == y -> on_success x == on_success y.
Proof. unfold on_success. now intros ->. Qed.

Lemma on_throttled_iter (n : nat) (d : Q) :
  Nat.iter n on_throttled d == d * M ^ Z.of_nat n.
Proof.
  induction n as [|n IH].
  - simpl. change (M ^ 0%Z) with 1. lra.
  - rewrite mult_power_succ. change (Nat.iter (S n) on_throttled d)
      with (on_throttled (Nat.iter n on_throttled d)).
    rewrite (on_throttled_wd IH). unfold on_throttled. ring.
Qed.

(** From [D0 * M^n], [k <= n] successes lead to [D0 * M^(n-k)]. *)
Lemma on_success_iter (n k : nat) (d : Q) :
  (k <= n)%nat -> d == D0 * M ^ Z.of_nat n ->
  Nat.iter k on_success d == D0 * M ^ Z.of_nat (n - k).
Proof.
  intros Hk Hd. induction k as [|k IH].
  - rewrite Nat.sub_0_r. exact Hd.
  - change (Nat.iter (S k) on_success d) with (on_success (Nat.iter k on_success d)).
    rewrite (on_success_wd (IH ltac:(lia))).
    replace (n - k)%nat with (S (n - S k)) by lia.
    unfold on_success. rewrite mult_power_succ.
    pose proof (mult_power_ge_1 (n - S k)) as H1.
    assert (E : D0 * (M ^ Z.of_nat (n - S k) * M) / M == D0 * M ^ Z.of_nat (n - S k)).
    { field. intros E. discriminate. }
    rewrite E. apply Q.max_r.
    unfold QUERY_BASE_DELAY. clear E. generalize dependent (M ^ Z.of_nat (n - S k)).
    intros x Hx. lra.
Qed.

Lemma on_throttled_ge (d : Q) : D0 <= d -> D0 <= on_throttled d.
Proof.
  unfold on_throttled, QUERY_BASE_DELAY, QUERY_MULT_DELAY. intros H. lra.
Qed.

Lemma on_success_ge (d : Q) : D0 <= on_success d.
Proof. apply Q.le_max_l. Qed.

Lemma delay_unbounded (bound : Q) :
  exists n : nat, bound < Nat.iter n on_throttled D0.
Proof.
  assert (HB : bound < inject_Z (Z.max 0 (Qnum bound) + 1)).
  { destruct bound as [p q]. unfold Qlt. simpl. nia. }
  set (z := (Z.max 0 (Qnum bound) + 1)%Z) in *.
  exists (Z.to_nat (50 * z)).
  rewrite on_throttled_iter.
  pose proof (mult_power_lower (Z.to_nat (50 * z))) as Hb.
  rewrite Z2Nat.id in * by lia.
  rewrite inject_Z_mult in Hb. unfold QUERY_BASE_DELAY at 1.
  change (inject_Z 50) with (50 # 1) in Hb. lra.
Qed.

Lemma sleeps_calls (tr : list event) (cs : list json) :
  sleeps (tr ++ map Call cs) = sleeps tr.
Proof.
  rewrite sleeps_app.
  replace (sleeps (map Call cs)) with (@nil Q);
    [apply app_nil_r | induction cs; simpl; trivial].
Qed.

Variable process_response_f : json -> option json.
Variable batch_size : nat.
Variables query_fields query_url : string.

Local Abbreviation iteration := (iteration process_response_f batch_size query_fields query_url).
Local Abbreviation batch_query := (batch_query process_response_f batch_size query_fields query_url).

(** Whatever the outcome of a pass, the delay is the old one or one of the
    two updates of it. *)
Lemma iteration_delay F (r : Response) (st : state) s st' :
  iteration F r st = (s, st') ->
  delay st' = delay st \/ delay st' = on_throttled (delay st)
  \/ delay st' = on_success (delay st).
Proof.
  unfold iteration. intros H.
  destruct (status_code r =? 200)%Z; simpl in H.
  - destruct (parsed r) as [body|]; [|inversion H; subst; simpl; auto].
    destruct (py_iter body); [|inversion H; subst; simpl; auto].
    destruct (merge _ _ _) as [s1 st1] eqn:Hm.
    pose proof (merge_frame _ _ _ Hm) as (_ & Hd & _). simpl in Hd.
    destruct (merge_status _ _ _ Hm) as [-> | ->].
    + apply advance_spec in H. destruct H as (_ & _ & Hdel & _).
      rewrite Hdel, Hd. auto.
    + inversion H; subst. auto.
  - destruct (contains "error" (text r)); [inversion H; subst; simpl; auto|].
    destruct (negb (contains "Too Many Requests" (text r)));
      [destruct (parsed r)|]; inversion H; subst; simpl; auto.
Qed.

(** Throttled passes in a row: the state stays but for the delay, and the
    pauses are the successive multiples. *)
Lemma throttled_run F (rs : list Response) (st : state) :
  (idx st < length F)%nat -> Forall throttling rs ->
  exists st',
    while process_response_f batch_size query_fields query_url F rs st
    = (Running, st') /\
    idx st' = idx st /\ data st' = data st /\ file st' = file st /\
    delay st' = Nat.iter (length rs) on_throttled (delay st) /\
    sleeps (trace st')
    = (sleeps (trace st)
       ++ map (fun k => Nat.iter k on_throttled (delay st)) (seq 1 (length rs)))%list.
Proof.
  intros L Hall. revert st L.
  induction Hall as [|r rs (Hs & He & Hb) Hall IH]; intros st L.
  - exists st. simpl. apply Nat.ltb_lt in L. rewrite L, app_nil_r. repeat split.
  - pose proof (throttled_pass process_response_f batch_size query_fields query_url
                  F r st Hs He Hb) as Hpass.
    destruct (IH (sleep (with_delay (on_throttled (delay st))
                    (log (Post query_url query_fields
                            (batch_at batch_size F (idx st))) st))) L)
      as (st' & Hrun & Hi & Hd & Hf & Hdel & Hsl).
    exists st'. rewrite while_step with (st1 := sleep (with_delay (on_throttled (delay st))
                    (log (Post query_url query_fields
                            (batch_at batch_size F (idx st))) st))); [|exact L|exact Hpass].
    split; [exact Hrun|]. simpl in Hi, Hd, Hf, Hdel, Hsl.
    repeat split; trivial.
    + rewrite Hdel. symmetry. apply Nat.iter_succ_r.
    + rewrite Hsl, !sleeps_app. simpl sleeps. rewrite app_nil_r, <- app_assoc.
      f_equal. simpl. f_equal. rewrite <- (seq_shift (length rs) 1), map_map.
      apply map_ext. intros k. symmetry. apply Nat.iter_succ_r.
Qed.

(** The delay in the exact arithmetic of the embedding.  It starts at the
    base value; a throttled pass multiplies it by the multiplier and an
    answered pass replaces it by the larger of the base value and the delay
    divided by the multiplier; either pass then pauses for the new delay.
    So [n] throttled passes in a row from the base value give [D0 * M^n],
    and [n] answered passes after them give [D0 * M^(n-1)], ..., [D0]; the
    delay is never below the base value and exceeds any bound after enough
    throttled passes.

    These are facts of exact rationals, not of the floats the code computes
    with: there lines 82 and 98 round (three multiplications from 0.1 give
    0.17279999999999998), dividing does not undo multiplying, and
    [time.sleep] raises [OverflowError] once the delay is beyond its range,
    which ends a run that is throttled often enough. *)
Theorem backoff_delay :
  (forall f, delay (initial f) = D0) /\
  (forall F r st st',
      iteration F r st = (Running, st') ->
      sleeps (trace st') = sleeps (trace st) ++ [delay st'] /\
      ((status_code r <> 200%Z /\ delay st' = delay st * M)
       \/ (status_code r = 200%Z /\ delay st' = Qmax D0 (delay st / M)))) /\
  (forall id ids rs,
      Forall throttling rs ->
      exists st,
        batch_query None (id :: ids) rs = (Running, st) /\
        sleeps (trace st)
        = map (fun k => Nat.iter k on_throttled D0) (seq 1 (length rs)) /\
        delay st = Nat.iter (length rs) on_throttled D0) /\
  (forall n, Nat.iter n on_throttled D0 == D0 * M ^ Z.of_nat n) /\
  (forall n k, (k < n)%nat ->
      let after j := Nat.iter j on_success (Nat.iter n on_throttled D0) in
      after (S k) < after k /\ D0 <= after (S k) /\
      after (S k) == D0 * M ^ Z.of_nat (n - S k)) /\
  (forall f ids rs s st, batch_query f ids rs = (s, st) -> D0 <= delay st) /\
  (forall bound, exists n, bound < Nat.iter n on_throttled D0) /\
  (forall bound id ids,
      exists rs st,
        batch_query None (id :: ids) rs = (Running, st) /\ bound < delay st).
Proof.
  assert (Hthr : forall id ids rs,
             Forall throttling rs ->
             exists st,
               batch_query None (id :: ids) rs = (Running, st) /\
               sleeps (trace st)
               = map (fun k => Nat.iter k on_throttled D0) (seq 1 (length rs)) /\
               delay st = Nat.iter (length rs) on_throttled D0).
  { intros id ids rs Hall. unfold batch_query.
    destruct (throttled_run (filter_ids (id :: ids) (data (initial None)))
                            (initial None) (rs := rs)) as
        (st & Hrun & _ & _ & _ & Hd & Hs); [simpl; lia | exact Hall |].
    exists st. simpl in Hd, Hs. auto. }
  split; [reflexivity|]. split; [|split; [exact Hthr|split; [|split; [|split; [|split]]]]].
  - intros F r st st' H. apply iteration_running in H. simpl in H.
    destruct H as [(Hs & _ & _ & _ & _ & Hd & Ht)
                  |(Hs & _ & _ & Hd & body & entries & st1 & _ & _ & Hm & _ & Ht)].
    + split; [|left; now split].
      rewrite Ht, sleeps_app. simpl. reflexivity.
    + split; [|right; now split].
      apply merge_frame in Hm. destruct Hm as (_ & _ & _ & cs & Hc). simpl in Hc.
      assert (S1 : sleeps (trace st1) = sleeps (trace st)).
      { rewrite Hc, sleeps_calls, sleeps_app. simpl. apply app_nil_r. }
      destruct Ht as [(_ & _ & T)|(_ & _ & T)]; rewrite T, sleeps_app, S1; reflexivity.
  - intros n. apply on_throttled_iter.
  - intros n k Hk after.
    assert (E : forall j, (j <= n)%nat -> after j == D0 * M ^ Z.of_nat (n - j)).
    { intros j Hj. apply on_success_iter; [exact Hj | apply on_throttled_iter]. }
    pose proof (E k ltac:(lia)) as Ek. pose proof (E (S k) ltac:(lia)) as Esk.
    replace (n - k)%nat with (S (n - S k)) in Ek by lia.
    rewrite mult_power_succ in Ek.
    pose proof (mult_power_ge_1 (n - S k)) as H1.
    rewrite Ek, Esk. clear Ek Esk E.
    set (x := M ^ Z.of_nat (n - S k)) in *. clearbody x.
    unfold QUERY_BASE_DELAY, QUERY_MULT_DELAY.
    repeat split; lra.
  - intros f ids rs s st. unfold batch_query.
    apply while_inv with (P := fun st => D0 <= delay st)
                         (Q := fun _ st => D0 <= delay st); auto.
    + intros r st0 st' HP _ Hit. apply iteration_delay in Hit.
      destruct Hit as [-> | [-> | ->]];
        [assumption | now apply on_throttled_ge | apply on_success_ge].
    + intros r st0 s0 st' HP _ Hit _. apply iteration_delay in Hit.
      destruct Hit as [-> | [-> | ->]];
        [assumption | now apply on_throttled_ge | apply on_success_ge].
    + simpl. apply Qle_refl.
  - apply delay_unbounded.
  - intros bound id ids. destruct (delay_unbounded bound) as (n & Hn).
    destruct (Hthr id ids (repeat too_many_requests n)) as (st & Hrun & _ & Hd).
    + apply Forall_forall. intros r Hr. apply repeat_spec in Hr. subst r.
      repeat split; [discriminate | now left].
    + exists (repeat too_many_requests n), st. split; [exact Hrun|].
      rewrite Hd, repeat_length. exact Hn.
Qed.

End Delay.

(** ** Dumps *)

Lemma in_set (id : Identifier) (w : json) (d : dict) k v :
  In (k, v) (set id w d) -> In (k, v) d \/ (k = id /\ v = w).
Proof.
  induction d as [|[k' w'] d IH]; simpl.
  - intros [E|[]]. right. now inversion E.
  - destruct (id_eqb id k') eqn:E; simpl.
    + apply id_eqb_eq in E. subst k'.
      intros [E'|H]; [right; now inversion E' | auto].
    + intros [E'|H]; [auto | apply IH in H; tauto].
Qed.

Lemma persisted_dump (d : dict) k v :
  In (k, v) d -> persisted (Some (json_dump d)) k v.
Proof.
  intros H. simpl. unfold json_dump.
  apply in_map_iff. exists (k, v). auto.
Qed.

Lemma persisted_load (f : option document) k v :
  In (k, v) (load f) -> persisted f k v.
Proof.
  destruct f as [doc|]; simpl; [|contradiction].
  unfold json_load.
  assert (G : forall d0,
             In (k, v) (fold_left (fun d kv => set (IdS (fst kv)) (snd kv) d) doc d0) ->
             In (k, v) d0 \/ In (key_name k, v) doc).
  { induction doc as [|[s w] doc IH]; simpl; intros d0 H; [now left|].
    apply IH in H. destruct H as [H|H]; [|auto].
    apply in_set in H. destruct H as [H|(-> & ->)]; auto. }
  intros H. apply G in H. destruct H as [[]|H]. exact H.
Qed.

Lemma in_firstn_le {A : Type} (a c : nat) (l : list A) (x : A) :
  a <= c -> In x (firstn a l) -> In x (firstn c l).
Proof.
  revert c l. induction a as [|a IH]; intros c l Hle H; [contradiction|].
  destruct l as [|y l]; [contradiction|].
  destruct c as [|c]; [lia|]. simpl in *.
  destruct H as [H|H]; [now left | right]. apply IH; [lia | exact H].
Qed.

Lemma in_firstn_skipn {A : Type} (a b : nat) (l : list A) (x : A) :
  In x (firstn b (skipn a l)) -> In x (firstn (a + b) l).
Proof.
  revert l. induction a as [|a IH]; intros l H; [exact H|].
  destruct l as [|y l]; [destruct b; contradiction|].
  simpl in *. right. now apply IH.
Qed.

Section Dumps.

Variable process_response_f : json -> option json.
Variable batch_size : nat.
Variables query_fields query_url : string.

Local Abbreviation iteration := (iteration process_response_f batch_size query_fields query_url).
Local Abbreviation while := (while process_response_f batch_size query_fields query_url).
Local Abbreviation batch_query := (batch_query process_response_f batch_size query_fields query_url).
Local Abbreviation batch_at := (batch_at batch_size).
Local Abbreviation period := (batch_size * QUERY_DUMP_INTERVAL).

(** A pass never returns from [batch_query]; only the end of the loop does. *)
Lemma iteration_not_returned F (r : Response) (st st' : state) :
  iteration F r st <> (Returned, st').
Proof.
  unfold iteration. intros H.
  destruct (status_code r =? 200)%Z; simpl in H.
  - destruct (parsed r) as [body|]; [|discriminate].
    destruct (py_iter body); [|discriminate].
    destruct (merge _ _ _) as [s1 st1] eqn:Hm.
    destruct (merge_status _ _ _ Hm) as [-> | ->]; [|discriminate].
    apply advance_spec in H.
    destruct H as (_ & _ & _ & [(_ & ? & _)|(_ & ? & _)]); discriminate.
  - destruct (contains "error" (text r)); [discriminate|].
    destruct (negb (contains "Too Many Requests" (text r)));
      [destruct (parsed r)|]; discriminate.
Qed.

Lemma while_returned F (rs : list Response) (st st' : state) :
  while F rs st = (Returned, st') ->
  exists st1, length F <= idx st1 /\ st' = dump st1.
Proof.
  revert st. induction rs as [|r rs IH]; simpl; intros st H.
  - destruct (idx st <? length F)%nat eqn:L; [discriminate|].
    inversion H; subst. exists st. split; [now apply Nat.ltb_ge | reflexivity].
  - destruct (idx st <? length F)%nat eqn:L.
    + destruct (iteration F r st) as [s1 st1] eqn:Hit.
      destruct s1; try discriminate; [now apply IH in H|].
      now apply iteration_not_returned in Hit.
    + inversion H; subst. exists st. split; [now apply Nat.ltb_ge | reflexivity].
Qed.

Section DumpWindow.

Variable F : list Identifier.

Lemma since_dump_all_persisted (st : state) :
  idx st mod period = 0 ->
  (forall k v, In (k, v) (data st) -> persisted (file st) k v) ->
  since_dump batch_size F st.
Proof.
  intros Hm Hp. exists (idx st / period), 0. split; [|split].
  - apply Nat.Div0.div_exact in Hm. lia.
  - unfold QUERY_DUMP_INTERVAL. lia.
  - intros k v H. left. now apply Hp.
Qed.

(** A pass that leaves the loop running keeps [since_dump]. *)
Lemma since_dump_step (r : Response) (st st' : state) :
  since_dump batch_size F st -> iteration F r st = (Running, st') ->
  since_dump batch_size F st'.
Proof.
  intros (q & j & Hi & Hj & Hp) H. apply iteration_running in H. simpl in H.
  destruct H as [(_ & _ & Hd & Hi' & Hf & _)
                |(_ & Hb & Hi' & _ & body & entries & st1 & _ & _ & Hm & Hd & Hdump)].
  - exists q, j. rewrite Hd, Hi', Hf. auto.
  - apply merge_data in Hm. destruct Hm as (_ & _ & He). simpl in He.
    assert (Hnew : forall k v, In (k, v) (data st') ->
                     In (k, v) (data st) \/ In k (batch_at F (idx st))).
    { intros k v Hin. rewrite Hd in Hin. apply He in Hin.
      destruct Hin as [Hin|Hin]; [now left | right].
      rewrite in_map_iff in Hin. destruct Hin as ([k' e] & <- & Hin).
      now apply in_combine_l in Hin. }
    destruct Hdump as [(M & Hf & _)|(M & Hf & _)].
    + apply since_dump_all_persisted; [exact M|].
      intros k v Hin. rewrite Hf. now apply persisted_dump.
    + assert (S j < QUERY_DUMP_INTERVAL).
      { destruct (Nat.eq_dec (S j) QUERY_DUMP_INTERVAL) as [E|E]; [|lia].
        exfalso. apply M. rewrite Hi', Hi.
        replace (q * period + j * batch_size + batch_size)
          with ((q + 1) * period) by (rewrite <- E; lia).
        apply Nat.Div0.mod_mul. }
      exists q, (S j). split; [lia|]. split; [assumption|].
      intros k v Hin. rewrite Hf. apply Hnew in Hin. destruct Hin as [Hin|Hin].
      * apply Hp in Hin. destruct Hin as [Hin|Hin]; [now left | right].
        eapply in_firstn_le; [|exact Hin]. lia.
      * right. unfold batch_at in Hin. rewrite Hi in Hin.
        rewrite Nat.add_comm, <- skipn_skipn in Hin.
        apply in_firstn_skipn in Hin.
        replace (S j * batch_size) with (j * batch_size + batch_size) by lia.
        exact Hin.
Qed.

(** Whatever a pass ends with, what the file lacks was merged in the [j]
    batches since the last multiple of the period or belongs to the batch
    of this pass. *)
Lemma since_dump_pass (r : Response) (st : state) s st' :
  since_dump batch_size F st -> iteration F r st = (s, st') ->
  exists window,
    length window <= period /\
    forall k v, In (k, v) (data st') -> persisted (file st') k v \/ In k window.
Proof.
  intros (q & j & Hi & Hj & Hp) H. apply iteration_any in H.
  destruct H as (_ & _ & _ & He & Hf).
  destruct Hf as [Hf|(Hf & _)].
  - exists (firstn (j * batch_size) (skipn (q * period) F) ++ batch_at F (idx st)).
    split.
    + rewrite length_app. unfold batch_at.
      pose proof (firstn_le_length (j * batch_size) (skipn (q * period) F)).
      pose proof (firstn_le_length batch_size (skipn (idx st) F)).
      unfold QUERY_DUMP_INTERVAL in *.
      assert (j * batch_size <= 9 * batch_size) by (apply Nat.mul_le_mono_r; lia).
      lia.
    + intros k v Hin. rewrite Hf. apply He in Hin. destruct Hin as [Hin|Hin].
      * apply Hp in Hin. destruct Hin as [Hin|Hin]; [now left | right].
        apply in_or_app. now left.
      * right. apply in_or_app. now right.
  - exists []. split; [simpl; lia|].
    intros k v Hin. left. rewrite Hf. now apply persisted_dump.
Qed.

End DumpWindow.

(** A pass writes the file exactly when it was answered with status 200,
    ran to its end, and moved the pointer to a multiple of
    [batch_size * QUERY_DUMP_INTERVAL]; it then writes the whole checkpoint.
    Every other pass leaves the file alone.  When the work-set is exhausted
    the loop writes the whole checkpoint once more and returns, and that is
    the only way it returns.  At every point of a run, the results the
    checkpoint holds and the file lacks belong to at most
    [batch_size * QUERY_DUMP_INTERVAL] ids. *)
Lemma dump_passes :
  (forall F r st s st',
      iteration F r st = (s, st') ->
      (s = Running /\ status_code r = 200%Z /\
       idx st' = idx st + batch_size /\ 0 < batch_size /\
       ((idx st' mod period = 0 /\
         dumps (trace st') = dumps (trace st) ++ [json_dump (data st')] /\
         file st' = Some (json_dump (data st')))
        \/
        (idx st' mod period <> 0 /\
         dumps (trace st') = dumps (trace st) /\ file st' = file st)))
      \/
      ((s <> Running \/ status_code r <> 200%Z) /\
       (s = Running -> idx st' = idx st) /\
       dumps (trace st') = dumps (trace st) /\ file st' = file st)) /\
  (forall F rs st, length F <= idx st -> while F rs st = (Returned, dump st)) /\
  (forall F rs st st',
      while F rs st = (Returned, st') ->
      length F <= idx st' /\
      file st' = Some (json_dump (data st')) /\
      exists earlier, dumps (trace st') = earlier ++ [json_dump (data st')]) /\
  (forall f ids rs s st,
      batch_query f ids rs = (s, st) ->
      exists window,
        length window <= batch_size * QUERY_DUMP_INTERVAL /\
        forall k v, In (k, v) (data st) -> persisted (file st) k v \/ In k window).
Proof.
  split; [|split; [|split]].
  - intros F r st s st' H.
    assert (Hd : s <> Running ->
                 dumps (trace st') = dumps (trace st) /\ file st' = file st).
    { intros N. pose proof H as H'. apply iteration_dumps in H'.
      destruct H' as [(Hf' & Hd')|(Hs' & _)]; [auto | contradiction]. }
    destruct s;
      try (right; destruct Hd as (Hd1 & Hd2); [discriminate|];
           repeat split; auto; try discriminate; left; discriminate).
    clear Hd. apply iteration_running in H. simpl in H.
    destruct H as [(Hs & _ & _ & Hi & Hf & _ & Ht)
                  |(Hs & Hb & Hi & _ & body & entries & st1 & _ & _ & Hm & _ & Hdump)].
    + right. rewrite Ht, dumps_app. simpl. rewrite app_nil_r. auto.
    + left. repeat split; trivial.
      apply merge_frame in Hm. destruct Hm as (_ & _ & _ & cs & Hc). simpl in Hc.
      assert (D : dumps (trace st1) = dumps (trace st)).
      { rewrite Hc, dumps_calls, dumps_app. simpl. apply app_nil_r. }
      destruct Hdump as [(M & Hf & T)|(M & Hf & T)]; [left | right];
        rewrite T, dumps_app, D; simpl; rewrite ?app_nil_r; auto.
  - intros F rs st. apply while_done.
  - intros F rs st st' H. apply while_returned in H.
    destruct H as (st1 & L & ->). simpl. repeat split; trivial.
    exists (dumps (trace st1)). now rewrite dumps_app.
  - intros f ids rs s st. unfold batch_query.
    apply while_inv with
      (P := since_dump batch_size (filter_ids ids (data (initial f))))
      (Q := fun _ st => exists window,
              length window <= period /\
              forall k v, In (k, v) (data st) -> persisted (file st) k v \/ In k window).
    + intros r st0 st1 HP _ Hit. eapply since_dump_step; eauto.
    + intros r st0 s0 st1 HP _ Hit _. eapply since_dump_pass; eauto.
    + intros st0 (q & j & Hi & Hj & Hp) _.
      exists (firstn (j * batch_size)
                     (skipn (q * period) (filter_ids ids (data (initial f))))).
      split; [|exact Hp].
      pose proof (firstn_le_length (j * batch_size)
                    (skipn (q * period) (filter_ids ids (data (initial f))))).
      unfold QUERY_DUMP_INTERVAL in *.
      assert (j * batch_size <= 9 * batch_size) by (apply Nat.mul_le_mono_r; lia).
      lia.
    + intros st0 _ _. exists []. split; [simpl; lia|].
      intros k v Hin. left. now apply persisted_dump.
    + apply since_dump_all_persisted; [apply Nat.Div0.mod_0_l|].
      intros k v Hin. now apply persisted_load.
Qed.

End Dumps.

(** ** No re-querying *)

Section NoRequery.

Variable process_response_f : json -> option json.
Variable batch_size : nat.
Variables query_fields query_url : string.

Local Abbreviation iteration := (iteration process_response_f batch_size query_fields query_url).
Local Abbreviation while := (while process_response_f batch_size query_fields query_url).
Local Abbreviation batch_query := (batch_query process_response_f batch_size query_fields query_url).
Local Abbreviation batch_at := (batch_at batch_size).

Lemma resolved_behind_step F (r : Response) (st st' : state) :
  NoDup F -> resolved_behind F st -> iteration F r st = (Running, st') ->
  resolved_behind F st'.
Proof.
  intros ND Inv H. apply iteration_running in H. simpl in H.
  destruct H as [(_ & _ & Hd & Hi & _)
                |(_ & _ & Hi & _ & body & entries & st1 & _ & _ & Hm & Hd & _)].
  - unfold resolved_behind. now rewrite Hd, Hi.
  - apply merge_data in Hm. destruct Hm as (_ & Hk & _). simpl in Hk.
    intros id Hin. unfold keys in Hin. rewrite Hd in Hin. apply Hk in Hin.
    rewrite Hi, Nat.add_comm, <- skipn_skipn.
    destruct Hin as [Hin|Hin].
    + intros Hx. apply in_skipn in Hx. now apply (Inv id).
    + apply NoDup_app_disjoint with (a := firstn batch_size (skipn (idx st) F)).
      * rewrite firstn_skipn. now apply NoDup_skipn.
      * rewrite in_map_iff in Hin. destruct Hin as ([k e] & <- & Hin).
        now apply in_combine_l in Hin.
Qed.

Lemma resolved_behind_run f ids (rs : list Response) st :
  NoDup ids -> batch_query f ids rs = (Running, st) ->
  resolved_behind (filter_ids ids (load f)) st.
Proof.
  intros ND H. unfold batch_query in H. simpl in H.
  assert (G : forall s st',
             while (filter_ids ids (load f)) rs (initial f) = (s, st') ->
             s = Running -> resolved_behind (filter_ids ids (load f)) st').
  2:{ exact (G _ _ H eq_refl). }
  clear H. intros s st' H.
  pose proof (@while_inv process_response_f batch_size query_fields query_url
                (filter_ids ids (load f))
                (resolved_behind (filter_ids ids (load f)))
                (fun s st => s = Running ->
                             resolved_behind (filter_ids ids (load f)) st)) as W.
  eapply W; [| | | | |exact H]; clear W H.
  - intros r st0 st1 Inv _ Hit.
    eapply resolved_behind_step; eauto. now apply filter_ids_NoDup.
  - intros r st0 s0 st1 Inv _ Hit N E. contradiction.
  - auto.
  - intros st0 _ _ E. discriminate.
  - intros id Hin Hx. simpl in *. apply filter_ids_In in Hx. tauto.
Qed.

(** The keys of the checkpoint are keys it was loaded with or ids the run
    was given, under the very key they were given as: integer ids give
    integer keys. *)
Lemma keys_from_run f ids (rs : list Response) s st :
  batch_query f ids rs = (s, st) ->
  forall k, In k (keys (data st)) -> In k (keys (load f)) \/ In k ids.
Proof.
  unfold batch_query. simpl.
  assert (Hpass : forall r st0 s0 st1,
             (forall k, In k (keys (data st0)) -> In k (keys (load f)) \/ In k ids) ->
             iteration (filter_ids ids (load f)) r st0 = (s0, st1) ->
             forall k, In k (keys (data st1)) -> In k (keys (load f)) \/ In k ids).
  { intros r st0 s0 st1 Inv Hit k Hin. apply iteration_any in Hit.
    destruct Hit as (_ & _ & _ & He & _).
    apply in_keys in Hin. destruct Hin as (v & Hin). apply He in Hin.
    destruct Hin as [Hin|Hin].
    - apply Inv. unfold keys. apply in_map_iff. exists (k, v). auto.
    - right. apply batch_at_incl with (i := 0) in Hin; [|lia].
      simpl in Hin. apply filter_ids_In in Hin. tauto. }
  intros H.
  pose proof (@while_inv process_response_f batch_size query_fields query_url
                (filter_ids ids (load f))
                (fun st => forall k, In k (keys (data st)) ->
                                     In k (keys (load f)) \/ In k ids)
                (fun _ st => forall k, In k (keys (data st)) ->
                                       In k (keys (load f)) \/ In k ids)) as W.
  eapply W; [| | | | |exact H]; clear W H; auto.
  - intros r st0 st1 Inv _ Hit. eapply Hpass; eauto.
  - intros r st0 s0 st1 Inv _ Hit _. eapply Hpass; eauto.
Qed.

(** C1, amended.  In a run over pairwise distinct ids, an id that has a
    value in the checkpoint while the run waits for a response is in no
    request sent later in that run.  In any run, an id that is a key of the
    checkpoint loaded at its start is in no request of the run; so a string
    id that had a value in a checkpoint saved to the file is in no request
    of a run started from that file. *)
Theorem no_requery :
  (forall f ids rs1 rs2 st1 s st2,
      NoDup ids ->
      batch_query f ids rs1 = (Running, st1) ->
      batch_query f ids (rs1 ++ rs2) = (s, st2) ->
      exists later,
        requests (trace st2) = requests (trace st1) ++ later /\
        forall id, In id (keys (data st1)) ->
                   forall b, In b later -> ~ In id b) /\
  (forall f ids rs s st id,
      batch_query f ids rs = (s, st) ->
      In id (keys (load f)) ->
      forall b, In b (requests (trace st)) -> ~ In id b) /\
  (forall d name ids rs s st,
      In (IdS name) (keys d) ->
      batch_query (Some (json_dump d)) ids rs = (s, st) ->
      forall b, In b (requests (trace st)) -> ~ In (IdS name) b).
Proof.
  assert (Hloaded : forall f ids rs s st id,
             batch_query f ids rs = (s, st) ->
             In id (keys (load f)) ->
             forall b, In b (requests (trace st)) -> ~ In id b).
  { intros f ids rs s st id H Hk b Hb Hin.
    unfold batch_query in H. simpl in H. apply while_requests in H.
    destruct H as (later & Hl & Hall). simpl in Hl. rewrite Hl in Hb.
    rewrite Forall_forall in Hall. destruct (Hall b Hb) as (i & _ & ->).
    apply batch_at_incl with (i := 0) in Hin; [|lia].
    simpl in Hin. apply filter_ids_In in Hin. tauto. }
  split; [|split; [exact Hloaded|]].
  - intros f ids rs1 rs2 st1 s st2 ND H1 H2.
    pose proof H1 as Inv. apply resolved_behind_run in Inv; [|exact ND].
    rewrite batch_query_app with (st1 := st1) in H2 by exact H1.
    apply while_requests in H2. destruct H2 as (later & Hl & Hall).
    exists later. split; [exact Hl|].
    intros id Hk b Hb Hin. rewrite Forall_forall in Hall.
    destruct (Hall b Hb) as (i & Hi & ->).
    apply batch_at_incl with (i := idx st1) in Hin; [|exact Hi]. now apply (Inv id).
  - intros d name ids rs s st Hk H. apply (Hloaded _ _ _ _ _ (IdS name) H).
    simpl. apply keys_json_load. exists name. split; [reflexivity|].
    rewrite names_json_dump. apply in_map_iff. exists (IdS name). auto.
Qed.

End NoRequery.

(** ** Answers shorter than the batch *)

Lemma combine_fst_firstn {A B : Type} (l1 : list A) (l2 : list B) (a : A) :
  In a (map fst (combine l1 l2)) -> In a (firstn (length l2) l1).
Proof.
  revert l2. induction l1 as [|y l1 IH]; intros [|z l2]; simpl; try contradiction.
  intros [->|H]; [now left | right; now apply IH].
Qed.

Section ShortAnswer.

Variable process_response_f : json -> option json.
Variable batch_size : nat.
Variables query_fields query_url : string.
Variable f : option document.
Variable ids : list Identifier.
Variable x : Identifier.

Local Abbreviation iteration := (iteration process_response_f batch_size query_fields query_url).
Local Abbreviation while := (while process_response_f batch_size query_fields query_url).
Local Abbreviation batch_query := (batch_query process_response_f batch_size query_fields query_url).
Local Abbreviation batch_at := (batch_at batch_size).
Local Abbreviation F := (filter_ids ids (load f)).

Hypothesis names_distinct : NoDup (map key_name ids).
Hypothesis x_pending : In x F.

Lemma pending_NoDup : NoDup F.
Proof. apply filter_ids_NoDup. now apply NoDup_map_inv in names_distinct. Qed.

Lemma other_name (k : Identifier) : In k F -> k <> x -> IdS (key_name k) <> x.
Proof.
  intros Hk N E. apply N. clear N.
  assert (Hn : key_name k = key_name x) by (rewrite <- E; reflexivity).
  apply filter_ids_In in Hk. destruct Hk as (Hk & _).
  pose proof x_pending as Hx. apply filter_ids_In in Hx. destruct Hx as (Hx & _).
  clear E. revert Hk Hx Hn names_distinct. generalize ids as l.
  induction l as [|y l IH]; simpl; [contradiction|].
  intros Hk Hx Hn ND. inversion ND as [|? ? Hy ND']; subst.
  destruct Hk as [->|Hk], Hx as [->|Hx]; trivial.
  - exfalso. apply Hy. rewrite Hn. now apply in_map.
  - exfalso. apply Hy. rewrite <- Hn. now apply in_map.
  - now apply IH.
Qed.

Lemma unrecorded_update (st st' : state) :
  unrecorded x st ->
  (forall k, In k (keys (data st')) -> In k (keys (data st)) \/ (In k F /\ k <> x)) ->
  file st' = file st \/ file st' = Some (json_dump (data st')) ->
  unrecorded x st'.
Proof.
  intros (Hd & Hf) Hk Hfile.
  assert (Hd' : forall k, In k (keys (data st')) -> k <> x /\ IdS (key_name k) <> x).
  { intros k Hin. apply Hk in Hin. destruct Hin as [Hin|(Hin & N)]; [now apply Hd|].
    split; [exact N | now apply other_name]. }
  split; [exact Hd'|].
  destruct Hfile as [-> | ->]; [exact Hf|].
  simpl. rewrite keys_json_load, names_json_dump.
  intros (name & -> & Hin). apply in_map_iff in Hin.
  destruct Hin as (k & <- & Hin). now apply (Hd' k).
Qed.

Lemma unrecorded_initial : unrecorded x (initial f).
Proof.
  pose proof x_pending as Hx. apply filter_ids_In in Hx. destruct Hx as (_ & Hx).
  split; [|exact Hx]. simpl. intros k Hk. split.
  - intros ->. contradiction.
  - destruct f as [doc|]; simpl in *; [|contradiction].
    apply keys_json_load in Hk. destruct Hk as (name & -> & Hin).
    simpl. intros <-. apply Hx. apply keys_json_load. eauto.
Qed.

(** Any pass whose batch does not hold [x] leaves it unrecorded. *)
Lemma unrecorded_pass (r : Response) (st : state) s st' :
  unrecorded x st -> ~ In x (batch_at F (idx st)) ->
  iteration F r st = (s, st') -> unrecorded x st'.
Proof.
  intros Hu Hx H. apply iteration_any in H. destruct H as (_ & _ & _ & He & Hf).
  apply unrecorded_update with (st := st); [exact Hu | | tauto].
  intros k Hin. apply in_keys in Hin. destruct Hin as (v & Hin).
  apply He in Hin. destruct Hin as [Hin|Hin].
  - left. unfold keys. apply in_map_iff. exists (k, v). auto.
  - right. split.
    + apply batch_at_incl with (i := 0) in Hin; [exact Hin | lia].
    + intros ->. contradiction.
Qed.

(** A 200 pass that ran to its end leaves unrecorded the ids of its batch
    that the answer has no entry for. *)
Lemma unrecorded_short (r : Response) (st st' : state) body entries :
  unrecorded x st ->
  parsed r = Some body -> py_iter body = Some entries ->
  In x (skipn (length entries) (batch_at F (idx st))) ->
  iteration F r st = (Running, st') -> unrecorded x st'.
Proof.
  intros Hu Hp Hit Hx H. pose proof H as H'. apply iteration_any in H'.
  destruct H' as (_ & _ & _ & _ & Hf).
  apply iteration_running in H. simpl in H.
  destruct H as [(_ & _ & Hd & _)
                |(_ & _ & _ & _ & body' & entries' & st1 & Hp' & Hit' & Hm & Hd & _)].
  - apply unrecorded_update with (st := st); [exact Hu | | tauto].
    intros k Hin. left. now rewrite <- Hd.
  - rewrite Hp in Hp'. injection Hp' as <-. rewrite Hit in Hit'. injection Hit' as <-.
    apply merge_data in Hm. destruct Hm as (_ & Hk & _). simpl in Hk.
    apply unrecorded_update with (st := st); [exact Hu | | tauto].
    intros k Hin. unfold keys in Hin. rewrite Hd in Hin. apply Hk in Hin.
    destruct Hin as [Hin|Hin]; [now left | right].
    apply combine_fst_firstn in Hin. split.
    + apply in_firstn in Hin. apply batch_at_incl with (i := 0) in Hin; [exact Hin | lia].
    + intros ->. revert Hx. apply NoDup_app_disjoint with (a := firstn (length entries) (batch_at F (idx st))); [|exact Hin].
      rewrite firstn_skipn. unfold batch_at.
      pose proof pending_NoDup as ND. apply NoDup_skipn with (n := idx st) in ND.
      rewrite <- (firstn_skipn batch_size) in ND.
      now apply NoDup_app_remove_r in ND.
Qed.

(** While [x] is still ahead of the pointer it is unrecorded. *)
Lemma unrecorded_while_pending (rs : list Response) (st : state) :
  batch_query f ids rs = (Running, st) ->
  In x (skipn (idx st) F) -> unrecorded x st.
Proof.
  intros H. unfold batch_query in H. simpl in H.
  assert (G : forall s st',
             while F rs (initial f) = (s, st') ->
             s = Running -> In x (skipn (idx st') F) -> unrecorded x st').
  2:{ exact (G _ _ H eq_refl). }
  clear H st. intros s st' H.
  pose proof (@while_inv process_response_f batch_size query_fields query_url F
                (fun st => In x (skipn (idx st) F) -> unrecorded x st)
                (fun s st => s = Running ->
                             In x (skipn (idx st) F) -> unrecorded x st)) as W.
  eapply W; [| | | | |exact H]; clear W H.
  - intros r st0 st1 Inv _ Hit Hx.
    pose proof Hit as Hany. apply iteration_any in Hany.
    destruct Hany as (_ & Hi & _).
    assert (Hx0 : In x (skipn (idx st0) F)).
    { destruct Hi as [Hi|(_ & _ & Hi)]; rewrite Hi in Hx; [exact Hx|].
      rewrite Nat.add_comm, <- skipn_skipn in Hx. now apply in_skipn in Hx. }
    pose proof Hit as Hrun. apply iteration_running in Hrun. simpl in Hrun.
    destruct Hrun as [(_ & _ & Hd & _ & Hf & _)|(_ & _ & Hi' & _)].
    + apply unrecorded_update with (st := st0); [now apply Inv | | now left].
      intros k Hin. left. now rewrite <- Hd.
    + apply unrecorded_pass with (r := r) (st := st0) (s := Running);
        [now apply Inv | | exact Hit].
      rewrite Hi', Nat.add_comm, <- skipn_skipn in Hx.
      intros Hb. revert Hx. apply NoDup_app_disjoint with (a := batch_at F (idx st0));
        [|exact Hb].
      unfold batch_at. rewrite firstn_skipn. apply NoDup_skipn. apply pending_NoDup.
  - intros r st0 s0 st1 _ _ _ N E. contradiction.
  - auto.
  - intros st0 _ _ E. discriminate.
  - intros _. apply unrecorded_initial.
Qed.

(** Once [x] is behind the pointer and unrecorded it stays unrecorded, in
    the checkpoint and in the file, whatever the run does next. *)
Lemma unrecorded_after (rs : list Response) (st : state) s st' :
  unrecorded x st -> ~ In x (skipn (idx st) F) ->
  while F rs st = (s, st') -> unrecorded x st'.
Proof.
  intros Hu Hx H.
  pose proof (@while_inv process_response_f batch_size query_fields query_url F
                (fun st => unrecorded x st /\ ~ In x (skipn (idx st) F))
                (fun _ st => unrecorded x st)) as W.
  eapply W; [| | | | |exact H]; clear W H.
  - intros r st0 st1 (Hu0 & Hx0) _ Hit. split.
    + apply unrecorded_pass with (r := r) (st := st0) (s := Running);
        [exact Hu0 | | exact Hit].
      intros Hb. apply Hx0. apply batch_at_incl with (i := idx st0) in Hb; [exact Hb | lia].
    + apply iteration_any in Hit. destruct Hit as (_ & Hi & _).
      destruct Hi as [Hi|(_ & _ & Hi)]; rewrite Hi; [exact Hx0|].
      rewrite Nat.add_comm, <- skipn_skipn. intros Hin. apply Hx0.
      now apply in_skipn in Hin.
  - intros r st0 s0 st1 (Hu0 & Hx0) _ Hit _.
    apply unrecorded_pass with (r := r) (st := st0) (s := s0);
      [exact Hu0 | | exact Hit].
    intros Hb. apply Hx0. apply batch_at_incl with (i := idx st0) in Hb; [exact Hb | lia].
  - tauto.
  - intros st0 (Hu0 & _) _.
    apply unrecorded_update with (st := st0); [exact Hu0 | | now right].
    intros k Hin. now left.
  - split; assumption.
Qed.

End ShortAnswer.

(** C10, amended.  Over ids that are pairwise distinct as JSON keys: when a
    batch is answered with status 200 and the pass runs to its end, the
    pointer moves on by [batch_size] whatever the number of entries; an id
    of the batch beyond the last entry gets no value in that pass, is in no
    later request of the run, still has no value when the run ends or
    stops, and is in the work-set a later run computes from the file the
    run leaves. *)
Theorem short_answer
        (process_response_f : json -> option json) (batch_size : nat)
        (query_fields query_url : string)
        (f : option document) (ids : list Identifier) (x : Identifier)
        (rs1 : list Response) (st1 : state) (r : Response)
        (body : json) (entries : list json) (st2 : state) :
  let F := filter_ids ids (load f) in
  NoDup (map key_name ids) ->
  batch_query process_response_f batch_size query_fields query_url f ids rs1
  = (Running, st1) ->
  status_code r = 200%Z -> parsed r = Some body -> py_iter body = Some entries ->
  In x (skipn (length entries) (batch_at batch_size F (idx st1))) ->
  iteration process_response_f batch_size query_fields query_url F r st1
  = (Running, st2) ->
  length entries < length (batch_at batch_size F (idx st1)) /\
  idx st2 = idx st1 + batch_size /\
  get x (data st2) = None /\
  forall rs3 s st3,
    batch_query process_response_f batch_size query_fields query_url f ids
                (rs1 ++ r :: rs3) = (s, st3) ->
    (exists later,
        requests (trace st3) = requests (trace st2) ++ later /\
        forall b, In b later -> ~ In x b) /\
    get x (data st3) = None /\
    In x (filter_ids ids (load (file st3))).
Proof.
  intros F ND H1 Hs Hp Hit Hx H2.
  assert (Hb : In x (batch_at batch_size F (idx st1))) by (now apply in_skipn in Hx).
  assert (Hpend : In x (skipn (idx st1) F)).
  { apply batch_at_incl with (i := idx st1) in Hb; [exact Hb | lia]. }
  assert (HF : In x F) by (now apply in_skipn in Hpend).
  assert (Hi : idx st2 = idx st1 + batch_size).
  { pose proof H2 as H. apply iteration_running in H. simpl in H.
    destruct H as [(N & _)|(_ & _ & Hi & _)]; [contradiction | exact Hi]. }
  assert (Hbehind : ~ In x (skipn (idx st2) F)).
  { rewrite Hi, Nat.add_comm, <- skipn_skipn.
    apply NoDup_app_disjoint with (a := batch_at batch_size F (idx st1)); [|exact Hb].
    unfold batch_at. rewrite firstn_skipn. apply NoDup_skipn.
    apply filter_ids_NoDup. now apply NoDup_map_inv in ND. }
  assert (Hu1 : unrecorded x st1).
  { apply unrecorded_while_pending
      with (process_response_f := process_response_f) (batch_size := batch_size)
           (query_fields := query_fields) (query_url := query_url)
           (f := f) (ids := ids) (rs := rs1); assumption. }
  assert (Hu2 : unrecorded x st2).
  { apply unrecorded_short
      with (process_response_f := process_response_f) (batch_size := batch_size)
           (query_fields := query_fields) (query_url := query_url)
           (f := f) (ids := ids) (r := r) (st := st1) (body := body)
           (entries := entries); assumption. }
  assert (Hget : forall st, unrecorded x st -> get x (data st) = None).
  { intros st (Hd & _). apply get_None. intros Hin. apply Hd in Hin. tauto. }
  split; [|split; [exact Hi|split; [now apply Hget|]]].
  - destruct (Nat.lt_ge_cases (length entries)
                              (length (batch_at batch_size F (idx st1)))) as [L|L];
      [exact L|].
    rewrite skipn_all2 in Hx by exact L. contradiction.
  - intros rs3 s st3 H3.
    rewrite batch_query_app with (st1 := st1) in H3 by exact H1.
    pose proof H1 as L. unfold batch_query in L. simpl in L. apply while_running in L.
    rewrite while_step with (st1 := st2) in H3; [|exact L|exact H2].
    assert (Hu3 : unrecorded x st3).
    { apply unrecorded_after
        with (process_response_f := process_response_f) (batch_size := batch_size)
             (query_fields := query_fields) (query_url := query_url)
             (f := f) (ids := ids) (rs := rs3) (st := st2) (s := s); assumption. }
    split; [|split; [now apply Hget|]].
    + apply while_requests in H3. destruct H3 as (later & Hl & Hall).
      exists later. split; [exact Hl|]. intros b Hin Hxb.
      rewrite Forall_forall in Hall. destruct (Hall b Hin) as (i & Hle & ->).
      apply batch_at_incl with (i := idx st2) in Hxb; [|exact Hle]. contradiction.
    + apply filter_ids_In. split.
      * apply filter_ids_In in HF. tauto.
      * apply Hu3.
Qed.

(** ** More concrete runs *)

(** [end_to_end_scenario] with the transform that keeps the entry and the
    throttling answer of the API. *)
Lemma end_to_end_scenario_witness :
  exists st,
    batch_query keep_entry 2 "year" "https://api/paper/batch" None
      [IdI 1; IdI 2; IdI 3; IdI 4; IdI 5]
      [answer ("[" ++ year_text "2020" ++ ", null]") [year 2020; JNull];
       too_many_requests;
       answer ("[" ++ year_text "2019" ++ ", " ++ year_text "2021" ++ "]")
              [year 2019; year 2021];
       answer ("[" ++ year_text "2018" ++ "]") [year 2018]]
    = (Returned, st) /\
    length (requests (trace st)) = 4 /\
    data st = [(IdI 1, year 2020); (IdI 2, JNull); (IdI 3, year 2019);
               (IdI 4, year 2021); (IdI 5, year 2018)].
Proof.
  destruct (@end_to_end_scenario keep_entry "year" "https://api/paper/batch"
              (answer ("[" ++ year_text "2020" ++ ", null]") [year 2020; JNull])
              too_many_requests
              (answer ("[" ++ year_text "2019" ++ ", " ++ year_text "2021" ++ "]")
                      [year 2019; year 2021])
              (answer ("[" ++ year_text "2018" ++ "]") [year 2018])
              (year 2020) (year 2019) (year 2021) (year 2018))
    as (st & Hrun & _ & Hlen & _ & Hdata & _);
    try reflexivity.
  - simpl. lia.
  - left. reflexivity.
  - exists st. repeat split; assumption.
Defined.

(** What holds of C2: throttling responses the code survives (the
    throttling text, or any JSON body) leave the checkpoint and the pointer
    alone, and the batch is sent again after a pause of the raised delay. *)
Lemma throttled_twice_then_answered (r1 r2 : Response) :
  ~ (200 <= status_code r1 < 300)%Z -> contains "error" (text r1) = false ->
  contains "Too Many Requests" (text r1) = true \/ parsed r1 <> None ->
  ~ (200 <= status_code r2 < 300)%Z -> contains "error" (text r2) = false ->
  contains "Too Many Requests" (text r2) = true \/ parsed r2 <> None ->
  exists st,
    batch_query keep_entry 3 "year" "https://api/paper/batch" None
      [IdS "a"; IdS "b"; IdS "c"]
      [r1; r2; answer "[1, null, 2]" [JNum 1; JNull; JNum 2]]
    = (Returned, st) /\
    requests (trace st)
    = [[IdS "a"; IdS "b"; IdS "c"]; [IdS "a"; IdS "b"; IdS "c"];
       [IdS "a"; IdS "b"; IdS "c"]] /\
    data st = [(IdS "a", JNum 1); (IdS "b", JNull); (IdS "c", JNum 2)] /\
    sleeps (trace st)
    = [on_throttled QUERY_BASE_DELAY;
       on_throttled (on_throttled QUERY_BASE_DELAY);
       on_success (on_throttled (on_throttled QUERY_BASE_DELAY))].
Proof.
  intros S1 E1 B1 S2 E2 B2.
  assert (S1' : status_code r1 <> 200%Z) by lia.
  assert (S2' : status_code r2 <> 200%Z) by lia.
  eexists. split.
  - unfold batch_query. cbn [initial load data filter_ids filter contains_key negb].
    erewrite while_step;
      [| cbn; lia
       | rewrite throttled_pass with (1 := S1') (2 := E1) (3 := B1); reflexivity].
    erewrite while_step;
      [| cbn; lia
       | rewrite throttled_pass with (1 := S2') (2 := E2) (3 := B2); reflexivity].
    erewrite while_step; [| cbn; lia | reflexivity].
    apply while_done. cbn. lia.
  - repeat split.
Qed.

(** [no_requery] on a run over two distinct ids, one by one. *)
Lemma no_requery_witness :
  exists later,
    requests (trace (snd (batch_query keep_entry 1 "year" "https://api/paper/batch"
                            None [IdS "a"; IdS "b"]
                            ([answer "[null]" [JNull]] ++ [answer "[null]" [JNull]]))))
    = requests (trace (snd (batch_query keep_entry 1 "year" "https://api/paper/batch"
                              None [IdS "a"; IdS "b"] [answer "[null]" [JNull]])))
      ++ later /\
    forall b, In b later -> ~ In (IdS "a") b.
Proof.
  destruct (no_requery keep_entry 1 "year" "https://api/paper/batch") as (A & _).
  destruct (A None [IdS "a"; IdS "b"] [answer "[null]" [JNull]]
              [answer "[null]" [JNull]]
              (snd (batch_query keep_entry 1 "year" "https://api/paper/batch"
                      None [IdS "a"; IdS "b"] [answer "[null]" [JNull]]))
              Returned
              (snd (batch_query keep_entry 1 "year" "https://api/paper/batch"
                      None [IdS "a"; IdS "b"]
                      ([answer "[null]" [JNull]] ++ [answer "[null]" [JNull]]))))
    as (later & Hl & Hno).
  - repeat constructor; simpl; intuition discriminate.
  - reflexivity.
  - reflexivity.
  - exists later. split; [exact Hl|]. apply Hno. simpl. now left.
Defined.

(** C1 as stated fails in two ways.  An id listed twice is requested again
    after it got its value: the work-set is computed once, from the loaded
    checkpoint.  And an integer id that got its value in a run which saved
    the checkpoint is requested again by the next run from that file: the
    file holds it under the string "7", which is not the key 7. *)
Lemma requeried_ids :
  (exists st1 st2,
      batch_query keep_entry 1 "year" "https://api/paper/batch" None
        [IdS "a"; IdS "a"] [answer "[null]" [JNull]] = (Running, st1) /\
      get (IdS "a") (data st1) = Some JNull /\
      batch_query keep_entry 1 "year" "https://api/paper/batch" None
        [IdS "a"; IdS "a"] [answer "[null]" [JNull]; answer "[null]" [JNull]]
      = (Returned, st2) /\
      requests (trace st2) = requests (trace st1) ++ [[IdS "a"]])
  /\
  (exists st1 st2,
      batch_query keep_entry 1 "papers.year" "https://api/author/batch" None
        [IdI 7] [answer "[null]" [JNull]] = (Returned, st1) /\
      get (IdI 7) (data st1) = Some JNull /\
      file st1 = Some [("7", JNull)] /\
      batch_query keep_entry 1 "papers.year" "https://api/author/batch" (file st1)
        [IdI 7] [answer "[null]" [JNull]] = (Returned, st2) /\
      requests (trace st2) = [[IdI 7]]).
Proof.
  split; do 2 eexists; repeat split.
Qed.

(** [short_answer] on a first batch of two ids answered with one entry. *)
Lemma short_answer_witness :
  get (IdS "b")
      (data (snd (iteration keep_entry 2 "year" "https://api/paper/batch"
                    [IdS "a"; IdS "b"; IdS "c"] (answer "[null]" [JNull])
                    (initial None))))
  = None /\
  idx (snd (iteration keep_entry 2 "year" "https://api/paper/batch"
              [IdS "a"; IdS "b"; IdS "c"] (answer "[null]" [JNull])
              (initial None)))
  = 2.
Proof.
  destruct (@short_answer keep_entry 2 "year" "https://api/paper/batch"
              None [IdS "a"; IdS "b"; IdS "c"] (IdS "b")
              [] (initial None) (answer "[null]" [JNull])
              (JArr [JNull]) [JNull]
              (snd (iteration keep_entry 2 "year" "https://api/paper/batch"
                      [IdS "a"; IdS "b"; IdS "c"] (answer "[null]" [JNull])
                      (initial None))))
    as (_ & Hi & Hg & _); try reflexivity.
  - repeat constructor; simpl; intuition discriminate.
  - simpl. now left.
  - split; assumption.
Defined.

(** C10 as stated fails in three ways.  A 201 answer is a 2xx answer, yet
    the pointer stays and the batch is sent again.  An id listed twice is
    requested again though the pointer moved past the short answer.  And an
    id left without a value is dropped from the work-set of the next run
    when another id of the list is saved under its name. *)
Lemma short_answer_exceptions :
  (exists st,
      batch_query keep_entry 2 "year" "https://api/paper/batch" None
        [IdS "a"; IdS "b"]
        [mkResponse 201 "[null]" (Some (JArr [JNull])); answer "[null]" [JNull]]
      = (Returned, st) /\
      requests (trace st) = [[IdS "a"; IdS "b"]; [IdS "a"; IdS "b"]])
  /\
  (exists st,
      batch_query keep_entry 2 "year" "https://api/paper/batch" None
        [IdS "a"; IdS "b"; IdS "b"]
        [answer "[null]" [JNull]; answer "[null]" [JNull]]
      = (Returned, st) /\
      requests (trace st) = [[IdS "a"; IdS "b"]; [IdS "b"]])
  /\
  (exists st,
      batch_query keep_entry 1 "year" "https://api/paper/batch" None
        [IdS "7"; IdI 7]
        [answer "[]" []; answer "[null]" [JNull]]
      = (Returned, st) /\
      get (IdS "7") (data st) = None /\
      filter_ids [IdS "7"; IdI 7] (load (file st)) = [IdI 7]).
Proof.
  split; [|split]; eexists; repeat split.
Qed.

(** * Further properties of [batch_query] *)

Lemma set_app_r (id : Identifier) (v : json) (d0 a : dict) :
  ~ In id (keys d0) -> set id v (d0 ++ a) = d0 ++ set id v a.
Proof.
  induction d0 as [|[k w] d0 IH]; simpl; intros N; [reflexivity|].
  destruct (id_eqb id k) eqn:E.
  - apply id_eqb_eq in E. subst. intuition.
  - rewrite IH; intuition.
Qed.

Lemma keys_set_cases (id : Identifier) (v : json) (d : dict) :
  (In id (keys d) /\ keys (set id v d) = keys d)
  \/ (~ In id (keys d) /\ keys (set id v d) = keys d ++ [id]).
Proof.
  induction d as [|[k w] d IH]; simpl.
  - right. split; [tauto | reflexivity].
  - destruct (id_eqb id k) eqn:E; simpl.
    + apply id_eqb_eq in E. subst. left. split; [now left | reflexivity].
    + apply id_eqb_neq in E. destruct IH as [(Hin & ->)|(Hn & ->)].
      * left. split; [now right | reflexivity].
      * right. split; [intros [H|H]; congruence | reflexivity].
Qed.

Lemma NoDup_keys_set (id : Identifier) (v : json) (d : dict) :
  NoDup (keys d) -> NoDup (keys (set id v d)).
Proof.
  intros ND. destruct (keys_set_cases id v d) as [(_ & ->)|(Hn & ->)]; [exact ND|].
  apply NoDup_rev in ND. rewrite <- (rev_involutive (keys d ++ [id])).
  apply NoDup_rev. rewrite rev_app_distr. simpl. constructor; [|exact ND].
  now rewrite <- in_rev.
Qed.

Lemma NoDup_keys_json_load (doc : document) : NoDup (keys (json_load doc)).
Proof.
  unfold json_load.
  assert (G : forall d, NoDup (keys d) ->
    NoDup (keys (fold_left (fun d kv => set (IdS (fst kv)) (snd kv) d) doc d))).
  { induction doc as [|kv doc IH]; simpl; intros d ND; [exact ND|].
    apply IH. now apply NoDup_keys_set. }
  apply G. constructor.
Qed.

Lemma NoDup_keys_load (f : option document) : NoDup (keys (load f)).
Proof. destruct f; simpl; [apply NoDup_keys_json_load | constructor]. Qed.

Lemma str_keys_load (f : option document) : Forall str_key (keys (load f)).
Proof.
  apply Forall_forall. intros k Hk. destruct f as [doc|]; simpl in Hk; [|contradiction].
  apply keys_json_load in Hk. destruct Hk as (name & -> & _). exact I.
Qed.

Lemma in_firstn_add {A : Type} (a b : nat) (l : list A) (x : A) :
  In x (firstn (a + b) l) -> In x (firstn a l) \/ In x (firstn b (skipn a l)).
Proof.
  revert l. induction a as [|a IH]; intros l H; [now right|].
  destruct l as [|y l]; [contradiction|].
  simpl in *. destruct H as [H|H]; [left; now left|].
  apply IH in H. tauto.
Qed.

Lemma combine_app_long {A B : Type} (l : list A) (e extra : list B) :
  length l <= length e -> combine l (e ++ extra) = combine l e.
Proof.
  revert e. induction l as [|x l IH]; intros [|y e] L; simpl in *; try lia; trivial.
  f_equal. apply IH. lia.
Qed.

Lemma map_fst_combine_long {A B : Type} (l : list A) (e : list B) :
  length l <= length e -> map fst (combine l e) = l.
Proof.
  revert e. induction l as [|x l IH]; intros [|y e] L; simpl in *; try lia; trivial.
  f_equal. apply IH. lia.
Qed.

Section More.

Variable process_response_f : json -> option json.
Variable batch_size : nat.
Variables query_fields query_url : string.

Local Abbreviation merge := (merge process_response_f).
Local Abbreviation stored := (stored process_response_f).
Local Abbreviation iteration := (iteration process_response_f batch_size query_fields query_url).
Local Abbreviation while := (while process_response_f batch_size query_fields query_url).
Local Abbreviation batch_query := (batch_query process_response_f batch_size query_fields query_url).
Local Abbreviation batch_at := (batch_at batch_size).
Local Abbreviation advance := (advance batch_size).

(** The zip loop only assigns: what the checkpoint held before stays where
    it was, and the new keys follow in the order they were first met. *)
Lemma merge_appends (pairs : list (Identifier * json)) (st : state) s st' (d0 a : dict) :
  merge pairs st = (s, st') -> data st = d0 ++ a ->
  (forall k, In k (map fst pairs) -> ~ In k (keys d0)) ->
  exists a', data st' = d0 ++ a' /\
             forall k, In k (keys a') -> In k (keys a) \/ In k (map fst pairs).
Proof.
  revert st a. induction pairs as [|[id e] pairs IH]; simpl; intros st a H Hd Hfresh.
  - inversion H; subst. exists a. auto.
  - assert (Hstep : forall w st1, data st1 = data st ->
              merge pairs (assign id w st1) = (s, st') ->
              exists a', data st' = d0 ++ a' /\
                forall k, In k (keys a') -> In k (keys a) \/ id = k \/ In k (map fst pairs)).
    { intros w st1 E H1.
      apply IH with (a := set id w a) in H1.
      - destruct H1 as (a' & Ha' & Hk). exists a'. split; [exact Ha'|].
        intros k Hin. apply Hk in Hin. rewrite keys_set in Hin. intuition.
      - simpl. rewrite E, Hd. apply set_app_r. apply Hfresh. now left.
      - intros k Hin. apply Hfresh. now right. }
    destruct (is_None e).
    + apply (Hstep JNull st eq_refl H).
    + destruct (process_response_f e) as [r|].
      * apply (Hstep r (log (Call e) st) eq_refl H).
      * inversion H; subst. simpl. exists a. auto.
Qed.

Lemma merge_NoDup (pairs : list (Identifier * json)) (st : state) s st' :
  merge pairs st = (s, st') -> NoDup (keys (data st)) -> NoDup (keys (data st')).
Proof.
  revert st. induction pairs as [|[id e] pairs IH]; simpl; intros st H ND.
  - now inversion H; subst.
  - destruct (is_None e).
    + apply IH in H; [exact H|]. simpl. now apply NoDup_keys_set.
    + destruct (process_response_f e).
      * apply IH in H; [exact H|]. simpl. now apply NoDup_keys_set.
      * now inversion H; subst.
Qed.

(** The checkpoint after a pass is the old one or the result of the zip
    loop over the batch. *)
Lemma iteration_data F (r : Response) (st : state) s st' :
  iteration F r st = (s, st') ->
  data st' = data st \/
  exists entries s1 st1,
    merge (combine (batch_at F (idx st)) entries)
          (log (Post query_url query_fields (batch_at F (idx st))) st) = (s1, st1) /\
    data st' = data st1.
Proof.
  unfold iteration. intros H.
  destruct (status_code r =? 200)%Z; simpl in H.
  - destruct (parsed r) as [body|]; [|inversion H; subst; simpl; auto].
    destruct (py_iter body) as [entries|]; [|inversion H; subst; simpl; auto].
    destruct (merge _ _) as [s1 st1] eqn:Hm. right.
    exists entries, s1, st1. split; [exact Hm|].
    destruct s1; try (inversion H; subst; reflexivity).
    apply advance_spec in H. now destruct H as (-> & _).
  - destruct (contains "error" (text r)); [inversion H; subst; simpl; auto|].
    destruct (negb (contains "Too Many Requests" (text r)));
      [destruct (parsed r)|]; inversion H; subst; simpl; auto.
Qed.

Lemma get_app_l (k : Identifier) (d0 a : dict) :
  In k (keys d0) -> get k (d0 ++ a) = get k d0.
Proof.
  induction d0 as [|[k' w] d0 IH]; simpl; intros H; [contradiction|].
  destruct (id_eqb k k') eqn:E; [reflexivity|].
  apply IH. destruct H as [->|H]; [now rewrite id_eqb_refl in E | exact H].
Qed.

(** The checkpoint in memory is the loaded one followed by entries for ids
    of the work-set, and each key occurs once. *)
Lemma run_appends f ids (rs : list Response) s st :
  batch_query f ids rs = (s, st) ->
  (exists added,
      data st = load f ++ added /\
      forall k, In k (keys added) -> In k (filter_ids ids (load f))) /\
  NoDup (keys (data st)).
Proof.
  intros H.
  assert (Hpass : forall r st0 s0 st1,
       ((exists added, data st0 = load f ++ added /\
           forall k, In k (keys added) -> In k (filter_ids ids (load f))) /\
        NoDup (keys (data st0))) ->
       iteration (filter_ids ids (load f)) r st0 = (s0, st1) ->
       (exists added, data st1 = load f ++ added /\
           forall k, In k (keys added) -> In k (filter_ids ids (load f))) /\
       NoDup (keys (data st1))).
    { intros r st0 s0 st1 ((a & Ha & Hk) & ND) Hit. apply iteration_data in Hit.
      destruct Hit as [->|(entries & s1 & st2 & Hm & ->)]; [eauto|].
      assert (Hb : forall k,
                 In k (map fst (combine (batch_at (filter_ids ids (load f)) (idx st0))
                                        entries)) ->
                 In k (filter_ids ids (load f))).
      { intros k Hin. rewrite in_map_iff in Hin. destruct Hin as ([k' e] & <- & Hin).
        apply in_combine_l in Hin.
        apply batch_at_incl with (i := 0) in Hin; [exact Hin | lia]. }
      split.
      - apply merge_appends with (d0 := load f) (a := a) in Hm.
        + destruct Hm as (a' & Ha' & Hk'). exists a'. split; [exact Ha'|].
          intros k Hin. apply Hk' in Hin. destruct Hin as [Hin|Hin]; auto.
        + exact Ha.
        + intros k Hin. apply Hb in Hin. apply filter_ids_In in Hin. tauto.
      - apply merge_NoDup in Hm; [exact Hm | exact ND]. }
    unfold batch_query in H. simpl in H.
    pose proof (@while_inv process_response_f batch_size query_fields query_url
                  (filter_ids ids (load f))
                  (fun st => (exists added, data st = load f ++ added /\
                       forall k, In k (keys added) -> In k (filter_ids ids (load f))) /\
                     NoDup (keys (data st)))
                  (fun _ st => (exists added, data st = load f ++ added /\
                       forall k, In k (keys added) -> In k (filter_ids ids (load f))) /\
                     NoDup (keys (data st)))) as W.
    eapply W; [| | | | |exact H]; clear W H; auto.
    - intros r st0 st1 Inv _ Hit. eapply Hpass; eauto.
    - intros r st0 s0 st1 Inv _ Hit _. eapply Hpass; eauto.
    - split; [|apply NoDup_keys_load]. exists []. simpl. rewrite app_nil_r.
      split; [reflexivity | contradiction].
Qed.

(** X1.  A run never removes, moves or changes what the checkpoint held
    when it was loaded: the checkpoint in memory is always the loaded one
    followed by entries for ids of the work-set, each key once. *)
Theorem checkpoint_only_grows f ids (rs : list Response) s st :
  batch_query f ids rs = (s, st) ->
  (exists added,
      data st = load f ++ added /\
      forall k, In k (keys added) -> In k (filter_ids ids (load f))) /\
  NoDup (keys (data st)) /\
  forall k, In k (keys (load f)) -> get k (data st) = get k (load f).
Proof.
  intros H. apply run_appends in H.
  destruct H as ((a & Ha & Hk) & ND). split; [eauto|]. split; [exact ND|].
  intros k Hin. rewrite Ha. now apply get_app_l.
Qed.

(** X2.  A run that returns has sent every id of its work-set in some
    request. *)
Theorem returned_run_requested_all f ids (rs : list Response) st :
  batch_query f ids rs = (Returned, st) ->
  forall id, In id (filter_ids ids (load f)) ->
             exists b, In b (requests (trace st)) /\ In id b.
Proof.
  intros H. unfold batch_query in H. simpl in H.
  assert (G : forall s st',
             while (filter_ids ids (load f)) rs (initial f) = (s, st') ->
             s = Returned ->
             forall id, In id (filter_ids ids (load f)) ->
                        exists b, In b (requests (trace st')) /\ In id b).
  2:{ exact (G _ _ H eq_refl). }
  clear H st. intros s st' H.
  pose proof (@while_inv process_response_f batch_size query_fields query_url
                (filter_ids ids (load f))
                (fun st => forall id,
                     In id (firstn (idx st) (filter_ids ids (load f))) ->
                     exists b, In b (requests (trace st)) /\ In id b)
                (fun s st => s = Returned ->
                   forall id, In id (filter_ids ids (load f)) ->
                              exists b, In b (requests (trace st)) /\ In id b)) as W.
  eapply W; [| | | | |exact H]; clear W H.
  - intros r st0 st1 Inv _ Hit id Hin. apply iteration_any in Hit.
    destruct Hit as (Hr & Hi & _). rewrite Hr.
    assert (Hold : In id (firstn (idx st0) (filter_ids ids (load f))) ->
                   exists b, In b (requests (trace st0)
                                   ++ [batch_at (filter_ids ids (load f)) (idx st0)])
                             /\ In id b).
    { intros Hin0. destruct (Inv id Hin0) as (b & Hb & Hid).
      exists b. split; [apply in_or_app; now left | exact Hid]. }
    destruct Hi as [Hi|(_ & _ & Hi)]; rewrite Hi in Hin; [auto|].
    apply in_firstn_add in Hin. destruct Hin as [Hin|Hin]; [auto|].
    exists (batch_at (filter_ids ids (load f)) (idx st0)).
    split; [apply in_or_app; right; now left | exact Hin].
  - intros r st0 s0 st1 _ _ Hit _ ->. now apply iteration_not_returned in Hit.
  - intros st0 _ _ E. discriminate.
  - intros st0 Inv L _ id Hin. simpl. rewrite requests_app. simpl.
    rewrite app_nil_r. apply Inv. now rewrite firstn_all2.
  - simpl. contradiction.
Qed.

(** X3.  Integer ids are never filtered out: whatever the file holds, the
    work-set of a list of integer ids is the whole list, because the keys
    [json.load] gives are all strings. *)
Theorem integer_ids_never_filtered (f : option document) (ids : list Identifier) :
  Forall (fun id => ~ str_key id) ids -> filter_ids ids (load f) = ids.
Proof.
  intros Hint. unfold filter_ids. apply forallb_filter_id. apply forallb_forall.
  intros id Hin. apply negb_true_iff, contains_key_false. intros Hk.
  rewrite Forall_forall in Hint. apply (Hint id Hin).
  pose proof (str_keys_load f) as Hs. rewrite Forall_forall in Hs. now apply Hs.
Qed.

Lemma json_load_distinct (doc : document) (d : dict) :
  NoDup (keys d ++ map (fun kv => IdS (fst kv)) doc) ->
  fold_left (fun d kv => set (IdS (fst kv)) (snd kv) d) doc d
  = d ++ map (fun kv => (IdS (fst kv), snd kv)) doc.
Proof.
  revert d. induction doc as [|[name v] doc IH]; simpl; intros d ND.
  - now rewrite app_nil_r.
  - rewrite set_fresh.
    + rewrite IH; [now rewrite <- app_assoc|].
      unfold keys. rewrite map_app, <- app_assoc. exact ND.
    + apply NoDup_remove_2 in ND. intros Hin. apply ND. apply in_or_app. now left.
Qed.

(** Writing back what was read from a file whose member names are distinct
    gives the same file. *)
Lemma dump_load (doc : document) :
  NoDup (map fst doc) -> json_dump (json_load doc) = doc.
Proof.
  intros ND. unfold json_load. rewrite json_load_distinct.
  - simpl. unfold json_dump. rewrite map_map. simpl.
    rewrite <- (map_id doc) at 2. apply map_ext. now intros [name v].
  - simpl. rewrite <- (map_map fst IdS). apply NoDup_map_inj; [|exact ND].
    intros a b E. now injection E.
Qed.

Lemma run_without_work f ids (rs : list Response) :
  (forall id, In id ids -> In id (keys (load f))) ->
  batch_query f ids rs = (Returned, dump (initial f)).
Proof.
  intros Hall.
  assert (E : filter_ids ids (load f) = []).
  { unfold filter_ids. destruct (filter _ ids) as [|x l] eqn:Hf; [reflexivity|].
    assert (Hx : In x (filter (fun id => negb (contains_key id (load f))) ids))
      by (rewrite Hf; now left).
    apply filter_In in Hx. destruct Hx as (Hx & Hn).
    apply negb_true_iff, contains_key_false in Hn. exfalso. apply Hn. now apply Hall. }
  unfold batch_query. simpl data. rewrite E. apply while_done. simpl. lia.
Qed.

(** X4.  When every requested id is already a key of the loaded checkpoint
    (an empty list included), the run sends no request and calls no
    transform; it writes the loaded checkpoint to the file and returns.  A
    missing file is created, holding the empty object; a file whose member
    names are distinct is rewritten with the content it had. *)
Theorem nothing_to_do f ids (rs : list Response) :
  (forall id, In id ids -> In id (keys (load f))) ->
  exists st,
    batch_query f ids rs = (Returned, st) /\
    trace st = [Dump (json_dump (load f))] /\
    data st = load f /\
    file st = Some (json_dump (load f)) /\
    (f = None -> file st = Some []) /\
    (forall doc, f = Some doc -> NoDup (map fst doc) -> file st = f).
Proof.
  intros Hall. exists (dump (initial f)).
  split; [now apply run_without_work|]. simpl. repeat split.
  - intros ->. reflexivity.
  - intros doc -> ND. simpl. now rewrite dump_load.
Qed.

Lemma returned_reload f ids (rs : list Response) st :
  Forall str_key ids ->
  batch_query f ids rs = (Returned, st) ->
  load (file st) = data st.
Proof.
  intros Hstr H.
  pose proof H as Hk. pose proof H as Ha. apply run_appends in Ha.
  destruct Ha as (_ & ND).
  assert (Hs : Forall str_key (keys (data st))).
  { apply Forall_forall. intros k Hin.
    apply keys_from_run with (k := k) in Hk; [|exact Hin].
    destruct Hk as [Hk|Hk].
    - pose proof (str_keys_load f) as Hl. rewrite Forall_forall in Hl. now apply Hl.
    - rewrite Forall_forall in Hstr. now apply Hstr. }
  unfold batch_query in H. simpl in H. apply while_returned in H.
  destruct H as (st1 & _ & ->). simpl in *.
  unfold json_load. rewrite load_dump_from.
  - simpl. now apply rekey_str.
  - simpl. now rewrite rename_str.
Qed.

(** X5.  Over string ids, what a returned run leaves in the file reloads to
    exactly the checkpoint it had in memory, so the work-set of the next run
    over the same list is the ids that got no value. *)
Theorem returned_file_reloads f ids (rs : list Response) st :
  Forall str_key ids ->
  batch_query f ids rs = (Returned, st) ->
  load (file st) = data st /\
  filter_ids ids (load (file st)) = filter_ids ids (data st) /\
  forall id, In id (filter_ids ids (load (file st)))
             <-> In id ids /\ get id (data st) = None.
Proof.
  intros Hstr H.
  assert (Hload : load (file st) = data st) by (eapply returned_reload; eauto).
  split; [exact Hload|]. split; [now rewrite Hload|].
  intros id. rewrite Hload, filter_ids_In, get_None. reflexivity.
Qed.

(** Induction over the passes of a run whose responses all satisfy [R]. *)
Lemma while_inv_on F (R : Response -> Prop) (P : state -> Prop)
      (Q : status -> state -> Prop) :
  (forall r st st', R r -> P st -> idx st < length F ->
                    iteration F r st = (Running, st') -> P st') ->
  (forall r st s st', R r -> P st -> idx st < length F ->
                      iteration F r st = (s, st') -> s <> Running -> Q s st') ->
  (forall st, P st -> idx st < length F -> Q Running st) ->
  (forall st, P st -> length F <= idx st -> Q Returned (dump st)) ->
  forall rs st s st', Forall R rs -> P st -> while F rs st = (s, st') -> Q s st'.
Proof.
  intros Hstep Hhalt Hwait Hdone rs.
  induction rs as [|r rs IH]; simpl; intros st s st' HR HP H.
  - destruct (idx st <? length F)%nat eqn:L; inversion H; subst.
    + apply Hwait; [assumption | now apply Nat.ltb_lt].
    + apply Hdone; [assumption | now apply Nat.ltb_ge].
  - inversion HR as [|? ? Hr HR']; subst.
    destruct (idx st <? length F)%nat eqn:L.
    + apply Nat.ltb_lt in L.
      destruct (iteration F r st) as [s1 st1] eqn:Hit.
      destruct s1; try (inversion H; subst; eapply Hhalt; eauto; discriminate).
      eapply IH; [exact HR' | | exact H]. eapply Hstep; eauto.
    + inversion H; subst. apply Hdone; [assumption | now apply Nat.ltb_ge].
Qed.

Lemma merge_keys_all (pairs : list (Identifier * json)) (st st' : state) :
  merge pairs st = (Running, st') ->
  forall k, In k (map fst pairs) -> In k (keys (data st')).
Proof.
  revert st. induction pairs as [|[id e] pairs IH]; simpl; intros st H k Hin;
    [contradiction|].
  assert (Hstep : forall w st1, merge pairs (assign id w st1) = (Running, st') ->
                                In k (keys (data st'))).
  { intros w st1 H1. destruct Hin as [<-|Hin].
    - apply merge_data in H1. destruct H1 as (Hk & _). apply Hk. simpl.
      apply keys_set. now left.
    - eapply IH; eauto. }
  destruct (is_None e); [eapply Hstep; eauto|].
  destruct (process_response_f e); [eapply Hstep; eauto | discriminate].
Qed.

(** After complete answers, every id behind the pointer has a value. *)
Lemma covered_run f ids (rs : list Response) st :
  Forall (complete batch_size) rs ->
  batch_query f ids rs = (Returned, st) ->
  forall id, In id ids -> In id (keys (data st)).
Proof.
  intros Hc H.
  assert (HF : forall id, In id (filter_ids ids (load f)) -> In id (keys (data st))).
  { unfold batch_query in H. simpl in H.
    pose proof (@while_inv_on (filter_ids ids (load f)) (complete batch_size)
                  (fun st => forall id,
                       In id (firstn (idx st) (filter_ids ids (load f))) ->
                       In id (keys (data st)))
                  (fun s st => s = Returned ->
                     forall id, In id (filter_ids ids (load f)) ->
                                In id (keys (data st)))) as W.
    eapply W; [| | | | exact Hc | | exact H | reflexivity]; clear W H.
    - intros r st0 st1 Hr Inv _ Hit id Hin.
      apply iteration_running in Hit. simpl in Hit.
      destruct Hit as [(_ & _ & Hd & Hi & _)
                      |(Hs & _ & Hi & _ & body & entries & st2 & Hp & Hpi & Hm & Hd & _)].
      + unfold keys. rewrite Hd. apply Inv. now rewrite <- Hi.
      + unfold keys. rewrite Hd. rewrite Hi in Hin. apply in_firstn_add in Hin.
        destruct Hin as [Hin|Hin].
        * apply merge_data in Hm. destruct Hm as (Hk & _). apply Hk. simpl.
          now apply Inv.
        * apply merge_keys_all with (k := id) in Hm; [exact Hm|].
          rewrite map_fst_combine_long; [exact Hin|].
          specialize (Hr body entries Hs Hp Hpi).
          pose proof (firstn_le_length batch_size
                        (skipn (idx st0) (filter_ids ids (load f)))) as Hl.
          unfold batch_at. lia.
    - intros r st0 s0 st1 _ _ _ Hit _ ->. now apply iteration_not_returned in Hit.
    - intros st0 _ _ E. discriminate.
    - intros st0 Inv L _ id Hin. simpl. apply Inv. now rewrite firstn_all2.
    - simpl. contradiction. }
  intros id Hin.
  destruct (contains_key id (load f)) eqn:E.
  - apply contains_key_In in E. apply run_appends in H.
    destruct H as ((a & Ha & _) & _). unfold keys. rewrite Ha, map_app.
    apply in_or_app. now left.
  - apply HF. apply filter_ids_In. split; [exact Hin|]. now apply contains_key_false.
Qed.

(** X6.  After a run over string ids that returned and whose answers all
    had an entry for every id of a full batch, every requested id has a
    value, and running again from the file it left sends no request, calls
    no transform and leaves checkpoint and file as they are. *)
Theorem complete_run_is_final f ids (rs rs2 : list Response) st :
  Forall str_key ids ->
  Forall (complete batch_size) rs ->
  batch_query f ids rs = (Returned, st) ->
  (forall id, In id ids -> get id (data st) <> None) /\
  exists st2,
    batch_query (file st) ids rs2 = (Returned, st2) /\
    requests (trace st2) = [] /\ calls (trace st2) = [] /\
    data st2 = data st /\ file st2 = file st.
Proof.
  intros Hstr Hc H.
  pose proof (covered_run _ _ Hc H) as Hcov.
  pose proof (returned_reload _ _ Hstr H) as Hload.
  split.
  - intros id Hin E. apply get_None in E. apply E. now apply Hcov.
  - exists (dump (initial (file st))). split.
    + apply run_without_work. intros id Hin. rewrite Hload. now apply Hcov.
    + simpl. rewrite Hload. repeat split.
      unfold batch_query in H. simpl in H. apply while_returned in H.
      destruct H as (st1 & _ & ->). reflexivity.
Qed.

Lemma merge_runs (pairs : list (Identifier * json)) (st : state) :
  Forall (fun e => stored e <> None) (map snd pairs) ->
  exists st', merge pairs st = (Running, st').
Proof.
  revert st. induction pairs as [|[id e] pairs IH]; simpl; intros st Hall.
  - eauto.
  - inversion Hall as [|? ? He Hall']; subst. unfold stored in He.
    destruct (is_None e); [now apply IH|].
    destruct (process_response_f e); [now apply IH | congruence].
Qed.

Lemma Forall_snd_combine {A B : Type} (P : B -> Prop) (l : list A) (e : list B) :
  Forall P e -> Forall P (map snd (combine l e)).
Proof.
  intros H. apply Forall_forall. intros y Hy. rewrite in_map_iff in Hy.
  destruct Hy as ([a b] & <- & Hin). apply in_combine_r in Hin.
  rewrite Forall_forall in H. now apply H.
Qed.

(** An answered pass with a positive batch size moves the pointer on. *)
Lemma answered_pass F (r : Response) (st : state) :
  0 < batch_size -> answered process_response_f r ->
  exists st', iteration F r st = (Running, st') /\ idx st' = idx st + batch_size.
Proof.
  intros Hb (Hs & body & entries & Hp & Hit & Hall).
  rewrite iteration_200 with (body := body) (entries := entries) by assumption.
  destruct (merge_runs (combine (batch_at F (idx st)) entries)
              (log (Post query_url query_fields (batch_at F (idx st))) st))
    as (st1 & Hm); [now apply Forall_snd_combine|].
  rewrite Hm. destruct (advance st1) as [s st'] eqn:Ha.
  apply merge_frame in Hm. destruct Hm as (Hi & _). simpl in Hi.
  apply advance_spec in Ha.
  destruct Ha as (_ & Hidx & _ & [(Hz & _)|(_ & -> & _)]); [lia|].
  exists st'. split; [reflexivity | lia].
Qed.

Lemma answered_while F (rs : list Response) (st : state) :
  0 < batch_size -> Forall (answered process_response_f) rs ->
  length F <= idx st + batch_size * length rs ->
  exists st' later,
    while F rs st = (Returned, st') /\
    requests (trace st') = requests (trace st) ++ later /\
    length later <= length rs /\
    length F <= idx st + length later * batch_size /\
    (length later = 0 \/ idx st + (length later - 1) * batch_size < length F).
Proof.
  intros Hb Hall. revert st.
  induction Hall as [|r rs Hr Hall IH]; intros st L.
  - exists (dump st), []. simpl in L. rewrite while_done by lia. simpl.
    rewrite requests_app. simpl. rewrite !app_nil_r. repeat split; auto; lia.
  - destruct (Nat.le_gt_cases (length F) (idx st)) as [Hd|Hlt].
    + exists (dump st), []. rewrite while_done by lia. simpl.
      rewrite requests_app. simpl. rewrite !app_nil_r. repeat split; auto; lia.
    + destruct (answered_pass F st Hb Hr) as (st1 & Hit & Hi).
      rewrite while_step with (st1 := st1); [|exact Hlt|exact Hit].
      destruct (IH st1) as (st' & later & Hrun & Hreq & Hlen & Hcov & Hmin).
      { simpl in L. rewrite Hi. lia. }
      exists st', (batch_at F (idx st) :: later). split; [exact Hrun|].
      apply iteration_any in Hit. destruct Hit as (Hr1 & _).
      rewrite Hreq, Hr1, <- app_assoc. simpl.
      repeat split; trivial; try lia.
      right. rewrite Nat.sub_0_r. destruct Hmin as [Hz|Hm].
      * rewrite Hz. simpl. lia.
      * destruct (length later) as [|n]; [simpl; lia|].
        simpl in Hm. rewrite Nat.sub_0_r in Hm. simpl. lia.
Qed.

(** X7.  With a positive batch size, when every response is a 200 answer
    whose body can be iterated and on whose entries the transform returns,
    the run returns as soon as the responses cover the work-set: after
    exactly as many requests as the work-set has batches, the smallest [n]
    with [n * batch_size] at least the length of the work-set. *)
Theorem answered_run_returns f ids (rs : list Response) :
  0 < batch_size ->
  Forall (answered process_response_f) rs ->
  length (filter_ids ids (load f)) <= batch_size * length rs ->
  exists st,
    batch_query f ids rs = (Returned, st) /\
    length (requests (trace st)) <= length rs /\
    length (filter_ids ids (load f)) <= length (requests (trace st)) * batch_size /\
    (length (requests (trace st)) = 0
     \/ (length (requests (trace st)) - 1) * batch_size
        < length (filter_ids ids (load f))).
Proof.
  intros Hb Hall L. unfold batch_query. simpl data.
  destruct (answered_while (filter_ids ids (load f)) (initial f) Hb Hall)
    as (st & later & Hrun & Hreq & Hlen & Hcov & Hmin); [simpl; lia|].
  exists st. simpl in Hreq, Hcov, Hmin. rewrite Hreq. auto.
Qed.

(** X8.  The zip stops at the shorter list: entries of an answer beyond the
    number of ids in the batch are ignored.  The pass ends in the same
    state, with the same trace (so the transform is called on none of
    them), as on the answer without them. *)
Theorem surplus_entries_ignored F (r r' : Response) (st : state) entries extra :
  status_code r = 200%Z -> parsed r = Some (JArr (entries ++ extra)) ->
  status_code r' = 200%Z -> parsed r' = Some (JArr entries) ->
  length (batch_at F (idx st)) <= length entries ->
  iteration F r st = iteration F r' st.
Proof.
  intros Hs Hp Hs' Hp' L.
  rewrite iteration_200 with (body := JArr (entries ++ extra))
                             (entries := entries ++ extra) by (trivial).
  rewrite iteration_200 with (r := r') (body := JArr entries)
                             (entries := entries) by (trivial).
  now rewrite combine_app_long.
Qed.

(** The zip loop raises only through the transform, at the first entry on
    which it raises; the pairs before it are merged. *)
Lemma merge_raises (pairs : list (Identifier * json)) (st : state) e st' :
  merge pairs st = (Uncaught e, st') ->
  e = TransformError /\
  exists before id entry after st1,
    pairs = before ++ (id, entry) :: after /\
    merge before st = (Running, st1) /\
    is_None entry = false /\ process_response_f entry = None /\
    st' = log (Call entry) st1.
Proof.
  revert st. induction pairs as [|[id en] pairs IH]; simpl; intros st H;
    [discriminate|].
  assert (Hstep : forall st1,
             merge [(id, en)] st = (Running, st1) ->
             merge pairs st1 = (Uncaught e, st') ->
             e = TransformError /\
             exists before id0 entry after st2,
               (id, en) :: pairs = before ++ (id0, entry) :: after /\
               merge before st = (Running, st2) /\
               is_None entry = false /\ process_response_f entry = None /\
               st' = log (Call entry) st2).
  { intros st1 H1 H2. apply IH in H2.
    destruct H2 as (-> & before & id0 & entry & after & st2 & -> & Hb & Hn & Hf & ->).
    split; [reflexivity|].
    exists ((id, en) :: before), id0, entry, after, st2. repeat split; trivial.
    change ((id, en) :: before) with ([(id, en)] ++ before).
    now rewrite merge_app, H1. }
  destruct (is_None en) eqn:En.
  - apply (Hstep (assign id JNull st)); [simpl; now rewrite En | exact H].
  - destruct (process_response_f en) as [v|] eqn:Ev.
    + apply (Hstep (assign id v (log (Call en) st))); [simpl; now rewrite En, Ev | exact H].
    + inversion H; subst. split; [reflexivity|].
      exists [], id, en, pairs, st. repeat split; trivial.
Qed.

(** X9.  A pass that ends with an exception, whichever it is, has made its
    request and then neither paused, nor written the file, nor moved the
    pointer, and the run ends there without the final dump.  The checkpoint
    in memory is as it was before the pass, unless it was the transform
    that raised, on an aligned non-null entry of a 200 answer: then the
    pairs before that entry are merged, in memory only. *)
Theorem pass_exceptions F (r : Response) (st : state) e st' :
  iteration F r st = (Uncaught e, st') ->
  idx st' = idx st /\ file st' = file st /\
  dumps (trace st') = dumps (trace st) /\
  sleeps (trace st') = sleeps (trace st) /\
  requests (trace st') = requests (trace st) ++ [batch_at F (idx st)] /\
  (forall rs, idx st < length F -> while F (r :: rs) st = (Uncaught e, st')) /\
  (data st' = data st
   \/
   (status_code r = 200%Z /\
    exists body entries before id entry after st1,
      parsed r = Some body /\ py_iter body = Some entries /\
      combine (batch_at F (idx st)) entries = before ++ (id, entry) :: after /\
      merge before (log (Post query_url query_fields (batch_at F (idx st))) st)
      = (Running, st1) /\
      entry <> JNull /\ process_response_f entry = None /\
      data st' = data st1)).
Proof.
  intros H.
  assert (Hwhile : forall rs, idx st < length F ->
                              while F (r :: rs) st = (Uncaught e, st')).
  { intros rs L. simpl. apply Nat.ltb_lt in L. now rewrite L, H. }
  pose proof H as Hany. apply iteration_any in Hany.
  destruct Hany as (Hreq & Hidx & _).
  assert (Hi : idx st' = idx st) by (destruct Hidx as [Hi|(Hs & _)]; [exact Hi | discriminate]).
  pose proof H as Hd. apply iteration_dumps in Hd.
  destruct Hd as [(Hf & Hd)|(Hs & _)]; [|discriminate].
  assert (Hpost : sleeps (trace st ++ [Post query_url query_fields (batch_at F (idx st))])
                  = sleeps (trace st)).
  { rewrite sleeps_app. simpl. apply app_nil_r. }
  cut (sleeps (trace st') = sleeps (trace st) /\
       (data st' = data st
        \/
        (status_code r = 200%Z /\
         exists body entries before id entry after st1,
           parsed r = Some body /\ py_iter body = Some entries /\
           combine (batch_at F (idx st)) entries = before ++ (id, entry) :: after /\
           merge before (log (Post query_url query_fields (batch_at F (idx st))) st)
           = (Running, st1) /\
           entry <> JNull /\ process_response_f entry = None /\
           data st' = data st1))).
  { intros (Hsl & Hcase). repeat split; trivial. }
  clear Hwhile Hreq Hidx Hi Hf Hd.
  unfold iteration in H.
  destruct (status_code r =? 200)%Z eqn:Hs; simpl in H.
  - apply Z.eqb_eq in Hs.
    destruct (parsed r) as [body|] eqn:Hp.
    2:{ inversion H; subst; simpl. split; [exact Hpost | now left]. }
    destruct (py_iter body) as [entries|] eqn:Hit.
    2:{ inversion H; subst; simpl. split; [exact Hpost | now left]. }
    destruct (merge _ _) as [s1 st1] eqn:Hm.
    pose proof Hm as Hfr. apply merge_frame in Hfr.
    destruct Hfr as (_ & _ & _ & cs & Ht). simpl in Ht.
    pose proof Hm as Hst. apply merge_status in Hst. destruct Hst as [-> | ->].
    + apply advance_spec in H.
      destruct H as (Hdata & _ & _ & [(Hz & He & _ & Htr)|(_ & ? & _)]); [|discriminate].
      split.
      * now rewrite Htr, Ht, sleeps_calls.
      * left. rewrite Hdata.
        revert Hm. unfold batch_at. rewrite Hz. simpl. intros Hm. now inversion Hm.
    + inversion H; subst. split; [now rewrite Ht, sleeps_calls|].
      apply merge_raises in Hm.
      destruct Hm as (_ & before & id & entry & after & st2 & Hc & Hb & Hn & Hf & ->).
      right. split; [exact Hs|].
      exists body, entries, before, id, entry, after, st2. repeat split; trivial.
      intros ->. discriminate.
  - apply Z.eqb_neq in Hs.
    destruct (contains "error" (text r)) eqn:He; [discriminate|].
    destruct (contains "Too Many Requests" (text r)) eqn:Ht; simpl in H; [discriminate|].
    destruct (parsed r) eqn:Hp; [discriminate|].
    inversion H; subst; simpl. split; [exact Hpost | now left].
Qed.

End More.

(** X10.  With a batch size of zero and a work-set that is not empty the
    run never returns and never merges anything: every request is for no id
    at all, checkpoint and file stay as loaded, throttling responses keep
    the loop going, and the first 200 answer whose body can be iterated
    ends the run with the division by zero of line 100. *)
Theorem zero_batch_size
        (process_response_f : json -> option json) (query_fields query_url : string)
        f ids (rs : list Response) s st :
  filter_ids ids (load f) <> [] ->
  batch_query process_response_f 0 query_fields query_url f ids rs = (s, st) ->
  s <> Returned /\ data st = load f /\ file st = f /\
  Forall (fun b => b = []) (requests (trace st)) /\
  (s = Running ->
   forall r rs2 body entries,
     status_code r = 200%Z -> parsed r = Some body -> py_iter body = Some entries ->
     exists st',
       batch_query process_response_f 0 query_fields query_url f ids (rs ++ r :: rs2)
       = (Uncaught ZeroDivisionError, st') /\
       data st' = load f /\ file st' = f).
Proof.
  intros HF H.
  assert (G : s <> Returned /\ idx st = 0 /\ data st = load f /\ file st = f /\
              Forall (fun b => b = []) (requests (trace st))).
  { unfold batch_query in H. simpl in H.
    assert (Hpass : forall r st0 s0 st1,
               (idx st0 = 0 /\ data st0 = load f /\ file st0 = f /\
                Forall (fun b => b = []) (requests (trace st0))) ->
               iteration process_response_f 0 query_fields query_url
                         (filter_ids ids (load f)) r st0 = (s0, st1) ->
               s0 <> Returned /\ idx st1 = 0 /\ data st1 = load f /\ file st1 = f /\
               Forall (fun b => b = []) (requests (trace st1))).
    { intros r st0 s0 st1 (Hi & Hd & Hf & Hr) Hit.
      pose proof Hit as Hany. apply iteration_any in Hany.
      destruct Hany as (Hreq & Hidx & _).
      pose proof Hit as Hdat. apply iteration_data in Hdat.
      pose proof Hit as Hdu. apply iteration_dumps in Hdu.
      split; [intros ->; now apply iteration_not_returned in Hit|].
      split; [destruct Hidx as [->|(_ & ? & _)]; [exact Hi | lia]|].
      split; [|split].
      - destruct Hdat as [->|(entries & s1 & st2 & Hm & ->)]; [exact Hd|].
        unfold batch_at in Hm. simpl in Hm. now inversion Hm.
      - destruct Hdu as [(-> & _)|(-> & _)]; [exact Hf|].
        apply iteration_running in Hit. simpl in Hit.
        destruct Hit as [(_ & _ & _ & _ & -> & _)|(_ & ? & _)]; [exact Hf | lia].
      - rewrite Hreq. apply Forall_app. split; [exact Hr|].
        constructor; [reflexivity | constructor]. }
    pose proof (@while_inv process_response_f 0 query_fields query_url
                  (filter_ids ids (load f))
                  (fun st => idx st = 0 /\ data st = load f /\ file st = f /\
                             Forall (fun b => b = []) (requests (trace st)))
                  (fun s st => s <> Returned /\ idx st = 0 /\ data st = load f /\
                               file st = f /\
                               Forall (fun b => b = []) (requests (trace st)))) as W.
    eapply W; [| | | | |exact H]; clear W H.
    - intros r st0 st1 Inv _ Hit. eapply Hpass in Hit; [|exact Inv]. tauto.
    - intros r st0 s0 st1 Inv _ Hit _. eapply Hpass; eauto.
    - intros st0 Inv _. split; [discriminate | exact Inv].
    - intros st0 (Hi & _) L. exfalso. apply HF.
      destruct (filter_ids ids (load f)); [reflexivity | simpl in L; lia].
    - simpl. repeat split. constructor. }
  destruct G as (Hs & Hi & Hd & Hf & Hr). repeat split; trivial.
  intros -> r rs2 body entries Hst Hp Hit.
  rewrite batch_query_app with (st1 := st) by exact H.
  pose proof H as L. unfold batch_query in L. simpl in L. apply while_running in L.
  simpl. apply Nat.ltb_lt in L. rewrite L.
  rewrite iteration_200 with (body := body) (entries := entries) by assumption.
  unfold batch_at. simpl. eexists. split; [reflexivity|]. simpl. auto.
Qed.

(** * The transforms *)

Lemma bind_Return {A B : Type} (x : Py.result A) (k : A -> Py.result B) (b : B) :
  Py.bind x k = Py.Return b -> exists a, x = Py.Return a /\ k a = Py.Return b.
Proof. destruct x; simpl; [eauto | discriminate]. Qed.

Lemma bind_Raise {A B : Type} (x : Py.result A) (k : A -> Py.result B) e :
  Py.bind x k = Py.Raise e ->
  x = Py.Raise e \/ exists a, x = Py.Return a /\ k a = Py.Raise e.
Proof. destruct x; simpl; [eauto | intros [= ->]; now left]. Qed.

Lemma getitem_KeyError (j : json) (key k : string) :
  Py.getitem j key = Py.Raise (Py.KeyError k) -> k = key.
Proof.
  destruct j; simpl; try discriminate.
  destruct (Py.lookup key members); [discriminate|]. now intros [= ->].
Qed.

Lemma iter_raises (j : json) e : Py.iter j = Py.Raise e -> e = Py.TypeError.
Proof. unfold Py.iter. destruct (py_iter j); [discriminate|]. now intros [= <-]. Qed.

Lemma NoDup_snoc {A : Type} (l : list A) (x : A) :
  NoDup l -> ~ In x l -> NoDup (l ++ [x]).
Proof.
  induction l as [|y l IH]; simpl; intros ND Hn.
  - constructor; [tauto | constructor].
  - inversion ND; subst. constructor.
    + rewrite in_app_iff. simpl. intros [H|[H|[]]]; [tauto | subst; tauto].
    + apply IH; tauto.
Qed.

Lemma in_add_int (z x : Z) (s : list Z) : In z (Py.add_int x s) <-> z = x \/ In z s.
Proof.
  unfold Py.add_int. destruct (existsb (Z.eqb x) s) eqn:E.
  - split; [tauto|]. intros [->|H]; [|exact H].
    apply existsb_exists in E. destruct E as (y & Hy & Ey).
    apply Z.eqb_eq in Ey. now subst.
  - rewrite in_app_iff. simpl. split.
    + intros [H|[H|[]]]; auto.
    + intros [H|H]; auto.
Qed.

Lemma NoDup_add_int (x : Z) (s : list Z) : NoDup s -> NoDup (Py.add_int x s).
Proof.
  intros ND. unfold Py.add_int. destruct (existsb (Z.eqb x) s) eqn:E; [exact ND|].
  apply NoDup_snoc; [exact ND|]. intros Hin.
  assert (existsb (Z.eqb x) s = true); [|congruence].
  apply existsb_exists. exists x. split; [exact Hin | apply Z.eqb_refl].
Qed.

Lemma in_list_set_int_from (l : list Z) (s : list Z) (z : Z) :
  In z (fold_left (fun s z => Py.add_int z s) l s) <-> In z s \/ In z l.
Proof.
  revert s. induction l as [|x l IH]; simpl; intros s; [tauto|].
  rewrite IH, in_add_int. intuition auto.
Qed.

Lemma NoDup_list_set_int_from (l : list Z) (s : list Z) :
  NoDup s -> NoDup (fold_left (fun s z => Py.add_int z s) l s).
Proof.
  revert s. induction l as [|x l IH]; simpl; intros s ND; [exact ND|].
  apply IH. now apply NoDup_add_int.
Qed.

Lemma in_list_set_int (l : list Z) (z : Z) : In z (Py.list_set_int l) <-> In z l.
Proof. unfold Py.list_set_int. rewrite in_list_set_int_from. simpl. tauto. Qed.

Lemma NoDup_list_set_int (l : list Z) : NoDup (Py.list_set_int l).
Proof. apply NoDup_list_set_int_from. constructor. Qed.

Section CitingAuthors.

Variable int_of_str : string -> option Z.

Local Abbreviation int := (int int_of_str).
Local Abbreviation author_id := (author_id int_of_str).
Local Abbreviation add_authors := (add_authors int_of_str).
Local Abbreviation citation_year := (citation_year int_of_str).
Local Abbreviation try_citation := (try_citation int_of_str).
Local Abbreviation citations_loop := (citations_loop int_of_str).
Local Abbreviation get_citing_authors := (get_citing_authors int_of_str).
Local Abbreviation reached := (reached int_of_str).
Local Abbreviation counted := (counted int_of_str).

Lemma int_raises (j : json) e :
  int j = Py.Raise e -> e = Py.TypeError \/ e = Py.ValueError.
Proof.
  destruct j; simpl; try discriminate; try (intros [= <-]; now left).
  destruct (int_of_str s); [discriminate|]. intros [= <-]. now right.
Qed.

Lemma author_id_KeyError (a : json) k :
  author_id a = Py.Raise (Py.KeyError k) -> k = "authorId".
Proof.
  unfold author_id. intros H. apply bind_Raise in H.
  destruct H as [H|(v & _ & H)]; [now apply getitem_KeyError in H|].
  apply int_raises in H. destruct H; discriminate.
Qed.

Lemma citation_year_KeyError (c : json) k :
  citation_year c = Py.Raise (Py.KeyError k) -> k = "year".
Proof.
  unfold citation_year. intros H. apply bind_Raise in H.
  destruct H as [H|(v & _ & H)]; [now apply getitem_KeyError in H|].
  apply int_raises in H. destruct H; discriminate.
Qed.

Lemma citation_authors_KeyError (c : json) k :
  citation_authors c = Py.Raise (Py.KeyError k) -> k = "authors".
Proof.
  unfold citation_authors. intros H. apply bind_Raise in H.
  destruct H as [H|(v & _ & H)]; [now apply getitem_KeyError in H|].
  apply iter_raises in H. discriminate.
Qed.

(** The inner loop: what it leaves in the set, and where it stops. *)
Lemma add_authors_spec (l : list json) (acc acc' : list Z) oe :
  add_authors l acc = (acc', oe) ->
  (NoDup acc -> NoDup acc') /\
  (forall z, In z acc' <-> In z acc \/ reached l z) /\
  (forall e, oe = Some e -> exists a, In a l /\ author_id a = Py.Raise e).
Proof.
  revert acc. induction l as [|author rest IH]; simpl; intros acc H.
  - inversion H; subst. repeat split; auto; try discriminate.
    intros [Hin|(pre & a & post & E & _)]; [exact Hin|].
    now destruct pre.
  - destruct (author_id author) as [w|e0] eqn:Ha.
    + apply IH in H. destruct H as (ND & Hin & He). repeat split.
      * intros N. apply ND. now apply NoDup_add_int.
      * rewrite Hin, in_add_int.
        intros [[->|Hz]|(pre & a & post & E & Hpre & Hz)].
        -- right. exists [], author, rest. repeat split; auto.
        -- now left.
        -- right. exists (author :: pre), a, post. subst rest.
           repeat split; auto. constructor; eauto.
      * rewrite Hin, in_add_int.
        intros [Hz|(pre & a & post & E & Hpre & Hz)]; [auto|].
        destruct pre as [|b pre]; simpl in E; injection E as <- E.
        -- left. left. congruence.
        -- right. exists pre, a, post. inversion Hpre; subst. auto.
      * intros e Hoe. destruct (He e Hoe) as (a & Hin' & Hr). eauto.
    + inversion H; subst. repeat split; auto.
      * intros [Hz|(pre & a & post & E & Hpre & Hz)]; [exact Hz|].
        destruct pre as [|b pre]; simpl in E; injection E as <- E.
        -- congruence.
        -- inversion Hpre as [|? ? (w & Hw) ?]; subst. congruence.
      * intros e [= <-]. eauto.
Qed.

Lemma try_citation_spec (c : json) (py cy : Z) (acc acc' : list Z) oe :
  try_citation c py cy acc = (acc', oe) ->
  (NoDup acc -> NoDup acc') /\
  (forall z, In z acc' <-> In z acc \/ counted py cy c z) /\
  (forall k, oe = Some (Py.KeyError k) -> k = "year" \/ k = "authors" \/ k = "authorId").
Proof.
  unfold try_citation, counted. intros H.
  destruct (citation_year c) as [year|e] eqn:Hy.
  2:{ inversion H; subst. repeat split; auto.
      - intros [Hz|(y & items & ? & _)]; [exact Hz | discriminate].
      - intros k [= ->]. left. now apply citation_year_KeyError in Hy. }
  destruct (year <? py + cy)%Z eqn:Hlt.
  2:{ inversion H; subst. repeat split; auto; try discriminate.
      intros [Hz|(y & items & [= <-] & L & _)]; [exact Hz|].
      apply Z.ltb_ge in Hlt. lia. }
  apply Z.ltb_lt in Hlt.
  destruct (citation_authors c) as [items|e] eqn:Hi.
  2:{ inversion H; subst. repeat split; auto.
      - intros [Hz|(y & items & _ & _ & ? & _)]; [exact Hz | discriminate].
      - intros k [= ->]. right. left. now apply citation_authors_KeyError in Hi. }
  apply add_authors_spec in H. destruct H as (ND & Hin & He). repeat split; auto.
  - rewrite Hin. intros [Hz|Hz]; [now left|]. right. exists year, items. auto.
  - rewrite Hin. intros [Hz|(y & its & _ & _ & [= <-] & Hz)]; auto.
  - intros k Hk. destruct (He _ Hk) as (a & _ & Ha).
    right. right. now apply author_id_KeyError in Ha.
Qed.

Lemma citations_loop_spec (cs : list json) (py cy : Z) (acc : list Z) :
  match citations_loop cs py cy acc with
  | Py.Return zs =>
      (NoDup acc -> NoDup zs) /\
      (forall z, In z zs <-> In z acc \/ exists c, In c cs /\ counted py cy c z)
  | Py.Raise e =>
      e <> Py.TypeError /\
      (forall k, e = Py.KeyError k -> k = "year" \/ k = "authors" \/ k = "authorId")
  end.
Proof.
  revert acc. induction cs as [|c cs IH]; simpl; intros acc.
  - split; auto. intros z. split; [auto|]. intros [H|(c & [] & _)]. exact H.
  - destruct (try_citation c py cy acc) as [acc1 oe] eqn:Ht.
    apply try_citation_spec in Ht. destruct Ht as (ND & Hin & Hk).
    assert (Hgo : match citations_loop cs py cy acc1 with
                  | Py.Return zs =>
                      (NoDup acc -> NoDup zs) /\
                      (forall z, In z zs <->
                                 In z acc \/ exists c0, (c = c0 \/ In c0 cs) /\ counted py cy c0 z)
                  | Py.Raise e =>
                      e <> Py.TypeError /\
                      (forall k, e = Py.KeyError k ->
                                 k = "year" \/ k = "authors" \/ k = "authorId")
                  end).
    { specialize (IH acc1). destruct (citations_loop cs py cy acc1) as [zs|e]; [|exact IH].
      destruct IH as (ND' & Hin'). split; [auto|].
      intros z. rewrite Hin', Hin. split.
      - intros [[H|H]|(c0 & H0 & H1)]; eauto.
      - intros [H|(c0 & [<-|H0] & H1)]; eauto. }
    destruct oe as [[k| |]|]; try exact Hgo.
    + split; [discriminate|]. intros k' [= <-]. now apply Hk.
    + split; [discriminate|]. discriminate.
Qed.

(** X11.  When [get_citing_authors] returns, the list has no duplicates and
    holds exactly the ids counted for some citation: the citation's year,
    as an int, is strictly below [paper_year + citation_years], and the
    author is reached by the inner loop, that is, the author and all the
    authors listed before it in that citation give an id. *)
Theorem citing_authors_exact (l : json) (citations : list json) (py cy : Z)
        (zs : list Z) :
  py_iter l = Some citations ->
  get_citing_authors l py cy = Py.Return zs ->
  NoDup zs /\
  forall z, In z zs <-> exists c, In c citations /\ counted py cy c z.
Proof.
  unfold get_citing_authors, Py.iter. intros -> H. simpl in H.
  pose proof (citations_loop_spec citations py cy []) as S. rewrite H in S.
  destruct S as (ND & Hin). split; [apply ND; constructor|].
  intros z. rewrite Hin. simpl. tauto.
Qed.

(** X12.  [get_citing_authors] raises a [TypeError] exactly when its first
    argument cannot be iterated (a null, a number, a boolean): every
    [TypeError] raised while a citation is handled is swallowed by the
    [except] clause.  A [KeyError] is not caught, and names "year",
    "authors" or "authorId". *)
Theorem citing_authors_exceptions (l : json) (py cy : Z) :
  (get_citing_authors l py cy = Py.Raise Py.TypeError <-> py_iter l = None) /\
  (forall k, get_citing_authors l py cy = Py.Raise (Py.KeyError k) ->
             k = "year" \/ k = "authors" \/ k = "authorId").
Proof.
  unfold get_citing_authors, Py.iter.
  destruct (py_iter l) as [citations|]; simpl.
  - pose proof (citations_loop_spec citations py cy []) as S.
    destruct (citations_loop citations py cy []) as [zs|e].
    + split; [split; discriminate | discriminate].
    + destruct S as (Hne & Hk). split.
      * split; [intros [= ->]; now elim Hne | discriminate].
      * intros k [= ->]. now apply Hk.
  - split; [tauto | discriminate].
Qed.

Lemma add_authors_cut (pre post : list json) (nul : json) (acc : list Z) :
  author_id nul = Py.Raise Py.TypeError ->
  fst (add_authors (pre ++ nul :: post) acc) = fst (add_authors pre acc) /\
  snd (add_authors (pre ++ nul :: post) acc)
  = match snd (add_authors pre acc) with
    | None => Some Py.TypeError
    | Some e => Some e
    end.
Proof.
  intros Hn. revert acc. induction pre as [|a pre IH]; simpl; intros acc.
  - rewrite Hn. simpl. auto.
  - destruct (author_id a); simpl; auto.
Qed.

(** X13.  The authors of a citation that come after an author whose id
    raises a [TypeError] (a null [authorId], an author that is no dict) are
    not counted for that citation: the result is the one for the citation
    cut before that author. *)
Theorem null_author_id_cuts_citation (before after : list json) (c c' : json)
        (py cy year : Z) (pre post : list json) (nul : json) :
  citation_year c = Py.Return year ->
  citation_year c' = Py.Return year ->
  citation_authors c = Py.Return (pre ++ nul :: post) ->
  citation_authors c' = Py.Return pre ->
  author_id nul = Py.Raise Py.TypeError ->
  get_citing_authors (JArr (before ++ c :: after)) py cy
  = get_citing_authors (JArr (before ++ c' :: after)) py cy.
Proof.
  intros Hy Hy' Ha Ha' Hn. unfold get_citing_authors. simpl.
  generalize (@nil Z) as acc.
  induction before as [|b before IH]; simpl; intros acc.
  - unfold try_citation. rewrite Hy, Hy', Ha, Ha'.
    destruct (year <? py + cy)%Z; [|reflexivity].
    destruct (@add_authors_cut pre post nul acc Hn) as (E1 & E2).
    destruct (add_authors (pre ++ nul :: post) acc) as [acc1 oe1].
    destruct (add_authors pre acc) as [acc2 oe2].
    simpl in E1, E2. subst acc1 oe1.
    destruct oe2 as [[k| |]|]; reflexivity.
  - destruct (try_citation b py cy acc) as [acc1 [[k| |]|]]; auto.
Qed.

End CitingAuthors.

(** ** Dicts *)

Lemma lookup_store_same (k : string) (v : json) m :
  Py.lookup k (Py.store k v m) = Some v.
Proof.
  induction m as [|[k' w] m IH]; simpl.
  - now rewrite String.eqb_refl.
  - destruct (String.eqb k k') eqn:E; simpl; rewrite E; auto.
Qed.

Lemma lookup_store_other (k k' : string) (v : json) m :
  k <> k' -> Py.lookup k (Py.store k' v m) = Py.lookup k m.
Proof.
  intros N. induction m as [|[k0 w] m IH]; simpl.
  - apply String.eqb_neq in N. now rewrite N.
  - destruct (String.eqb k' k0) eqn:E; simpl.
    + apply String.eqb_eq in E. subst k0.
      apply String.eqb_neq in N. now rewrite N.
    + now rewrite IH.
Qed.

Lemma lookup_remove_other (k k' : string) m :
  k <> k' -> Py.lookup k (Py.remove k' m) = Py.lookup k m.
Proof.
  intros N. induction m as [|[k0 w] m IH]; simpl; [reflexivity|].
  destruct (String.eqb k' k0) eqn:E; simpl.
  - apply String.eqb_eq in E. subst k0.
    apply String.eqb_neq in N. now rewrite N.
  - now rewrite IH.
Qed.

Lemma lookup_absent (k : string) m : ~ In k (map fst m) -> Py.lookup k m = None.
Proof.
  induction m as [|[k0 w] m IH]; simpl; intros N; [reflexivity|].
  destruct (String.eqb k k0) eqn:E.
  - apply String.eqb_eq in E. subst k0. exfalso. apply N. now left.
  - apply IH. tauto.
Qed.

Lemma lookup_remove_same (k : string) m :
  NoDup (map fst m) -> Py.lookup k (Py.remove k m) = None.
Proof.
  induction m as [|[k0 w] m IH]; simpl; intros ND; [reflexivity|].
  inversion ND; subst.
  destruct (String.eqb k k0) eqn:E; simpl.
  - apply String.eqb_eq in E. subst k0. now apply lookup_absent.
  - rewrite E. now apply IH.
Qed.

Lemma names_remove (k x : string) m :
  In x (map fst (Py.remove k m)) -> In x (map fst m).
Proof.
  induction m as [|[k0 w] m IH]; simpl; [tauto|].
  destruct (String.eqb k k0); simpl; tauto.
Qed.

Lemma NoDup_remove_names (k : string) m :
  NoDup (map fst m) -> NoDup (map fst (Py.remove k m)).
Proof.
  induction m as [|[k0 w] m IH]; simpl; intros ND; [constructor|].
  inversion ND; subst. destruct (String.eqb k k0); simpl; [assumption|].
  constructor; [|auto]. intros Hin. now apply names_remove in Hin.
Qed.

Lemma names_store (k x : string) (v : json) m :
  In x (map fst (Py.store k v m)) -> x = k \/ In x (map fst m).
Proof.
  induction m as [|[k0 w] m IH]; simpl; [intuition auto|].
  destruct (String.eqb k k0); simpl; tauto.
Qed.

Lemma NoDup_store_names (k : string) (v : json) m :
  NoDup (map fst m) -> NoDup (map fst (Py.store k v m)).
Proof.
  induction m as [|[k0 w] m IH]; simpl; intros ND.
  - constructor; [tauto | constructor].
  - inversion ND; subst. destruct (String.eqb k k0) eqn:E; simpl.
    + now constructor.
    + constructor; [|auto]. intros Hin. apply names_store in Hin.
      destruct Hin as [->|Hin]; [|tauto]. now rewrite String.eqb_refl in E.
Qed.

Lemma getitem_obj (m : list (string * json)) (k : string) (v : json) :
  Py.getitem (JObj m) k = Py.Return v <-> Py.lookup k m = Some v.
Proof.
  simpl. destruct (Py.lookup k m); split; intros H; try discriminate; congruence.
Qed.

Lemma getitem_Return (j : json) (k : string) (v : json) :
  Py.getitem j k = Py.Return v -> exists m, j = JObj m /\ Py.lookup k m = Some v.
Proof.
  destruct j; try discriminate. intros H. apply getitem_obj in H. eauto.
Qed.

Lemma delitem_obj (m : list (string * json)) (k : string) (r : json) :
  Py.delitem (JObj m) k = Py.Return r ->
  r = JObj (Py.remove k m) /\ Py.lookup k m <> None.
Proof.
  simpl. destruct (Py.lookup k m); [|discriminate]. intros [= <-]. split; congruence.
Qed.

Lemma is_None_true (j : json) : is_None j = true <-> j = JNull.
Proof. destruct j; simpl; split; intros H; try discriminate; auto. Qed.

Lemma iter_Return (j : json) (items : list json) :
  Py.iter j = Py.Return items <-> py_iter j = Some items.
Proof.
  unfold Py.iter. destruct (py_iter j); split; intros H; try discriminate; congruence.
Qed.

Ltac bind_inv H :=
  repeat (let a := fresh "a" in
          let Ha := fresh "Ha" in
          apply bind_Return in H; destruct H as (a & Ha & H)).

Section Papers.

Variable int_of_str : string -> option Z.

Local Abbreviation int := (int int_of_str).
Local Abbreviation author_id := (author_id int_of_str).
Local Abbreviation author_ids := (author_ids int_of_str).
Local Abbreviation cited_ids := (cited_ids int_of_str).
Local Abbreviation counted := (counted int_of_str).
Local Abbreviation get_citing_authors := (get_citing_authors int_of_str).
Local Abbreviation process_paper_response := (process_paper_response int_of_str).

(** The comprehension of lines 126 and 129 skips the authors without id and
    goes on. *)
Lemma author_ids_spec (items : list json) (zs : list Z) :
  author_ids items = Py.Return zs ->
  forall z, In z zs <->
            exists tmp v, In tmp items /\ Py.getitem tmp "authorId" = Py.Return v /\
                          v <> JNull /\ int v = Py.Return z.
Proof.
  revert zs. induction items as [|tmp rest IH]; simpl; intros zs H z.
  - injection H as <-. simpl. split; [tauto|]. now intros (? & ? & [] & _).
  - apply bind_Return in H. destruct H as (a & Ha & H).
    destruct (is_None a) eqn:E.
    + apply is_None_true in E. subst a. rewrite (IH _ H z). split.
      * intros (t & v & Hin & Hv). exists t, v. tauto.
      * intros (t & v & [<-|Hin] & Hg & Hn & Hi); [congruence|].
        exists t, v. tauto.
    + bind_inv H. injection H as <-. simpl. rewrite (IH _ Ha1 z).
      unfold author_id in Ha0. rewrite Ha in Ha0. simpl in Ha0.
      assert (Hn : a <> JNull) by (intros ->; discriminate).
      split.
      * intros [<-|(t & v & Hin & Hv)]; [exists tmp, a; tauto|].
        exists t, v. tauto.
      * intros (t & v & [<-|Hin] & Hg & Hn' & Hi).
        -- left. congruence.
        -- right. exists t, v. tauto.
Qed.

Lemma cited_ids_spec (refs : list json) (zs : list Z) :
  cited_ids refs = Py.Return zs ->
  forall z, In z zs <->
            exists ref items tmp v,
              In ref refs /\ citation_authors ref = Py.Return items /\
              In tmp items /\ Py.getitem tmp "authorId" = Py.Return v /\
              v <> JNull /\ int v = Py.Return z.
Proof.
  revert zs. induction refs as [|ref rest IH]; simpl; intros zs H z.
  - injection H as <-. simpl. split; [tauto|]. now intros (? & ? & ? & ? & [] & _).
  - bind_inv H. injection H as <-. rewrite in_app_iff, (IH _ Ha2 z).
    rewrite (author_ids_spec _ Ha1 z).
    assert (Hc : citation_authors ref = Py.Return a0).
    { unfold citation_authors. rewrite Ha. exact Ha0. }
    split.
    + intros [(t & v & Hin & Hv)|(r & items & t & v & Hin & Hv)].
      * exists ref, a0, t, v. tauto.
      * exists r, items, t, v. tauto.
    + intros (r & items & t & v & [<-|Hin] & Hci & Hv).
      * left. exists t, v. rewrite Hc in Hci. injection Hci as <-. tauto.
      * right. exists r, items, t, v. tauto.
Qed.

Lemma paper_response_inv (m : list (string * json)) (r : json) :
  process_paper_response (JObj m) = Py.Return r ->
  (r = JNull /\ Py.lookup "year" m = Some JNull) \/
  exists year fos items cats cats' authors aitems azs cits py citing refs ritems czs,
    Py.lookup "year" m = Some year /\ year <> JNull /\
    Py.lookup "s2FieldsOfStudy" m = Some fos /\ py_iter fos = Some items /\
    categories items = Py.Return cats /\ Py.list_set cats = Py.Return cats' /\
    Py.lookup "authors" m = Some authors /\ py_iter authors = Some aitems /\
    author_ids aitems = Py.Return azs /\
    Py.lookup "citations" m = Some cits /\ int year = Py.Return py /\
    get_citing_authors cits py CITATION_YEARS = Py.Return citing /\
    Py.lookup "references" m = Some refs /\ py_iter refs = Some ritems /\
    cited_ids ritems = Py.Return czs /\
    Py.lookup "paperId" m <> None /\
    r = JObj (Py.remove "paperId"
               (Py.remove "references"
                 (Py.store "cited_authors" (int_list (Py.list_set_int czs))
                   (Py.remove "citations"
                     (Py.store "citing_authors" (int_list citing)
                       (Py.store "authors" (int_list (Py.list_set_int azs))
                         (Py.store "s2FieldsOfStudy" (JArr cats') m))))))).
Proof.
  unfold process_paper_response. intros H.
  apply bind_Return in H. destruct H as (year & Hy & H).
  apply getitem_obj in Hy.
  destruct (is_None year) eqn:E.
  { apply is_None_true in E. subst year. injection H as <-. now left. }
  right. bind_inv H. injection H as <-.
  simpl in Ha3. injection Ha3 as <-.
  apply getitem_obj in Ha, Ha4. rewrite lookup_store_other in Ha4 by discriminate.
  simpl in Ha7. injection Ha7 as <-.
  apply getitem_obj in Ha8, Ha9.
  rewrite !lookup_store_other in Ha8, Ha9 by discriminate.
  simpl in Ha12. injection Ha12 as <-.
  apply delitem_obj in Ha13. destruct Ha13 as (-> & _).
  apply getitem_obj in Ha14.
  rewrite lookup_remove_other, !lookup_store_other in Ha14 by discriminate.
  simpl in Ha17. injection Ha17 as <-.
  apply delitem_obj in Ha18. destruct Ha18 as (-> & _).
  apply delitem_obj in Ha19. destruct Ha19 as (-> & Hp).
  rewrite lookup_remove_other, lookup_store_other, lookup_remove_other,
    !lookup_store_other in Hp by discriminate.
  rewrite Hy in Ha9. injection Ha9 as <-.
  apply iter_Return in Ha0, Ha5, Ha15.
  exists year, a, a0, a1, a2, a4, a5, a6, a8, a10, a11, a14, a15, a16.
  repeat split; auto. intros ->. discriminate.
Qed.

Lemma citing_authors_spec (cits : json) (citations : list json) (py cy : Z)
      (zs : list Z) :
  py_iter cits = Some citations ->
  get_citing_authors cits py cy = Py.Return zs ->
  NoDup zs /\
  forall z, In z zs <-> exists c, In c citations /\ counted py cy c z.
Proof.
  unfold get_citing_authors, Py.iter. intros -> H. simpl in H.
  pose proof (citations_loop_spec int_of_str citations py cy []) as S.
  rewrite H in S.
  destruct S as (ND & Hin). split; [apply ND; constructor|].
  intros z. rewrite Hin. simpl. tauto.
Qed.

(** X14.  [process_paper_response] returns [None] exactly for a record
    whose "year" is null.  So the value [batch_query] stores for an entry of
    a paper batch is null in two cases that the checkpoint cannot tell
    apart: the service has no such paper, or the paper has no year. *)
Theorem paper_without_year (j : json) :
  (process_paper_response j = Py.Return JNull <->
   Py.getitem j "year" = Py.Return JNull) /\
  (stored (as_transform process_paper_response) j = Some JNull <->
   j = JNull \/ Py.getitem j "year" = Py.Return JNull).
Proof.
  assert (A : process_paper_response j = Py.Return JNull <->
              Py.getitem j "year" = Py.Return JNull).
  { split.
    - intros H. destruct j; try discriminate.
      apply paper_response_inv in H.
      destruct H as [(_ & H)|H]; [now apply getitem_obj|].
      destruct H as (? & ? & ? & ? & ? & ? & ? & ? & ? & ? & ? & ? & ? & ? & H).
      repeat (destruct H as (_ & H)). discriminate.
    - intros H. unfold process_paper_response. now rewrite H. }
  split; [exact A|].
  unfold stored, as_transform. destruct (is_None j) eqn:E.
  - apply is_None_true in E. tauto.
  - assert (j <> JNull) by (intros ->; discriminate).
    rewrite <- A. destruct (process_paper_response j) as [v|e]; split.
    + intros [= ->]. now right.
    + intros [?|[= ->]]; tauto.
    + discriminate.
    + intros [?|?]; [tauto | discriminate].
Qed.

(** X15.  A record that [process_paper_response] returns for a paper with a
    year is the input dict with "citations", "references" and "paperId"
    removed, "s2FieldsOfStudy", "authors", "citing_authors" and
    "cited_authors" holding lists (the last three lists of ints), and every
    other member, "year" among them, as it was. *)
Theorem paper_record_shape (m : list (string * json)) (r : json) :
  process_paper_response (JObj m) = Py.Return r ->
  r <> JNull ->
  NoDup (map fst m) ->
  exists out,
    r = JObj out /\ NoDup (map fst out) /\
    Py.lookup "citations" out = None /\
    Py.lookup "references" out = None /\
    Py.lookup "paperId" out = None /\
    (exists cats authors citing cited,
        Py.lookup "s2FieldsOfStudy" out = Some (JArr cats) /\
        Py.lookup "authors" out = Some (int_list authors) /\
        Py.lookup "citing_authors" out = Some (int_list citing) /\
        Py.lookup "cited_authors" out = Some (int_list cited)) /\
    (forall k,
        ~ In k ["s2FieldsOfStudy"; "authors"; "citing_authors"; "cited_authors";
                "citations"; "references"; "paperId"] ->
        Py.lookup k out = Py.lookup k m).
Proof.
  intros H Hr ND. apply paper_response_inv in H.
  destruct H as [(-> & _)|H]; [now elim Hr|].
  destruct H as (year & fos & items & cats & cats' & authors & aitems & azs & cits
                 & py & citing & refs & ritems & czs & H).
  repeat (destruct H as (_ & H)). subst r.
  eexists. split; [reflexivity|].
  set (m1 := Py.store "s2FieldsOfStudy" (JArr cats') m).
  set (m2 := Py.store "authors" (int_list (Py.list_set_int azs)) m1).
  set (m3 := Py.store "citing_authors" (int_list citing) m2).
  set (m4 := Py.remove "citations" m3).
  set (m5 := Py.store "cited_authors" (int_list (Py.list_set_int czs)) m4).
  set (m6 := Py.remove "references" m5).
  assert (N3 : NoDup (map fst m3)) by (repeat apply NoDup_store_names; exact ND).
  assert (N5 : NoDup (map fst m5))
    by (apply NoDup_store_names, NoDup_remove_names; exact N3).
  assert (N6 : NoDup (map fst m6)) by (apply NoDup_remove_names; exact N5).
  split; [now apply NoDup_remove_names|].
  split.
  { subst m6 m5 m4.
    rewrite !lookup_remove_other, lookup_store_other by discriminate.
    now apply lookup_remove_same. }
  split.
  { subst m6. rewrite lookup_remove_other by discriminate.
    now apply lookup_remove_same. }
  split; [now apply lookup_remove_same|].
  split.
  - exists cats', (Py.list_set_int azs), citing, (Py.list_set_int czs).
    subst m6 m5 m4 m3 m2 m1. repeat split.
    + rewrite !lookup_remove_other, lookup_store_other, lookup_remove_other,
        !lookup_store_other by discriminate.
      apply lookup_store_same.
    + rewrite !lookup_remove_other, lookup_store_other, lookup_remove_other,
        lookup_store_other by discriminate.
      apply lookup_store_same.
    + rewrite !lookup_remove_other, lookup_store_other, lookup_remove_other
        by discriminate.
      apply lookup_store_same.
    + rewrite !lookup_remove_other by discriminate. apply lookup_store_same.
  - intros k Hk. simpl in Hk. subst m6 m5 m4 m3 m2 m1.
    rewrite !lookup_remove_other, lookup_store_other, lookup_remove_other,
      !lookup_store_other by (intros ->; tauto).
    reflexivity.
Qed.

(** X16.  What the three lists of ids of a returned paper record hold.
    "authors": the ids of the authors of the paper that have one.
    "citing_authors": what [get_citing_authors] gives for the citations, the
    year of the paper and [CITATION_YEARS].  "cited_authors": the ids of
    the authors, of any reference, that have one.  Each list has no
    duplicates.  An author without id is skipped in "authors" and
    "cited_authors", where the comprehension goes on to the next author. *)
Theorem paper_authors_exact (m out : list (string * json)) :
  process_paper_response (JObj m) = Py.Return (JObj out) ->
  (exists authors aitems azs,
      Py.lookup "authors" m = Some authors /\ py_iter authors = Some aitems /\
      Py.lookup "authors" out = Some (int_list azs) /\ NoDup azs /\
      forall z, In z azs <->
                exists tmp v, In tmp aitems /\
                              Py.getitem tmp "authorId" = Py.Return v /\
                              v <> JNull /\ int v = Py.Return z) /\
  (exists year py cits citations citing,
      Py.lookup "year" m = Some year /\ int year = Py.Return py /\
      Py.lookup "citations" m = Some cits /\ py_iter cits = Some citations /\
      Py.lookup "citing_authors" out = Some (int_list citing) /\ NoDup citing /\
      forall z, In z citing <->
                exists c, In c citations /\ counted py CITATION_YEARS c z) /\
  (exists refs ritems czs,
      Py.lookup "references" m = Some refs /\ py_iter refs = Some ritems /\
      Py.lookup "cited_authors" out = Some (int_list czs) /\ NoDup czs /\
      forall z, In z czs <->
                exists ref items tmp v,
                  In ref ritems /\ citation_authors ref = Py.Return items /\
                  In tmp items /\ Py.getitem tmp "authorId" = Py.Return v /\
                  v <> JNull /\ int v = Py.Return z).
Proof.
  intros H. apply paper_response_inv in H.
  destruct H as [(? & _)|H]; [discriminate|].
  destruct H as (year & fos & items & cats & cats' & authors & aitems & azs & cits
                 & py & citing & refs & ritems & czs & Hy & _ & _ & _ & _ & _
                 & Ha & Hai & Haz & Hc & Hpy & Hci & Hr & Hri & Hcz & _ & E).
  injection E as ->.
  split; [|split].
  - exists authors, aitems, (Py.list_set_int azs). repeat split; auto.
    + rewrite !lookup_remove_other, lookup_store_other, lookup_remove_other,
        lookup_store_other by discriminate.
      apply lookup_store_same.
    + apply NoDup_list_set_int.
    + rewrite in_list_set_int. now apply author_ids_spec.
    + rewrite in_list_set_int. now apply author_ids_spec.
  - destruct (py_iter cits) as [citations|] eqn:Hit.
    2:{ unfold get_citing_authors, Py.iter in Hci. rewrite Hit in Hci. discriminate. }
    destruct (citing_authors_spec _ _ _ Hit Hci) as (ND & Hin).
    exists year, py, cits, citations, citing. repeat split; auto.
    + rewrite !lookup_remove_other, lookup_store_other, lookup_remove_other
        by discriminate.
      apply lookup_store_same.
    + now apply Hin.
    + now apply Hin.
  - exists refs, ritems, (Py.list_set_int czs). repeat split; auto.
    + rewrite !lookup_remove_other by discriminate. apply lookup_store_same.
    + apply NoDup_list_set_int.
    + rewrite in_list_set_int. now apply cited_ids_spec.
    + rewrite in_list_set_int. now apply cited_ids_spec.
Qed.

End Papers.

(** ** Sets of categories *)

Lemma py_eqb_sym (a b : json) : Py.eqb a b = Py.eqb b a.
Proof.
  destruct a, b; simpl; trivial; try apply Z.eqb_sym; try apply String.eqb_sym.
Qed.

Lemma py_eqb_refl (a : json) : Py.hashable a = true -> Py.eqb a a = true.
Proof.
  destruct a; simpl; try discriminate; intros _; trivial;
    try apply Z.eqb_refl; try apply String.eqb_refl.
Qed.

Lemma ForallOrdPairs_snoc {A : Type} (R : A -> A -> Prop) (s : list A) (y : A) :
  ForallOrdPairs R s -> Forall (fun a => R a y) s -> ForallOrdPairs R (s ++ [y]).
Proof.
  induction 1 as [|a s Ha Hs IH]; simpl; intros Hy.
  - repeat constructor.
  - inversion Hy; subst. constructor; [|auto].
    apply Forall_app. split; [exact Ha | now constructor].
Qed.

Lemma add_spec (y : json) (s : list json) :
  Py.hashable y = true ->
  ForallOrdPairs (fun a b => Py.eqb a b = false) s ->
  ForallOrdPairs (fun a b => Py.eqb a b = false) (Py.add y s) /\
  (forall x, In x (Py.add y s) -> In x s \/ x = y) /\
  (forall x, In x s -> In x (Py.add y s)) /\
  (exists y', In y' (Py.add y s) /\ Py.eqb y y' = true).
Proof.
  intros Hh D. unfold Py.add. destruct (existsb (Py.eqb y) s) eqn:E.
  - repeat split; auto. apply existsb_exists in E. exact E.
  - repeat split.
    + apply ForallOrdPairs_snoc; [exact D|]. apply Forall_forall. intros a Ha.
      rewrite py_eqb_sym. destruct (Py.eqb y a) eqn:Ey; [|reflexivity].
      assert (existsb (Py.eqb y) s = true); [|congruence].
      apply existsb_exists. eauto.
    + intros x Hx. apply in_app_or in Hx. simpl in Hx. intuition auto.
    + intros x Hx. apply in_or_app. now left.
    + exists y. split; [apply in_or_app; right; now left | now apply py_eqb_refl].
Qed.

Lemma set_from_spec (l s : list json) :
  forallb Py.hashable l = true ->
  ForallOrdPairs (fun a b => Py.eqb a b = false) s ->
  let r := fold_left (fun s x => Py.add x s) l s in
  ForallOrdPairs (fun a b => Py.eqb a b = false) r /\
  (forall x, In x r -> In x s \/ In x l) /\
  (forall x, In x s -> In x r) /\
  (forall x, In x l -> exists y, In y r /\ Py.eqb x y = true).
Proof.
  revert s. induction l as [|y l IH]; simpl; intros s Hh D.
  - repeat split; auto. intros x [].
  - apply andb_true_iff in Hh. destruct Hh as (Hy & Hl).
    destruct (@add_spec y s Hy D) as (D1 & Hsub & Hkeep & y' & Hy' & Ey).
    destruct (IH (Py.add y s) Hl D1) as (D2 & Hsub2 & Hkeep2 & Hall).
    repeat split; auto.
    + intros x Hx. apply Hsub2 in Hx. destruct Hx as [Hx|Hx]; [|auto].
      apply Hsub in Hx. intuition auto.
    + intros x [<-|Hx]; [|auto]. exists y'. auto.
Qed.

Lemma categories_spec (items : list json) (cats : list json) :
  categories items = Py.Return cats ->
  forall x, In x cats <->
            x <> JNull /\ exists tmp, In tmp items /\ Py.getitem tmp "category" = Py.Return x.
Proof.
  revert cats. induction items as [|tmp rest IH]; simpl; intros cats H x.
  - injection H as <-. simpl. split; [tauto|]. now intros (_ & ? & [] & _).
  - apply bind_Return in H. destruct H as (c & Hc & H).
    destruct (is_None c) eqn:E.
    + apply is_None_true in E. subst c. rewrite (IH _ H x). split.
      * intros (Hn & t & Hin & Ht). eauto.
      * intros (Hn & t & [<-|Hin] & Ht); [congruence | eauto].
    + bind_inv H. injection H as <-. simpl. rewrite (IH _ Ha0 x).
      rewrite Hc in Ha. injection Ha as <-.
      assert (Hn : c <> JNull) by (intros ->; discriminate).
      split.
      * intros [<-|(Hx & t & Hin & Ht)]; eauto.
      * intros (Hx & t & [<-|Hin] & Ht); [left; congruence | eauto].
Qed.

(** X17.  The list that lines 125 and 160 store under "s2FieldsOfStudy":
    its elements are non-null categories of the items, every non-null
    category of an item is equal (as Python compares) to one of them, and
    no two of them are equal. *)
Theorem fields_of_study_exact (items raw cats : list json) :
  categories items = Py.Return raw ->
  Py.list_set raw = Py.Return cats ->
  (forall x, In x cats ->
             x <> JNull /\
             exists tmp, In tmp items /\ Py.getitem tmp "category" = Py.Return x) /\
  (forall tmp x, In tmp items -> Py.getitem tmp "category" = Py.Return x ->
                 x <> JNull -> exists y, In y cats /\ Py.eqb x y = true) /\
  ForallOrdPairs (fun a b => Py.eqb a b = false) cats.
Proof.
  intros Hc Hs. unfold Py.list_set in Hs.
  destruct (forallb Py.hashable raw) eqn:Hh; [|discriminate].
  injection Hs as <-.
  destruct (@set_from_spec raw [] Hh (FOP_nil _)) as (D & Hsub & _ & Hall).
  repeat split.
  - apply Hsub in H. destruct H as [[]|H]. now apply (categories_spec _ Hc).
  - apply Hsub in H. destruct H as [[]|H]. now apply (categories_spec _ Hc).
  - intros tmp x Hin Hg Hn. apply Hall. apply (categories_spec _ Hc). eauto.
  - exact D.
Qed.

(** X18.  A category that is a list or a dict makes the set of line 125 or
    160 raise a [TypeError]; with categories that are strings, numbers,
    booleans or null it never raises. *)
Theorem fields_of_study_unhashable (items raw : list json) :
  categories items = Py.Return raw ->
  (Py.list_set raw = Py.Raise Py.TypeError <->
   exists tmp x, In tmp items /\ Py.getitem tmp "category" = Py.Return x /\
                 Py.hashable x = false) /\
  (forall e, Py.list_set raw = Py.Raise e -> e = Py.TypeError).
Proof.
  intros Hc. unfold Py.list_set.
  destruct (forallb Py.hashable raw) eqn:Hh.
  - split; [|discriminate]. split; [discriminate|].
    intros (tmp & x & Hin & Hg & Hx).
    rewrite forallb_forall in Hh. rewrite Hh in Hx; [discriminate|].
    apply (categories_spec _ Hc). split; [intros ->; discriminate | eauto].
  - split; [|now intros e [= <-]]. split; [|reflexivity]. intros _.
    assert (Hex : exists x, In x raw /\ Py.hashable x = false).
    { clear Hc. induction raw as [|x raw IH]; simpl in Hh; [discriminate|].
      destruct (Py.hashable x) eqn:Hx.
      - destruct (IH Hh) as (y & Hy & Hyh). exists y. split; [now right | exact Hyh].
      - exists x. split; [now left | exact Hx]. }
    destruct Hex as (x & Hin & Hx).
    apply (categories_spec _ Hc) in Hin. destruct Hin as (_ & tmp & Hin & Hg).
    eauto.
Qed.

(** ** The author transform *)

(** The set of the categories of one paper, by membership: the order of
    [list(set(...))] is left open. *)
Lemma categories_set_spec (items raw cats : list json) :
  categories items = Py.Return raw ->
  Py.list_set raw = Py.Return cats ->
  (forall x, In x cats ->
             x <> JNull /\
             exists tmp, In tmp items /\ Py.getitem tmp "category" = Py.Return x) /\
  (forall tmp x, In tmp items -> Py.getitem tmp "category" = Py.Return x ->
                 x <> JNull -> exists y, In y cats /\ Py.eqb x y = true) /\
  ForallOrdPairs (fun a b => Py.eqb a b = false) cats.
Proof.
  intros Hc Hs. unfold Py.list_set in Hs.
  destruct (forallb Py.hashable raw) eqn:Hh; [|discriminate].
  injection Hs as <-.
  destruct (@set_from_spec raw [] Hh (FOP_nil _)) as (D & Hsub & _ & Hall).
  repeat split.
  - apply Hsub in H. destruct H as [[]|H]. now apply (categories_spec _ Hc).
  - apply Hsub in H. destruct H as [[]|H]. now apply (categories_spec _ Hc).
  - intros tmp x Hin Hg Hn. apply Hall. apply (categories_spec _ Hc). eauto.
  - exact D.
Qed.

Lemma author_papers_spec (papers out : list json) :
  author_papers papers = Py.Return out ->
  Forall2
    (fun paper o =>
       exists year fos s2 items cats,
         Py.getitem paper "year" = Py.Return year /\ year <> JNull /\
         Py.getitem paper "fieldsOfStudy" = Py.Return fos /\
         Py.getitem paper "s2FieldsOfStudy" = Py.Return s2 /\
         py_iter s2 = Some items /\
         o = JObj [("year", year); ("fieldsOfStudy", fos);
                   ("s2FieldsOfStudy", JArr cats)] /\
         (forall x, In x cats ->
                    x <> JNull /\
                    exists tmp, In tmp items /\
                                Py.getitem tmp "category" = Py.Return x) /\
         (forall tmp x, In tmp items -> Py.getitem tmp "category" = Py.Return x ->
                        x <> JNull -> exists y, In y cats /\ Py.eqb x y = true) /\
         ForallOrdPairs (fun a b => Py.eqb a b = false) cats)
    (filter (fun paper => match Py.getitem paper "year" with
                          | Py.Return y => negb (is_None y)
                          | Py.Raise _ => false
                          end) papers)
    out.
Proof.
  revert out. induction papers as [|paper rest IH]; simpl; intros out H.
  - injection H as <-. constructor.
  - apply bind_Return in H. destruct H as (y & Hy & H). rewrite Hy.
    destruct (is_None y) eqn:E; simpl; [now apply IH|].
    bind_inv H. injection H as <-. constructor; [|now apply IH].
    rewrite Hy in Ha. injection Ha as <-. apply iter_Return in Ha2.
    exists y, a0, a1, a2, a4. repeat split; auto;
      try (intros ->; discriminate);
      now apply (categories_set_spec _ Ha3 Ha4).
Qed.

(** X19.  What [process_author_response] returns is a dict with the one
    member "papers": a list with one record for each paper of the input
    that has a year, in the order of the input, made of the paper's "year"
    and "fieldsOfStudy" as they are and of a list under "s2FieldsOfStudy"
    that holds the non-null categories of the paper, each once, in an order
    that is left open.  The papers without year are left out, and the
    result is never null. *)
Theorem author_record_shape (j r : json) :
  process_author_response j = Py.Return r ->
  exists papers items out,
    Py.getitem j "papers" = Py.Return papers /\ py_iter papers = Some items /\
    r = JObj [("papers", JArr out)] /\
    Forall2
      (fun paper o =>
         exists year fos s2 items cats,
           Py.getitem paper "year" = Py.Return year /\ year <> JNull /\
           Py.getitem paper "fieldsOfStudy" = Py.Return fos /\
           Py.getitem paper "s2FieldsOfStudy" = Py.Return s2 /\
           py_iter s2 = Some items /\
           o = JObj [("year", year); ("fieldsOfStudy", fos);
                     ("s2FieldsOfStudy", JArr cats)] /\
           (forall x, In x cats ->
                      x <> JNull /\
                      exists tmp, In tmp items /\
                                  Py.getitem tmp "category" = Py.Return x) /\
           (forall tmp x, In tmp items -> Py.getitem tmp "category" = Py.Return x ->
                          x <> JNull -> exists y, In y cats /\ Py.eqb x y = true) /\
           ForallOrdPairs (fun a b => Py.eqb a b = false) cats)
      (filter (fun paper => match Py.getitem paper "year" with
                            | Py.Return y => negb (is_None y)
                            | Py.Raise _ => false
                            end) items)
      out.
Proof.
  unfold process_author_response. intros H. bind_inv H. injection H as <-.
  apply iter_Return in Ha0.
  exists a, a0, a1. repeat split; auto. now apply author_papers_spec.
Qed.

(** ** The two stages *)

Lemma add_JNum (z : Z) (s : list Z) :
  Py.add (JNum z) (map JNum s) = map JNum (Py.add_int z s).
Proof.
  unfold Py.add, Py.add_int.
  assert (E : existsb (Py.eqb (JNum z)) (map JNum s) = existsb (Z.eqb z) s).
  { induction s as [|x s IH]; simpl; [reflexivity|]. now rewrite IH. }
  rewrite E. destruct (existsb (Z.eqb z) s); [reflexivity|].
  now rewrite map_app.
Qed.

Lemma fold_add_JNum (l s : list Z) :
  fold_left (fun s x => Py.add x s) (map JNum l) (map JNum s)
  = map JNum (fold_left (fun s z => Py.add_int z s) l s).
Proof.
  revert s. induction l as [|z l IH]; simpl; intros s; [reflexivity|].
  now rewrite add_JNum, IH.
Qed.

Lemma hashable_JNum (l : list Z) : forallb Py.hashable (map JNum l) = true.
Proof. induction l; simpl; auto. Qed.

Lemma add_citing_ints (out : list (string * json)) (citing acc : list Z) :
  Py.lookup "citing_authors" out = Some (int_list citing) ->
  add_citing (JObj out) (map JNum acc)
  = Py.Return (map JNum (fold_left (fun s z => Py.add_int z s) citing acc)).
Proof.
  intros H. unfold add_citing. simpl. rewrite H. simpl.
  now rewrite hashable_JNum, fold_add_JNum.
Qed.

Lemma citing_authors_of_null (values acc : list json) :
  In JNull values -> exists e, citing_authors_of values acc = Py.Raise e.
Proof.
  revert acc. induction values as [|v values IH]; simpl; intros acc Hin; [tauto|].
  destruct (add_citing v acc) as [s|e] eqn:Ha; simpl; [|eauto].
  destruct Hin as [->|Hin]; [discriminate | now apply IH].
Qed.

Lemma citing_authors_of_records (values : list json) (acc : list Z) :
  Forall (fun v => exists out citing,
              v = JObj out /\ Py.lookup "citing_authors" out = Some (int_list citing))
         values ->
  exists zs,
    citing_authors_of values (map JNum acc) = Py.Return (map JNum zs) /\
    (NoDup acc -> NoDup zs) /\
    forall z, In z zs <->
              In z acc \/
              exists out citing,
                In (JObj out) values /\
                Py.lookup "citing_authors" out = Some (int_list citing) /\
                In z citing.
Proof.
  intros H. revert acc.
  induction H as [|v values (out & citing & -> & Hl) Hall IH]; simpl; intros acc.
  - exists acc. repeat split; auto. intros [?|(? & ? & [] & _)]. assumption.
  - rewrite (add_citing_ints _ acc Hl). simpl.
    destruct (IH (fold_left (fun s z => Py.add_int z s) citing acc))
      as (zs & E & ND & Hin).
    exists zs. split; [exact E|]. split.
    + intros N. apply ND. now apply NoDup_list_set_int_from.
    + intros z. rewrite Hin, in_list_set_int_from. split.
      * intros [[Hz|Hz]|(o & c & Ho & Hc & Hz)]; [now left | |].
        -- right. exists out, citing. auto.
        -- right. exists o, c. auto.
      * intros [Hz|(o & c & [Ho|Ho] & Hc & Hz)]; [tauto | |].
        -- injection Ho as <-. rewrite Hl in Hc. injection Hc as Hc.
           apply (f_equal (map (fun j => match j with JNum z => z | _ => 0%Z end))) in Hc.
           rewrite !map_map, !map_id in Hc. subst c. tauto.
        -- right. exists o, c. auto.
Qed.

Lemma identifiers_ints (zs : list Z) : identifiers (map JNum zs) = Some (map IdI zs).
Proof. induction zs as [|z zs IH]; simpl; [reflexivity | now rewrite IH]. Qed.

Lemma filter_ids_ints (zs : list Z) (f : option document) :
  filter_ids (map IdI zs) (load f) = map IdI zs.
Proof.
  unfold filter_ids. apply forallb_filter_id. apply forallb_forall.
  intros id Hin. apply negb_true_iff, contains_key_false. intros Hk.
  apply in_map_iff in Hin. destruct Hin as (z & <- & _).
  pose proof (str_keys_load f) as Hs. rewrite Forall_forall in Hs.
  exact (Hs _ Hk).
Qed.

Section Stages.

Variable int_of_str : string -> option Z.

Local Abbreviation process_paper_response := (process_paper_response int_of_str).
Local Abbreviation prepare_papers_data := (prepare_papers_data int_of_str).

Lemma paper_output (j v : json) :
  process_paper_response j = Py.Return v ->
  v = JNull \/
  exists out citing,
    v = JObj out /\ Py.lookup "citing_authors" out = Some (int_list citing).
Proof.
  intros H. destruct j; try discriminate.
  apply paper_response_inv in H. destruct H as [(-> & _)|H]; [now left|]. right.
  destruct H as (year & fos & items & cats & cats' & authors & aitems & azs & cits
                 & py & citing & refs & ritems & czs & H).
  repeat (destruct H as (_ & H)). subst v.
  eexists. exists citing. split; [reflexivity|].
  rewrite !lookup_remove_other, lookup_store_other, lookup_remove_other
    by discriminate.
  apply lookup_store_same.
Qed.

Lemma citing_authors_of_outputs (values : list json) (acc : list Z) :
  Forall (fun v => exists j, process_paper_response j = Py.Return v) values ->
  In JNull values ->
  citing_authors_of values (map JNum acc) = Py.Raise Py.TypeError.
Proof.
  intros H. revert acc.
  induction H as [|v values (j & Hj) Hall IH]; simpl; intros acc Hin; [tauto|].
  apply paper_output in Hj. destruct Hj as [->|(out & citing & -> & Hl)].
  - reflexivity.
  - rewrite (add_citing_ints _ acc Hl). simpl. apply IH.
    destruct Hin as [?|?]; [discriminate | assumption].
Qed.

(** X20.  A null among the values of [papers.json] stops the author stage
    with an exception before it sends any request; when the values are
    what [process_paper_response] returned, the exception is a
    [TypeError].  With X14: one paper that the service does not know, or
    that has no year, is enough. *)
Theorem null_paper_stops_author_stage (papers_json : document)
        (authors_json : option document) (responses : list Response) :
  In JNull (map snd (json_load papers_json)) ->
  exists e,
    prepare_authors_data papers_json authors_json responses = Py.Raise e /\
    (Forall (fun v => exists j, process_paper_response j = Py.Return v)
            (map snd (json_load papers_json)) ->
     e = Py.TypeError).
Proof.
  intros Hin. unfold prepare_authors_data, author_query_ids.
  destruct (citing_authors_of_null _ [] Hin) as (e & He).
  exists e. rewrite He. split; [reflexivity|].
  intros Hall. pose proof (@citing_authors_of_outputs _ [] Hall Hin) as E.
  simpl in E. congruence.
Qed.

(** X21.  When every value of [papers.json] is a record that
    [process_paper_response] returned, the ids of the author stage are
    ints: the distinct members of the "citing_authors" lists.  The keys
    that [json.load] gives for [authors.json] are strings, so none of these
    ids is ever found among them: whatever [authors.json] holds, the stage
    asks for every citing author again. *)
Theorem author_stage_asks_all_again (papers_json : document) :
  Forall (fun v => v <> JNull /\ exists j, process_paper_response j = Py.Return v)
         (map snd (json_load papers_json)) ->
  exists zs,
    author_query_ids papers_json = Py.Return (map JNum zs) /\
    NoDup zs /\
    (forall z, In z zs <->
               exists out citing,
                 In (JObj out) (map snd (json_load papers_json)) /\
                 Py.lookup "citing_authors" out = Some (int_list citing) /\
                 In z citing) /\
    forall authors_json responses,
      prepare_authors_data papers_json authors_json responses
      = Py.Return
          (Some (batch_query (as_transform process_author_response) 100
                   "papers.year,papers.fieldsOfStudy,papers.s2FieldsOfStudy"
                   "https://api.semanticscholar.org/graph/v1/author/batch"
                   authors_json (map IdI zs) responses)) /\
      filter_ids (map IdI zs) (load authors_json) = map IdI zs.
Proof.
  intros Hall.
  assert (Hrec : Forall (fun v => exists out citing,
                             v = JObj out /\
                             Py.lookup "citing_authors" out = Some (int_list citing))
                        (map snd (json_load papers_json))).
  { eapply Forall_impl; [|exact Hall]. simpl. intros v (Hn & j & Hj).
    apply paper_output in Hj. destruct Hj as [->|Hj]; [now elim Hn | exact Hj]. }
  destruct (citing_authors_of_records [] Hrec) as (zs & E & ND & Hin).
  simpl in E. exists zs. split; [exact E|]. split; [apply ND; constructor|].
  split.
  - intros z. rewrite Hin. simpl. tauto.
  - intros authors_json responses. split; [|apply filter_ids_ints].
    unfold prepare_authors_data, author_query_ids. rewrite E. simpl.
    now rewrite identifiers_ints.
Qed.

Lemma arxiv_ids_str (ids : list string) : Forall str_key (arxiv_query_ids ids).
Proof.
  apply Forall_forall. intros id Hin. apply in_map_iff in Hin.
  destruct Hin as (x & <- & _). exact I.
Qed.

(** X22.  The paper stage works on at most 20 ids with batches of 20, so a
    run of it has a single batch: every request it sends holds the whole
    work-set, the pointer is 0 until a pass moves it to 20 and no pass
    follows that one, and the file is written once, by the final dump of a
    run that returns.  A run that ends in any other way leaves the file as
    it found it. *)
Theorem paper_stage_single_batch (ids : list string) (f : option document)
        (rs : list Response) s st :
  prepare_papers_data ids f rs = (s, st) ->
  let F := filter_ids (arxiv_query_ids (firstn 20 ids)) (load f) in
  Forall (fun b => b = F) (requests (trace st)) /\
  (idx st = 0 \/ idx st = 20) /\
  (s = Running -> idx st = 0) /\
  (s <> Returned -> file st = f /\ dumps (trace st) = []) /\
  (s = Returned ->
   dumps (trace st) = [json_dump (data st)] /\
   file st = Some (json_dump (data st)) /\
   load (file st) = data st).
Proof.
  intros H F.
  assert (LF : length F <= 20).
  { unfold F, filter_ids, arxiv_query_ids.
    etransitivity; [apply filter_length_le|].
    rewrite length_map. apply firstn_le_length. }
  assert (Hre : s = Returned -> load (file st) = data st).
  { intros ->. unfold prepare_papers_data in H.
    eapply returned_reload; [|exact H]. apply arxiv_ids_str. }
  unfold prepare_papers_data, batch_query in H. simpl data in H. fold F in H.
  assert (Hrun : s = Running -> idx st < length F).
  { intros ->. now apply while_running in H. }
  cut (Forall (fun b => b = F) (requests (trace st)) /\
       (idx st = 0 \/ idx st = 20) /\
       (s <> Returned -> file st = f /\ dumps (trace st) = []) /\
       (s = Returned ->
        dumps (trace st) = [json_dump (data st)] /\
        file st = Some (json_dump (data st)))).
  { intros (A & B & C & D). split; [exact A|]. split; [exact B|].
    split; [intros E; apply Hrun in E; lia|].
    split; [exact C|]. intros E. destruct (D E). auto. }
  clear Hre Hrun.
  match type of H with
  | while ?tf _ ?qf ?qu _ _ _ = _ =>
  pose proof (@while_inv tf 20 qf qu F
                (fun st => file st = f /\ dumps (trace st) = [] /\
                           Forall (fun b => b = F) (requests (trace st)) /\
                           (idx st = 0 \/ idx st = 20))
                (fun s st =>
                   Forall (fun b => b = F) (requests (trace st)) /\
                   (idx st = 0 \/ idx st = 20) /\
                   (s <> Returned -> file st = f /\ dumps (trace st) = []) /\
                   (s = Returned ->
                    dumps (trace st) = [json_dump (data st)] /\
                    file st = Some (json_dump (data st))))) as W
  end.
  eapply W; [| | | | |exact H]; clear W H.
  - intros r st0 st1 (Hf & Hd & Hr & Hi) L Hit.
    assert (I0 : idx st0 = 0) by lia.
    pose proof Hit as Hany. apply iteration_any in Hany.
    destruct Hany as (Hreq & Hidx & _).
    pose proof Hit as Hdu. apply iteration_dumps in Hdu.
    pose proof Hit as Hrun. apply iteration_running in Hrun. simpl in Hrun.
    assert (B0 : batch_at 20 F (idx st0) = F).
    { unfold batch_at. rewrite I0. simpl skipn. now apply firstn_all2. }
    repeat split.
    + destruct Hdu as [(E & _)|(_ & Hs & M & _)]; [congruence|].
      destruct Hrun as [(Hs' & _)|(_ & _ & E & _)]; [congruence|].
      rewrite E, I0 in M. vm_compute in M. discriminate.
    + destruct Hdu as [(_ & E)|(_ & Hs & M & _)]; [congruence|].
      destruct Hrun as [(Hs' & _)|(_ & _ & E & _)]; [congruence|].
      rewrite E, I0 in M. vm_compute in M. discriminate.
    + rewrite Hreq, B0. apply Forall_app. split; [exact Hr | now constructor].
    + destruct Hidx as [E|(_ & _ & E)]; lia.
  - intros r st0 s0 st1 (Hf & Hd & Hr & Hi) L Hit Hs.
    assert (I0 : idx st0 = 0) by lia.
    pose proof Hit as Hany. apply iteration_any in Hany.
    destruct Hany as (Hreq & Hidx & _).
    pose proof Hit as Hdu. apply iteration_dumps in Hdu.
    assert (B0 : batch_at 20 F (idx st0) = F).
    { unfold batch_at. rewrite I0. simpl skipn. now apply firstn_all2. }
    destruct Hdu as [(Ef & Ed)|(? & _)]; [|contradiction].
    split; [|split; [|split]].
    + rewrite Hreq, B0. apply Forall_app. split; [exact Hr | now constructor].
    + destruct Hidx as [E|(? & _)]; [lia | contradiction].
    + intros _. split; congruence.
    + intros ->. now apply iteration_not_returned in Hit.
  - intros st0 (Hf & Hd & Hr & Hi) L.
    split; [exact Hr|]. split; [exact Hi|]. split; [auto | discriminate].
  - intros st0 (Hf & Hd & Hr & Hi) L. simpl.
    split; [|split; [exact Hi|split]].
    + now rewrite requests_app, app_nil_r.
    + intros N. now elim N.
    + intros _. split; [|reflexivity]. now rewrite dumps_app, Hd.
  - simpl. repeat split; auto.
Qed.

End Stages.

(** * Pacing of the requests *)

Lemma paced_app (b : bool) (t u : list event) :
  paced b (t ++ u) <-> paced b t /\ paced (slept_after b t) u.
Proof.
  revert b. induction t as [|e t IH]; simpl; intros b; [tauto|].
  destruct e; rewrite IH; tauto.
Qed.

Lemma slept_after_app (b : bool) (t u : list event) :
  slept_after b (t ++ u) = slept_after (slept_after b t) u.
Proof.
  revert b. induction t as [|e t IH]; simpl; intros b; [reflexivity|].
  destruct e; apply IH.
Qed.

Lemma paced_calls (b : bool) (cs : list json) :
  paced b (map Call cs) /\ slept_after b (map Call cs) = b.
Proof. induction cs as [|c cs IH]; simpl; auto. Qed.

Lemma paced_between (b : bool) (t1 t2 t3 : list event) u1 f1 i1 u2 f2 i2 :
  paced b (t1 ++ Post u1 f1 i1 :: t2 ++ Post u2 f2 i2 :: t3) ->
  exists d, In (Sleep d) t2 /\ (QUERY_BASE_DELAY <= d)%Q.
Proof.
  intros H. apply paced_app in H. destruct H as (_ & H). simpl in H.
  destruct H as (_ & H). clear b t1.
  induction t2 as [|e t2 IH]; simpl in H.
  - destruct H as (H & _). discriminate.
  - destruct e as [u f0 i|c|d|doc].
    + destruct H as (H & _). discriminate.
    + destruct (IH H) as (d & Hin & Hd). exists d. split; [now right | exact Hd].
    + destruct H as (Hd & _). exists d. split; [now left | exact Hd].
    + destruct (IH H) as (d & Hin & Hd). exists d. split; [now right | exact Hd].
Qed.

Section Pacing.

Variable process_response_f : json -> option json.
Variable batch_size : nat.
Variables query_fields query_url : string.

Local Abbreviation merge := (merge process_response_f).
Local Abbreviation iteration := (iteration process_response_f batch_size query_fields query_url).
Local Abbreviation while := (while process_response_f batch_size query_fields query_url).
Local Abbreviation batch_query := (batch_query process_response_f batch_size query_fields query_url).

Lemma iteration_halted_trace F (r : Response) (st : state) s st' :
  iteration F r st = (s, st') -> s <> Running ->
  exists cs,
    trace st'
    = trace st ++ Post query_url query_fields (batch_at batch_size F (idx st))
                  :: map Call cs.
Proof.
  unfold iteration. intros H Hs.
  destruct (status_code r =? 200)%Z; simpl in H.
  - destruct (parsed r) as [body|];
      [|inversion H; subst; exists []; reflexivity].
    destruct (py_iter body);
      [|inversion H; subst; exists []; reflexivity].
    destruct (merge _ _) as [s1 st1] eqn:Hm.
    pose proof (merge_frame _ _ _ Hm) as (_ & _ & _ & cs & Ht). simpl in Ht.
    exists cs. rewrite <- app_assoc in Ht. simpl in Ht.
    destruct (merge_status _ _ _ Hm) as [-> | ->].
    + apply advance_spec in H.
      destruct H as (_ & _ & _ & [(_ & _ & _ & T)|(_ & E & _)]); congruence.
    + inversion H; subst. exact Ht.
  - destruct (contains "error" (text r));
      [inversion H; subst; exists []; reflexivity|].
    destruct (negb (contains "Too Many Requests" (text r)));
      [destruct (parsed r)|]; inversion H; subst;
      try (now elim Hs); exists []; reflexivity.
Qed.

(** What a pass adds to the trace: its request, the calls of the zip loop
    and, when the loop goes on, the dump if one is due and the pause. *)
Lemma iteration_trace F (r : Response) (st : state) s st' :
  iteration F r st = (s, st') ->
  exists cs tail,
    trace st'
    = trace st ++ Post query_url query_fields (batch_at batch_size F (idx st))
                  :: map Call cs ++ tail /\
    (s <> Running -> tail = []) /\
    (s = Running ->
     (tail = [Sleep (delay st')] \/ exists doc, tail = [Dump doc; Sleep (delay st')]) /\
     (delay st' = on_throttled (delay st) \/ delay st' = on_success (delay st))).
Proof.
  intros H.
  assert (Hhalt : s <> Running ->
                  exists cs tail,
                    trace st'
                    = trace st ++ Post query_url query_fields
                                       (batch_at batch_size F (idx st))
                                  :: map Call cs ++ tail /\
                    (s <> Running -> tail = []) /\
                    (s = Running ->
                     (tail = [Sleep (delay st')]
                      \/ exists doc, tail = [Dump doc; Sleep (delay st')]) /\
                     (delay st' = on_throttled (delay st)
                      \/ delay st' = on_success (delay st)))).
  { intros Hs. destruct (iteration_halted_trace _ _ _ H Hs) as (cs & Ht).
    exists cs, []. rewrite app_nil_r. split; [exact Ht|].
    split; [reflexivity | intros E; now elim Hs]. }
  destruct s; try (apply Hhalt; discriminate). clear Hhalt.
  apply iteration_running in H. simpl in H.
  destruct H as [(_ & _ & _ & _ & _ & Hd & Ht)
                |(_ & _ & _ & Hd & body & entries & st1 & _ & _ & Hm & _ & Hdump)].
  - exists [], [Sleep (delay st')]. simpl. split; [exact Ht|].
    split; [intros N; now elim N | auto].
  - pose proof (merge_frame _ _ _ Hm) as (_ & _ & _ & cs & Ht). simpl in Ht.
    destruct Hdump as [(_ & _ & T)|(_ & _ & T)].
    + exists cs, [Dump (json_dump (data st')); Sleep (delay st')].
      split; [|split; [intros N; now elim N | eauto]].
      rewrite T, Ht, <- !app_assoc. reflexivity.
    + exists cs, [Sleep (delay st')].
      split; [|split; [intros N; now elim N | eauto]].
      rewrite T, Ht, <- !app_assoc. reflexivity.
Qed.

(** X23.  The requests of a run are paced: every pause lasts at least the
    base delay, and between any two requests of a run there is a pause.
    No request follows another without the [time.sleep] of line 86 or line
    104 in between. *)
Theorem requests_are_paced f ids (rs : list Response) s st :
  batch_query f ids rs = (s, st) ->
  paced true (trace st) /\
  forall t1 t2 t3 u1 f1 i1 u2 f2 i2,
    trace st = t1 ++ Post u1 f1 i1 :: t2 ++ Post u2 f2 i2 :: t3 ->
    exists d, In (Sleep d) t2 /\ (QUERY_BASE_DELAY <= d)%Q.
Proof.
  intros H.
  assert (P : paced true (trace st)).
  { unfold batch_query in H. simpl data in H.
    pose proof (@while_inv process_response_f batch_size query_fields query_url
                  (filter_ids ids (load f))
                  (fun st => paced true (trace st) /\
                             slept_after true (trace st) = true /\
                             (QUERY_BASE_DELAY <= delay st)%Q)
                  (fun _ st => paced true (trace st))) as W.
    eapply W; [| | | | |exact H]; clear W H.
    - intros r st0 st1 (Hp & Hs & Hd) _ Hit.
      apply iteration_trace in Hit.
      destruct Hit as (cs & tail & Ht & _ & Hrun).
      destruct (Hrun eq_refl) as (Htail & Hdel).
      assert (D1 : (QUERY_BASE_DELAY <= delay st1)%Q).
      { destruct Hdel as [-> | ->];
          [now apply on_throttled_ge | apply on_success_ge]. }
      destruct (paced_calls false cs) as (Pc & Sc).
      rewrite Ht. split; [|split; [|exact D1]].
      + apply paced_app. split; [exact Hp|]. rewrite Hs. simpl.
        split; [reflexivity|]. apply paced_app. split; [exact Pc|].
        rewrite Sc. destruct Htail as [-> | (doc & ->)]; simpl; auto.
      + rewrite slept_after_app. simpl. rewrite slept_after_app, Sc.
        destruct Htail as [-> | (doc & ->)]; reflexivity.
    - intros r st0 s0 st1 (Hp & Hs & Hd) _ Hit Hn.
      destruct (iteration_halted_trace _ _ _ Hit Hn) as (cs & Ht).
      rewrite Ht. apply paced_app. split; [exact Hp|]. rewrite Hs. simpl.
      split; [reflexivity|]. apply (paced_calls false cs).
    - intros st0 (Hp & _) _. exact Hp.
    - intros st0 (Hp & Hs & _) _. simpl. apply paced_app. simpl. auto.
    - simpl. repeat split. unfold QUERY_BASE_DELAY. apply Qle_refl. }
  split; [exact P|].
  intros t1 t2 t3 u1 f1 i1 u2 f2 i2 E. rewrite E in P.
  now apply paced_between in P.
Qed.

End Pacing.

(** * The window of [get_citing_authors] *)

(** X24.  As a set, what [get_citing_authors] returns depends only on which
    citations are listed, not on their order or repetition, and it grows
    with the list and with the window: from more citations or a larger
    [citation_years], a call that returns gives every id the smaller call
    gave. *)
Theorem citing_authors_monotone (int_of_str : string -> option Z)
        (l l' : json) (cs cs' : list json) (py cy cy' : Z) (zs zs' : list Z) :
  py_iter l = Some cs -> py_iter l' = Some cs' ->
  (forall c, In c cs -> In c cs') ->
  (cy <= cy')%Z ->
  get_citing_authors int_of_str l py cy = Py.Return zs ->
  get_citing_authors int_of_str l' py cy' = Py.Return zs' ->
  forall z, In z zs -> In z zs'.
Proof.
  intros Hl Hl' Hsub Hcy H H' z Hz.
  destruct (citing_authors_spec _ _ _ _ Hl H) as (_ & Hin).
  destruct (citing_authors_spec _ _ _ _ Hl' H') as (_ & Hin').
  apply Hin in Hz. destruct Hz as (c & Hc & year & items & Hy & Hlt & Ha & Hr).
  apply Hin'. exists c. split; [now apply Hsub|].
  exists year, items. repeat split; auto. lia.
Qed.

(** * The dumps of a run *)

Section Cadence.

Variable process_response_f : json -> option json.
Variable batch_size : nat.
Variables query_fields query_url : string.

Local Abbreviation iteration := (iteration process_response_f batch_size query_fields query_url).
Local Abbreviation while := (while process_response_f batch_size query_fields query_url).
Local Abbreviation batch_query := (batch_query process_response_f batch_size query_fields query_url).
Local Abbreviation period := (batch_size * QUERY_DUMP_INTERVAL).

Lemma period_multiple (j : nat) :
  0 < batch_size ->
  ((j * batch_size) mod period = 0 <-> j mod QUERY_DUMP_INTERVAL = 0).
Proof.
  intros Hb. rewrite (Nat.mul_comm j batch_size).
  rewrite Nat.Div0.mul_mod_distr_l. split; intros H; [|now rewrite H, Nat.mul_0_r].
  apply Nat.eq_mul_0 in H. destruct H as [H|H]; [lia | exact H].
Qed.

(** The dumps of a run, counted: with the pointer at [j] batches, the run
    has written one periodic dump for every [QUERY_DUMP_INTERVAL] of them,
    and the final dump when it returned. *)
Lemma dumps_count f ids (rs : list Response) s st :
  batch_query f ids rs = (s, st) ->
  exists j,
    idx st = j * batch_size /\
    (batch_size = 0 -> j = 0) /\
    (j = 0 \/ (j - 1) * batch_size < length (filter_ids ids (load f))) /\
    (s = Returned -> length (filter_ids ids (load f)) <= idx st) /\
    length (dumps (trace st))
    = j / QUERY_DUMP_INTERVAL + match s with Returned => 1 | _ => 0 end.
Proof.
  unfold batch_query. simpl data. intros H.
  pose proof (@while_inv process_response_f batch_size query_fields query_url
                (filter_ids ids (load f))
                (fun st => exists j,
                     idx st = j * batch_size /\
                     (batch_size = 0 -> j = 0) /\
                     (j = 0 \/ (j - 1) * batch_size
                               < length (filter_ids ids (load f))) /\
                     length (dumps (trace st)) = j / QUERY_DUMP_INTERVAL)
                (fun s st => exists j,
                     idx st = j * batch_size /\
                     (batch_size = 0 -> j = 0) /\
                     (j = 0 \/ (j - 1) * batch_size
                               < length (filter_ids ids (load f))) /\
                     (s = Returned -> length (filter_ids ids (load f)) <= idx st) /\
                     length (dumps (trace st))
                     = j / QUERY_DUMP_INTERVAL
                       + match s with Returned => 1 | _ => 0 end)) as W.
  eapply W; [| | | | |exact H]; clear W H.
  - intros r st0 st1 (j & Hi & Hz & Hj & Hd) L Hit.
    apply iteration_running in Hit. simpl in Hit.
    destruct Hit as [(_ & _ & _ & Hi' & _ & _ & Ht)
                    |(_ & Hb & Hi' & _ & body & entries & st' & _ & _ & Hm & _ & Hdump)].
    + exists j. rewrite Hi', Ht, dumps_app. simpl. rewrite app_nil_r. auto.
    + apply merge_frame in Hm. destruct Hm as (_ & _ & _ & cs & Hc). simpl in Hc.
      assert (D : dumps (trace st') = dumps (trace st0)).
      { rewrite Hc, dumps_calls, dumps_app. simpl. apply app_nil_r. }
      assert (E : idx st1 = S j * batch_size) by (simpl; lia).
      exists (S j). split; [exact E|]. split; [lia|].
      split; [right; simpl; rewrite Nat.sub_0_r; lia|].
      rewrite E in Hdump. unfold QUERY_DUMP_INTERVAL in *.
      destruct Hdump as [(M & _ & T)|(M & _ & T)];
        rewrite (period_multiple (S j) Hb) in M; unfold QUERY_DUMP_INTERVAL in M;
        rewrite T, dumps_app, D; simpl dumps;
        rewrite ?length_app, ?app_nil_r, Hd; simpl length.
      * pose proof (Nat.div_mod_eq (S j) 10). pose proof (Nat.div_mod_eq j 10).
        pose proof (Nat.mod_upper_bound j 10). lia.
      * pose proof (Nat.div_mod_eq (S j) 10). pose proof (Nat.div_mod_eq j 10).
        pose proof (Nat.mod_upper_bound j 10).
        pose proof (Nat.mod_upper_bound (S j) 10). lia.
  - intros r st0 s0 st1 (j & Hi & Hz & Hj & Hd) L Hit Hs.
    pose proof Hit as Hany. apply iteration_any in Hany.
    destruct Hany as (_ & Hidx & _).
    pose proof Hit as Hdu. apply iteration_dumps in Hdu.
    destruct Hdu as [(_ & Hdu)|(? & _)]; [|contradiction].
    exists j. rewrite Hdu, Hd.
    destruct Hidx as [E|(? & _)]; [|contradiction]. rewrite E.
    split; [exact Hi|]. split; [exact Hz|]. split; [exact Hj|].
    split; [intros ->; now apply iteration_not_returned in Hit|].
    destruct s0; [now elim Hs | now apply iteration_not_returned in Hit | |];
      now rewrite Nat.add_0_r.
  - intros st0 (j & Hi & Hz & Hj & Hd) L. exists j.
    repeat split; auto; try discriminate. lia.
  - intros st0 (j & Hi & Hz & Hj & Hd) L. exists j. simpl.
    rewrite dumps_app, length_app, Hd. simpl. repeat split; auto.
  - exists 0. simpl. repeat split; auto.
Qed.

(** What one more response adds to the dumps of a run that was waiting. *)
Lemma dumps_of_pass f ids (rs : list Response) (r : Response) st1 s st2 :
  batch_query f ids rs = (Running, st1) ->
  batch_query f ids (rs ++ [r]) = (s, st2) ->
  exists periodic final,
    dumps (trace st2) = dumps (trace st1) ++ periodic ++ final /\
    ((periodic = [json_dump (data st2)] /\ status_code r = 200%Z /\
      (s = Running \/ s = Returned) /\
      idx st2 = idx st1 + batch_size /\ idx st2 mod period = 0)
     \/
     (periodic = [] /\
      (status_code r <> 200%Z \/ (s <> Running /\ s <> Returned)
       \/ idx st2 mod period <> 0))) /\
    ((final = [json_dump (data st2)] /\ s = Returned) \/ (final = [] /\ s <> Returned)).
Proof.
  intros H1 H2. pose proof H1 as L. unfold batch_query in L. apply while_running in L.
  rewrite batch_query_app with (st1 := st1) in H2 by exact H1. simpl in H2.
  apply Nat.ltb_lt in L. simpl in L. rewrite L in H2.
  destruct (iteration (filter_ids ids (load f)) r st1) as [s0 st'] eqn:Hit.
  assert (Hhalt : s0 <> Running -> (s0, st') = (s, st2) ->
          exists periodic final,
            dumps (trace st2) = dumps (trace st1) ++ periodic ++ final /\
            ((periodic = [json_dump (data st2)] /\ status_code r = 200%Z /\
              (s = Running \/ s = Returned) /\
              idx st2 = idx st1 + batch_size /\ idx st2 mod period = 0)
             \/
             (periodic = [] /\
              (status_code r <> 200%Z \/ (s <> Running /\ s <> Returned)
               \/ idx st2 mod period <> 0))) /\
            ((final = [json_dump (data st2)] /\ s = Returned)
             \/ (final = [] /\ s <> Returned))).
  { intros Hs E. injection E as <- <-.
    pose proof Hit as Hdu. apply iteration_dumps in Hdu.
    destruct Hdu as [(_ & Hdu)|(? & _)]; [|contradiction].
    assert (s0 <> Returned)
      by (intros ->; now apply iteration_not_returned in Hit).
    exists [], []. rewrite Hdu, app_nil_r. simpl.
    split; [reflexivity|]. split; [right; auto | right; auto]. }
  destruct s0; try (apply Hhalt; [discriminate | exact H2]). clear Hhalt.
  apply iteration_running in Hit. simpl in Hit.
  destruct Hit as [(Hs & _ & _ & Hi & _ & _ & Ht)
                  |(Hs & Hb & Hi & _ & body & entries & stm & _ & _ & Hm & _ & Hdump)].
  - assert (E : (idx st' <? length (filter_ids ids (load f)))%nat = true)
      by (rewrite Hi; exact L).
    rewrite E in H2. injection H2 as <- <-.
    exists [], []. rewrite Ht, dumps_app. simpl. rewrite !app_nil_r.
    split; [reflexivity|]. split; [right; auto | right; split; [reflexivity | discriminate]].
  - apply merge_frame in Hm. destruct Hm as (_ & _ & _ & cs & Hc). simpl in Hc.
    assert (D : dumps (trace stm) = dumps (trace st1)).
    { rewrite Hc, dumps_calls, dumps_app. simpl. apply app_nil_r. }
    assert (D' : (idx st' mod period = 0 /\
                  dumps (trace st') = dumps (trace st1) ++ [json_dump (data st')])
                 \/ (idx st' mod period <> 0 /\ dumps (trace st') = dumps (trace st1))).
    { destruct Hdump as [(M & _ & T)|(M & _ & T)]; [left | right];
        (split; [exact M|]); rewrite T, dumps_app, D; simpl; now rewrite ?app_nil_r. }
    clear Hdump D Hc.
    destruct (idx st' <? length (filter_ids ids (load f)))%nat;
      injection H2 as <- <-; simpl data; simpl idx.
    + destruct D' as [(M & T)|(M & T)].
      * exists [json_dump (data st')], []. rewrite T, app_nil_r.
        split; [reflexivity|]. split; [left; auto | right; split; [reflexivity | discriminate]].
      * exists [], []. rewrite T, app_nil_r.
        split; [reflexivity|]. split; [right; auto | right; split; [reflexivity | discriminate]].
    + simpl trace. rewrite dumps_app. simpl dumps.
      destruct D' as [(M & T)|(M & T)].
      * exists [json_dump (data st')], [json_dump (data st')]. rewrite T, <- app_assoc.
        split; [reflexivity|]. split; [left; auto | left; auto].
      * exists [], [json_dump (data st')]. rewrite T.
        split; [reflexivity|]. split; [right; auto | left; auto].
Qed.

(** C6.  A run writes the whole checkpoint to the file exactly at these
    points.  After a pass that was answered with status 200 and ran to its
    end, when the pointer it moved is a multiple of
    [batch_size * QUERY_DUMP_INTERVAL]; no other pass writes.  And once
    more when the work-set is exhausted, on returning, which is the only way
    the run returns.  So a run whose pointer stands at [j] batches has
    written [j / QUERY_DUMP_INTERVAL] periodic dumps, plus the final one if
    it returned; a run whose responses are all answers returns, so these
    dumps do happen.  At every point of a run, the results the checkpoint
    holds and the file lacks belong to at most
    [batch_size * QUERY_DUMP_INTERVAL] ids. *)
Theorem dump_cadence :
  (forall F r st s st',
      iteration F r st = (s, st') ->
      (s = Running /\ status_code r = 200%Z /\
       idx st' = idx st + batch_size /\ 0 < batch_size /\
       ((idx st' mod period = 0 /\
         dumps (trace st') = dumps (trace st) ++ [json_dump (data st')] /\
         file st' = Some (json_dump (data st')))
        \/
        (idx st' mod period <> 0 /\
         dumps (trace st') = dumps (trace st) /\ file st' = file st)))
      \/
      ((s <> Running \/ status_code r <> 200%Z) /\
       (s = Running -> idx st' = idx st) /\
       dumps (trace st') = dumps (trace st) /\ file st' = file st)) /\
  (forall F rs st, length F <= idx st -> while F rs st = (Returned, dump st)) /\
  (forall F rs st st',
      while F rs st = (Returned, st') ->
      length F <= idx st' /\
      file st' = Some (json_dump (data st')) /\
      exists earlier, dumps (trace st') = earlier ++ [json_dump (data st')]) /\
  (forall f ids rs s st,
      batch_query f ids rs = (s, st) ->
      exists window,
        length window <= batch_size * QUERY_DUMP_INTERVAL /\
        forall k v, In (k, v) (data st) -> persisted (file st) k v \/ In k window) /\
  (forall f ids rs r st1 s st2,
      batch_query f ids rs = (Running, st1) ->
      batch_query f ids (rs ++ [r]) = (s, st2) ->
      exists periodic final,
        dumps (trace st2) = dumps (trace st1) ++ periodic ++ final /\
        ((periodic = [json_dump (data st2)] /\ status_code r = 200%Z /\
          (s = Running \/ s = Returned) /\
          idx st2 = idx st1 + batch_size /\ idx st2 mod period = 0)
         \/
         (periodic = [] /\
          (status_code r <> 200%Z \/ (s <> Running /\ s <> Returned)
           \/ idx st2 mod period <> 0))) /\
        ((final = [json_dump (data st2)] /\ s = Returned)
         \/ (final = [] /\ s <> Returned))) /\
  (forall f ids rs s st,
      batch_query f ids rs = (s, st) ->
      exists j,
        idx st = j * batch_size /\
        (batch_size = 0 -> j = 0) /\
        (j = 0 \/ (j - 1) * batch_size < length (filter_ids ids (load f))) /\
        (s = Returned -> length (filter_ids ids (load f)) <= idx st) /\
        length (dumps (trace st))
        = j / QUERY_DUMP_INTERVAL + match s with Returned => 1 | _ => 0 end) /\
  (forall f ids rs,
      0 < batch_size ->
      Forall (answered process_response_f) rs ->
      length (filter_ids ids (load f)) <= batch_size * length rs ->
      exists st j,
        batch_query f ids rs = (Returned, st) /\
        idx st = j * batch_size /\
        length (filter_ids ids (load f)) <= j * batch_size /\
        (j = 0 \/ (j - 1) * batch_size < length (filter_ids ids (load f))) /\
        length (dumps (trace st)) = j / QUERY_DUMP_INTERVAL + 1).
Proof.
  destruct (@dump_passes process_response_f batch_size query_fields query_url)
    as (A & B & C & D).
  split; [exact A|]. split; [exact B|]. split; [exact C|]. split; [exact D|].
  split; [|split].
  - intros f ids rs r st1 s st2. apply dumps_of_pass.
  - intros f ids rs s st. apply dumps_count.
  - intros f ids rs Hb Hall Hlen.
    destruct (@answered_while process_response_f batch_size query_fields query_url
                (filter_ids ids (load f)) rs (initial f) Hb Hall)
      as (st & later & Hrun & _); [simpl; lia|].
    pose proof (@dumps_count f ids rs Returned st Hrun) as (j & Hi & _ & Hj & Hr & Hd).
    exists st, j. split; [exact Hrun|]. split; [exact Hi|].
    split; [rewrite <- Hi; now apply Hr|]. split; [exact Hj | exact Hd].
Qed.

End Cadence.

(** * The properties above on sample inputs *)

Lemma checkpoint_only_grows_witness :
  NoDup (keys (data (snd (batch_query keep_entry 1 "year" "https://api/paper/batch"
                            None [IdS "a"] [answer "[null]" [JNull]])))).
Proof.
  pose (run := batch_query keep_entry 1 "year" "https://api/paper/batch"
                 None [IdS "a"] [answer "[null]" [JNull]]).
  destruct (@checkpoint_only_grows keep_entry 1 "year" "https://api/paper/batch"
              None [IdS "a"] [answer "[null]" [JNull]] (fst run) (snd run) eq_refl)
    as (_ & H & _).
  exact H.
Defined.

Lemma returned_run_requested_all_witness :
  exists b,
    In b (requests (trace (snd (batch_query keep_entry 1 "year" "https://api/paper/batch"
                                  None [IdS "a"] [answer "[null]" [JNull]]))))
    /\ In (IdS "a") b.
Proof.
  apply (@returned_run_requested_all keep_entry 1 "year" "https://api/paper/batch"
           None [IdS "a"] [answer "[null]" [JNull]]
           (snd (batch_query keep_entry 1 "year" "https://api/paper/batch"
                   None [IdS "a"] [answer "[null]" [JNull]]))
           eq_refl (IdS "a")).
  simpl. now left.
Defined.

Lemma integer_ids_never_filtered_witness :
  filter_ids [IdI 1] (load (Some [("1", JNull)])) = [IdI 1].
Proof.
  apply integer_ids_never_filtered. constructor; [|constructor].
  simpl. intros [].
Defined.

Lemma nothing_to_do_witness :
  exists st,
    batch_query keep_entry 1 "year" "https://api/paper/batch"
      (Some [("a", JNull)]) [IdS "a"] [too_many_requests] = (Returned, st) /\
    trace st = [Dump (json_dump (load (Some [("a", JNull)])))].
Proof.
  destruct (@nothing_to_do keep_entry 1 "year" "https://api/paper/batch"
              (Some [("a", JNull)]) [IdS "a"] [too_many_requests])
    as (st & H1 & H2 & _).
  - intros id Hin. simpl in Hin. destruct Hin as [<-|[]]. simpl. now left.
  - exists st. split; assumption.
Defined.

Lemma returned_file_reloads_witness :
  load (file (snd (batch_query keep_entry 1 "year" "https://api/paper/batch"
                     None [IdS "a"] [answer "[null]" [JNull]])))
  = data (snd (batch_query keep_entry 1 "year" "https://api/paper/batch"
                 None [IdS "a"] [answer "[null]" [JNull]])).
Proof.
  destruct (@returned_file_reloads keep_entry 1 "year" "https://api/paper/batch"
              None [IdS "a"] [answer "[null]" [JNull]]
              (snd (batch_query keep_entry 1 "year" "https://api/paper/batch"
                      None [IdS "a"] [answer "[null]" [JNull]])))
    as (H & _).
  - repeat constructor.
  - reflexivity.
  - exact H.
Defined.

Lemma complete_run_is_final_witness :
  exists st2,
    batch_query keep_entry 1 "year" "https://api/paper/batch"
      (file (snd (batch_query keep_entry 1 "year" "https://api/paper/batch"
                    None [IdS "a"] [answer "[null]" [JNull]])))
      [IdS "a"] [too_many_requests] = (Returned, st2) /\
    requests (trace st2) = [].
Proof.
  destruct (@complete_run_is_final keep_entry 1 "year" "https://api/paper/batch"
              None [IdS "a"] [answer "[null]" [JNull]] [too_many_requests]
              (snd (batch_query keep_entry 1 "year" "https://api/paper/batch"
                      None [IdS "a"] [answer "[null]" [JNull]])))
    as (_ & st2 & H1 & H2 & _).
  - repeat constructor.
  - constructor; [|constructor].
    intros body entries _ Hp Hi. injection Hp as <-. injection Hi as <-.
    simpl. lia.
  - reflexivity.
  - exists st2. split; assumption.
Defined.

Lemma answered_run_returns_witness :
  exists st,
    batch_query keep_entry 1 "year" "https://api/paper/batch"
      None [IdS "a"] [answer "[null]" [JNull]] = (Returned, st) /\
    length (requests (trace st)) <= 1.
Proof.
  destruct (@answered_run_returns keep_entry 1 "year" "https://api/paper/batch"
              None [IdS "a"] [answer "[null]" [JNull]])
    as (st & H1 & H2 & _).
  - lia.
  - constructor; [|constructor]. split; [reflexivity|].
    exists (JArr [JNull]), [JNull]. repeat split. constructor; [|constructor].
    simpl. discriminate.
  - simpl. lia.
  - exists st. split; [exact H1 | exact H2].
Defined.

Lemma surplus_entries_ignored_witness :
  iteration keep_entry 1 "year" "https://api/paper/batch" [IdS "a"]
    (answer "[null, null]" [JNull; JNull]) (initial None)
  = iteration keep_entry 1 "year" "https://api/paper/batch" [IdS "a"]
      (answer "[null]" [JNull]) (initial None).
Proof.
  apply (@surplus_entries_ignored keep_entry 1 "year" "https://api/paper/batch"
           [IdS "a"] (answer "[null, null]" [JNull; JNull]) (answer "[null]" [JNull])
           (initial None) [JNull] [JNull]); reflexivity.
Defined.

Lemma pass_exceptions_witness :
  idx (snd (iteration keep_entry 1 "year" "https://api/paper/batch" [IdS "a"]
              service_unavailable (initial None)))
  = idx (initial None).
Proof.
  destruct (@pass_exceptions keep_entry 1 "year" "https://api/paper/batch" [IdS "a"]
              service_unavailable (initial None) JSONDecodeError
              (snd (iteration keep_entry 1 "year" "https://api/paper/batch" [IdS "a"]
                      service_unavailable (initial None)))
              eq_refl) as (H & _).
  exact H.
Defined.

Lemma zero_batch_size_witness :
  data (snd (batch_query keep_entry 0 "year" "https://api/paper/batch"
               None [IdS "a"] [answer "[null]" [JNull]]))
  = load None.
Proof.
  pose (run := batch_query keep_entry 0 "year" "https://api/paper/batch"
                 None [IdS "a"] [answer "[null]" [JNull]]).
  destruct (@zero_batch_size keep_entry "year" "https://api/paper/batch"
              None [IdS "a"] [answer "[null]" [JNull]] (fst run) (snd run))
    as (_ & H & _).
  - simpl. discriminate.
  - reflexivity.
  - exact H.
Defined.

Lemma citing_authors_exact_witness :
  NoDup [3%Z] /\
  forall z, In z [3%Z] <->
            exists c,
              In c [citation (JNum 2016)
                      [author (JStr "3"); author JNull; author (JStr "4")];
                    citation (JNum 2018) [author (JStr "5")];
                    citation JNull [author (JStr "6")]] /\
              counted digits_int 2015 CITATION_YEARS c z.
Proof.
  apply (@citing_authors_exact digits_int
           (JArr [citation (JNum 2016)
                    [author (JStr "3"); author JNull; author (JStr "4")];
                  citation (JNum 2018) [author (JStr "5")];
                  citation JNull [author (JStr "6")]])).
  - reflexivity.
  - reflexivity.
Defined.

Lemma null_author_id_cuts_citation_witness :
  get_citing_authors digits_int
    (JArr [citation (JNum 2016) [author (JStr "3"); author JNull; author (JStr "4")]])
    2015 CITATION_YEARS
  = get_citing_authors digits_int
      (JArr [citation (JNum 2016) [author (JStr "3")]]) 2015 CITATION_YEARS.
Proof.
  apply (@null_author_id_cuts_citation digits_int [] []
           (citation (JNum 2016) [author (JStr "3"); author JNull; author (JStr "4")])
           (citation (JNum 2016) [author (JStr "3")])
           2015 CITATION_YEARS 2016
           [author (JStr "3")] [author (JStr "4")] (author JNull));
    reflexivity.
Defined.

Lemma paper_record_shape_witness :
  exists out,
    JObj sample_record_members = JObj out /\ NoDup (map fst out) /\
    Py.lookup "citations" out = None.
Proof.
  destruct (@paper_record_shape digits_int sample_paper_members
              (JObj sample_record_members))
    as (out & H1 & H2 & H3 & _).
  - reflexivity.
  - discriminate.
  - repeat constructor; simpl; intuition discriminate.
  - exists out. auto.
Defined.

Lemma paper_authors_exact_witness :
  exists azs,
    Py.lookup "authors" sample_record_members = Some (int_list azs) /\ NoDup azs.
Proof.
  destruct (@paper_authors_exact digits_int sample_paper_members sample_record_members)
    as ((authors & aitems & azs & _ & _ & H1 & H2 & _) & _).
  - reflexivity.
  - exists azs. auto.
Defined.

Lemma fields_of_study_exact_witness :
  ForallOrdPairs (fun a b => Py.eqb a b = false) [JStr "Computer Science"].
Proof.
  destruct (@fields_of_study_exact
              [JObj [("category", JStr "Computer Science")];
               JObj [("category", JNull)];
               JObj [("category", JStr "Computer Science")]]
              [JStr "Computer Science"; JStr "Computer Science"]
              [JStr "Computer Science"] eq_refl eq_refl) as (_ & _ & H).
  exact H.
Defined.

Lemma fields_of_study_unhashable_witness :
  Py.list_set [JArr []] = Py.Raise Py.TypeError.
Proof.
  destruct (@fields_of_study_unhashable [JObj [("category", JArr [])]] [JArr []] eq_refl)
    as ((_ & H) & _).
  apply H. exists (JObj [("category", JArr [])]), (JArr []).
  repeat split. simpl. now left.
Defined.

Lemma author_record_shape_witness :
  exists out,
    process_author_response sample_author = Py.Return (JObj [("papers", JArr out)]) /\
    length out = 1.
Proof.
  destruct (@author_record_shape sample_author
              (JObj [("papers",
                      JArr [JObj [("year", JNum 2015); ("fieldsOfStudy", JNull);
                                  ("s2FieldsOfStudy", JArr [JStr "Physics"])]])])
              eq_refl)
    as (papers & items & out & _ & _ & E & _).
  injection E as <-. eexists. split; reflexivity.
Defined.

Lemma null_paper_stops_author_stage_witness :
  exists e,
    prepare_authors_data [("ARXIV:0704.0001", JNull)] None [] = Py.Raise e.
Proof.
  destruct (@null_paper_stops_author_stage digits_int
              [("ARXIV:0704.0001", JNull)] None [])
    as (e & H & _).
  - simpl. now left.
  - exists e. exact H.
Defined.

Lemma author_stage_asks_all_again_witness :
  exists zs,
    author_query_ids [("ARXIV:0704.0001", JObj sample_record_members)]
    = Py.Return (map JNum zs) /\ NoDup zs.
Proof.
  destruct (@author_stage_asks_all_again digits_int
              [("ARXIV:0704.0001", JObj sample_record_members)])
    as (zs & H1 & H2 & _).
  - simpl. constructor; [|constructor]. split; [discriminate|].
    exists sample_paper. reflexivity.
  - exists zs. auto.
Defined.

Lemma paper_stage_single_batch_witness :
  dumps (trace (snd (prepare_papers_data digits_int ["0704.0001"] None
                       [too_many_requests; answer "[...]" [sample_paper]])))
  = [json_dump (data (snd (prepare_papers_data digits_int ["0704.0001"] None
                             [too_many_requests; answer "[...]" [sample_paper]])))].
Proof.
  pose (run := prepare_papers_data digits_int ["0704.0001"] None
                 [too_many_requests; answer "[...]" [sample_paper]]).
  assert (E : prepare_papers_data digits_int ["0704.0001"] None
                [too_many_requests; answer "[...]" [sample_paper]]
              = (fst run, snd run)) by (vm_compute; reflexivity).
  assert (R : fst run = Returned) by (vm_compute; reflexivity).
  pose proof (@paper_stage_single_batch digits_int ["0704.0001"] None
                [too_many_requests; answer "[...]" [sample_paper]]
                (fst run) (snd run) E) as H.
  cbv zeta in H. destruct H as (_ & _ & _ & _ & H).
  destruct (H R) as (H1 & _). exact H1.
Defined.

Lemma requests_are_paced_witness :
  paced true
    (trace (snd (batch_query keep_entry 1 "year" "https://api/paper/batch"
                   None [IdS "a"; IdS "b"]
                   [too_many_requests; answer "[null]" [JNull];
                    answer "[null]" [JNull]]))).
Proof.
  pose (run := batch_query keep_entry 1 "year" "https://api/paper/batch"
                 None [IdS "a"; IdS "b"]
                 [too_many_requests; answer "[null]" [JNull];
                  answer "[null]" [JNull]]).
  assert (E : batch_query keep_entry 1 "year" "https://api/paper/batch"
                None [IdS "a"; IdS "b"]
                [too_many_requests; answer "[null]" [JNull]; answer "[null]" [JNull]]
              = (fst run, snd run)) by (vm_compute; reflexivity).
  destruct (@requests_are_paced keep_entry 1 "year" "https://api/paper/batch"
              None [IdS "a"; IdS "b"]
              [too_many_requests; answer "[null]" [JNull]; answer "[null]" [JNull]]
              (fst run) (snd run) E) as (H & _).
  exact H.
Defined.

Lemma citing_authors_monotone_witness : In 3%Z [5%Z; 3%Z].
Proof.
  apply (@citing_authors_monotone digits_int
           (JArr [citation (JNum 2016) [author (JStr "3")];
                  citation (JNum 2018) [author (JStr "5")]])
           (JArr [citation (JNum 2018) [author (JStr "5")];
                  citation (JNum 2016) [author (JStr "3")];
                  citation (JNum 2016) [author (JStr "3")]])
           [citation (JNum 2016) [author (JStr "3")];
            citation (JNum 2018) [author (JStr "5")]]
           [citation (JNum 2018) [author (JStr "5")];
            citation (JNum 2016) [author (JStr "3")];
            citation (JNum 2016) [author (JStr "3")]]
           2015 CITATION_YEARS 4 [3%Z] [5%Z; 3%Z]); try reflexivity.
  - simpl. tauto.
  - unfold CITATION_YEARS. lia.
  - simpl. now left.
Defined.

Lemma dump_cadence_witness :
  exists st,
    batch_query keep_entry 1 "year" "https://api/paper/batch" None
      (map IdS ["a"; "b"; "c"; "d"; "e"; "f"; "g"; "h"; "i"; "j"; "k"])
      (repeat (answer "[null]" [JNull]) 11)
    = (Returned, st) /\
    length (dumps (trace st)) = 2.
Proof.
  destruct (@dump_cadence keep_entry 1 "year" "https://api/paper/batch")
    as (_ & _ & _ & _ & _ & _ & H).
  destruct (H None
              (map IdS ["a"; "b"; "c"; "d"; "e"; "f"; "g"; "h"; "i"; "j"; "k"])
              (repeat (answer "[null]" [JNull]) 11))
    as (st & j & Hrun & _ & Hge & Hlt & Hd).
  - lia.
  - apply Forall_forall. intros r Hr. apply repeat_spec in Hr. subst r.
    split; [reflexivity|]. exists (JArr [JNull]), [JNull].
    repeat split. constructor; [discriminate | constructor].
  - simpl. lia.
  - exists st. split; [exact Hrun|]. simpl in Hge, Hlt.
    assert (j = 11) by lia. subst j. exact Hd.
Defined.

